(** * api-docs-cli: spec acquisition, extraction and cache — a shallow embedding

    The JavaScript sources are embedded module by module:
    - [Js]          strings, values and exceptions of the host language;
    - [Cache]       the spec cache (second half of src/discovery.js);
    - [Net], [Trace] the network, and computations that log their events;
    - [OpenAPI]     src/extractors/openapi.js;
    - [Browser]     rendered pages as the extractors observe them;
    - [SwaggerUI]   the Swagger UI extractor;
    - [Redoc]       src/extractors/redoc.js;
    - [Regex]       the regular expressions of the scrapers;
    - [DocsScraper] src/extractors/docs-scraper.js;
    - [ApiTracker]  src/extractors/apitracker.js;
    - [Discovery]   the provider lookup (first half of src/discovery.js);
    - [Spec]        the notions the specification uses about the code;
    - [Example]     a concrete host, network and pages.
    The properties follow, one section per component.

    Strings are sequences of code units below 256 (Latin-1); every string
    operation below is the JavaScript one restricted to that range. What a
    closure run inside the page computes from live script objects (the
    framework state, the result of [eval]) is taken as an observation of
    the page; what it computes from text is computed here. *)

From Stdlib Require Import ZArith Ascii String List Bool Lia.
From stdpp Require Import base gmap strings list pretty.

Set Warnings "-register-all".

Local Open Scope string_scope.
Local Open Scope Z_scope.

(* ===================================================================== *)
(** ** Host language *)
(* ===================================================================== *)

Module Js.

(** *** Strings *)

(** WhiteSpace and LineTerminator code units below 256: TAB, LF, VT, FF,
    CR, SP and NBSP. These are what [String.prototype.trim] strips. *)
Definition isWhiteSpace (c : ascii) : bool :=
  let n := nat_of_ascii c in
  (Nat.eqb n 9 || Nat.eqb n 10 || Nat.eqb n 11 || Nat.eqb n 12 ||
   Nat.eqb n 13 || Nat.eqb n 32 || Nat.eqb n 160)%bool.

(** Lower-casing of one Latin-1 code unit: A-Z, and the accented capitals
    0xC0-0xDE except the multiplication sign 0xD7, move up by 32. *)
Definition lowerChar (c : ascii) : ascii :=
  let n := nat_of_ascii c in
  if ((Nat.leb 65 n && Nat.leb n 90) ||
      (Nat.leb 192 n && Nat.leb n 222 && negb (Nat.eqb n 215)))%bool
  then ascii_of_nat (n + 32) else c.

(** Upper-casing of one Latin-1 code unit: a-z and the accented small
    letters 0xE0-0xFE except the division sign 0xF7 move down by 32. The
    micro sign, the sharp s and the y with diaeresis, whose capitals lie
    outside Latin-1, are left alone. *)
Definition upperChar (c : ascii) : ascii :=
  let n := nat_of_ascii c in
  if ((Nat.leb 97 n && Nat.leb n 122) ||
      (Nat.leb 224 n && Nat.leb n 254 && negb (Nat.eqb n 247)))%bool
  then ascii_of_nat (n - 32) else c.

Fixpoint toLowerCase (s : string) : string :=
  match s with
  | EmptyString => EmptyString
  | String c r => String (lowerChar c) (toLowerCase r)
  end.

Fixpoint trimStart (s : string) : string :=
  match s with
  | EmptyString => EmptyString
  | String c r => if isWhiteSpace c then trimStart r else s
  end.

Definition isEmpty (s : string) : bool :=
  match s with EmptyString => true | String _ _ => false end.

Fixpoint trimEnd (s : string) : string :=
  match s with
  | EmptyString => EmptyString
  | String c r =>
      let r' := trimEnd r in
      if (isWhiteSpace c && isEmpty r')%bool then EmptyString else String c r'
  end.

Definition trim (s : string) : string := trimEnd (trimStart s).

Fixpoint startsWith (s p : string) : bool :=
  match p, s with
  | EmptyString, _ => true
  | String _ _, EmptyString => false
  | String a p', String b s' => (Ascii.eqb a b && startsWith s' p')%bool
  end.

Fixpoint includes (s p : string) : bool :=
  (startsWith s p ||
   match s with
   | EmptyString => false
   | String _ r => includes r p
   end)%bool.

Fixpoint endsWith (s p : string) : bool :=
  (String.eqb s p ||
   match s with
   | EmptyString => false
   | String _ r => endsWith r p
   end)%bool.

(** The double quote character. *)
Definition dquote : string := String "034" EmptyString.

Fixpoint toUpperCase (s : string) : string :=
  match s with
  | EmptyString => EmptyString
  | String c r => String (upperChar c) (toUpperCase r)
  end.

Definition hexDigit (n : nat) : ascii :=
  if Nat.ltb n 10 then ascii_of_nat (48 + n) else ascii_of_nat (55 + n).

(** [%XX] for one byte *)
Definition percent (b : nat) : string :=
  String "%" (String (hexDigit (Nat.div b 16))
                (String (hexDigit (Nat.modulo b 16)) EmptyString)).

(** Characters [encodeURIComponent] leaves alone: letters, digits and
    [- _ . ! ~ * ' ( )]. *)
Definition uriUnreserved (c : ascii) : bool :=
  let n := nat_of_ascii c in
  ((Nat.leb 97 n && Nat.leb n 122) || (Nat.leb 65 n && Nat.leb n 90) ||
   (Nat.leb 48 n && Nat.leb n 57) ||
   Nat.eqb n 45 || Nat.eqb n 95 || Nat.eqb n 46 || Nat.eqb n 33 ||
   Nat.eqb n 126 || Nat.eqb n 42 || Nat.eqb n 39 || Nat.eqb n 40 ||
   Nat.eqb n 41)%bool.

(** [encodeURIComponent]: every other code unit is written as the bytes
    of its UTF-8 encoding, one byte below 128 and two from there on. *)
Fixpoint encodeURIComponent (s : string) : string :=
  match s with
  | EmptyString => EmptyString
  | String c r =>
      let n := nat_of_ascii c in
      (if uriUnreserved c then String c EmptyString
       else if Nat.ltb n 128 then percent n
       else percent (192 + Nat.div n 64) ++ percent (128 + Nat.modulo n 64))
      ++ encodeURIComponent r
  end.

(** *** Values *)

(** Parsed JSON/YAML documents and the other values the program passes
    around. Numbers are integers: only their truthiness is ever inspected.
    An object lists its own enumerable members in enumeration order. A
    [VDate] is a valid Date object, as [yaml.load] builds one from a
    timestamp, named by the text its [toISOString] gives. *)
Inductive value : Type :=
| VUndefined
| VNull
| VBool (b : bool)
| VNum (n : Z)
| VStr (s : string)
| VArr (items : list value)
| VObj (fields : list (string * value))
| VDate (iso : string).

(** ToBoolean *)
Definition truthy (v : value) : bool :=
  match v with
  | VUndefined | VNull => false
  | VBool b => b
  | VNum n => negb (Z.eqb n 0)
  | VStr s => negb (isEmpty s)
  | VArr _ | VObj _ | VDate _ => true
  end.

(** [typeof v === 'object'] (true of null, arrays, objects and dates) *)
Definition typeofObject (v : value) : bool :=
  match v with
  | VNull | VArr _ | VObj _ | VDate _ => true
  | _ => false
  end.

Definition typeofString (v : value) : bool :=
  match v with VStr _ => true | _ => false end.

Fixpoint assoc (k : string) (fs : list (string * value)) : value :=
  match fs with
  | nil => VUndefined
  | (k', v) :: r => if String.eqb k k' then v else assoc k r
  end.

(** [v.k] for a value that is neither null nor undefined and a key that
    is no built-in property: own field of an object, undefined otherwise. *)
Definition prop (v : value) (k : string) : value :=
  match v with
  | VObj fs => assoc k fs
  | _ => VUndefined
  end.

(** [a || b] on values *)
Definition orElse (a b : value) : value := if truthy a then a else b.

(** *** JSON text *)

(** The members [JSON.stringify] writes for an object, as [JSON.parse]
    reads them back when [f] does so for each of them: a member holding
    undefined is left out, and a name listed a second time is no member
    of the object. *)
Fixpoint jsonMembers (f : value -> value) (fs : list (string * value))
  (seen : list string) : list (string * value) :=
  match fs with
  | nil => nil
  | (k, x) :: r =>
      if existsb (String.eqb k) seen then jsonMembers f r seen
      else match x with
           | VUndefined => jsonMembers f r (k :: seen)
           | _ => (k, f x) :: jsonMembers f r (k :: seen)
           end
  end.

(** [JSON.parse(JSON.stringify(v))] for a member or an item [v]: what is
    read back from the text written for [v]. An undefined item is written
    as null and a date as its [toJSON] string. Undefined itself stands
    for a member that was left out. *)
Fixpoint jsonRoundTrip (v : value) : value :=
  match v with
  | VArr items =>
      VArr (map (fun item => match item with
                             | VUndefined => VNull
                             | _ => jsonRoundTrip item
                             end) items)
  | VObj fields => VObj (jsonMembers jsonRoundTrip fields nil)
  | VDate iso => VStr iso
  | _ => v
  end.

Fixpoint dataMembers (f : value -> bool) (fs : list (string * value))
  (seen : list string) : bool :=
  match fs with
  | nil => true
  | (k, x) :: r =>
      negb (existsb (String.eqb k) seen) && f x && dataMembers f r (k :: seen)
  end.

(** Plain JSON data: no undefined member or item, no date, no member
    listed twice. *)
Fixpoint isJsonData (v : value) : bool :=
  match v with
  | VUndefined | VDate _ => false
  | VArr items => forallb isJsonData items
  | VObj fields => dataMembers isJsonData fields nil
  | _ => true
  end.

(** *** Exceptions *)

Inductive exn : Type :=
(* built-in *)
| TypeError
| SyntaxError
| RangeError
| AbortError
| TimeoutError
| OtherError (msg : string)
(* cache *)
| CacheNotFoundError (url : string)
| CacheExpiredError (url : string) (expiredAt : Z)
| CacheIOError (operation path : string)
(* extractors/openapi.js *)
| FetchError (url : string)
| ParseError (url format : string)
| InvalidSpecError (url reason : string)
(* browser.js *)
| BrowserError
(* Swagger UI extractor *)
| SwaggerUIExtractorError (msg : string)
| SwaggerUIPageLoadError (url : string)
| SwaggerUIExtractionTimeoutError (url : string)
| SwaggerUIAuthenticationRequiredError (url : string)
(* extractors/redoc.js *)
| RedocExtractorError (msg : string)
| RedocPageLoadError (url : string)
| RedocExtractionTimeoutError (url : string)
| RedocAuthenticationRequiredError (url : string)
(* extractors/docs-scraper.js *)
| FrameworkNotDetectedError (url : string)
| ExtractionError (url framework : string)
| ScraperPageLoadError (url : string)
(* extractors/apitracker.js *)
| APITrackerSearchError (query : string)
| APITrackerProviderNotFoundError (query : string)
| DocsUrlNotFoundError (provider : string)
(* discovery.js *)
| ProviderNotFoundError (query : value)
| DiscoveryFetchError (query : string).

(** A computation either returns or throws. *)
Inductive outcome (A : Type) : Type :=
| Return (a : A)
| Throw (e : exn).
Arguments Return {A} a.
Arguments Throw {A} e.

Definition bind {A B} (m : outcome A) (k : A -> outcome B) : outcome B :=
  match m with
  | Return a => k a
  | Throw e => Throw e
  end.

(** [try m catch (e) { h e }] *)
Definition tryCatch {A} (m : outcome A) (h : exn -> outcome A) : outcome A :=
  match m with
  | Return a => Return a
  | Throw e => h e
  end.

Definition isThrow {A} (m : outcome A) : bool :=
  match m with Throw _ => true | Return _ => false end.

End Js.

#[global] Instance outcome_ret : MRet Js.outcome := @Js.Return.
#[global] Instance outcome_bind : MBind Js.outcome :=
  fun A B k m => Js.bind m k.

(** Services of the platform the program calls but does not define. *)
Class Host := {
  (** [createHash('sha256').update(s).digest('hex')] *)
  sha256_hex : string -> string;
  (** [os.homedir()] *)
  homedir : string;
  (** [JSON.parse]; [None] when it throws a SyntaxError *)
  JSON_parse : string -> option Js.value;
  (** [yaml.load] of js-yaml; [None] when it throws *)
  yaml_load : string -> option Js.value;
  (** [new URL(url)]: its [protocol] and [host]; [None] when it throws *)
  URL_parse : string -> option (string * string);
  (** [new URL(relative, base).href]; [None] when it throws *)
  URL_resolve : string -> string -> option string;
  (** a SHA-256 digest in hexadecimal has 64 characters *)
  sha256_hex_length : forall s, String.length (sha256_hex s) = 64%nat;
}.

(* ===================================================================== *)
(** ** The spec cache (src/discovery.js, cache management module) *)
(* ===================================================================== *)

Module Cache.
Import Js.

Record SpecInfo := {
  si_title : value;
  si_version : value;
  si_type : string;
}.

(** An entry of the manifest. Timestamps are kept as milliseconds since
    the epoch: [toISOString] and [new Date(iso)] are inverse to each other
    at that precision. [None] is [null]. *)
Record Entry := {
  e_url : string;
  e_filename : string;
  e_cachedAt : Z;
  e_expiresAt : option Z;
  e_specInfo : SpecInfo;
}.

Record Metadata := {
  md_url : string;
  md_cachedAt : Z;
  md_expiresAt : option Z;
  md_originalFormat : string;
  md_specType : string;
  md_specVersion : value;
}.

Record CachedData := {
  cd_metadata : Metadata;
  cd_spec : value;
}.

(** A JSON document of the cache directory, in parsed form: a manifest
    (an object whose [entries] member is an object of entries), the blob
    of one entry, or any other JSON value whose [entries] property is
    undefined or null. A JSON array, whose [entries] is the method it
    inherits, and an object whose [entries] member is of another kind
    are not among the documents described: the program writes none. *)
Inductive document : Type :=
| DManifest (entries : gmap string Entry)
| DBlob (d : CachedData)
| DOther.

(** What [JSON.parse] reads back from the text [JSON.stringify] writes
    for an entry and for the data of a blob: every member is a string, a
    number or null, but for the title and version taken from the spec,
    the spec version and the spec itself. *)
Definition jsonEntry (entry : Entry) : Entry :=
  {| e_url := e_url entry;
     e_filename := e_filename entry;
     e_cachedAt := e_cachedAt entry;
     e_expiresAt := e_expiresAt entry;
     e_specInfo :=
       {| si_title := jsonRoundTrip (si_title (e_specInfo entry));
          si_version := jsonRoundTrip (si_version (e_specInfo entry));
          si_type := si_type (e_specInfo entry) |} |}.

Definition jsonCachedData (d : CachedData) : CachedData :=
  {| cd_metadata :=
       {| md_url := md_url (cd_metadata d);
          md_cachedAt := md_cachedAt (cd_metadata d);
          md_expiresAt := md_expiresAt (cd_metadata d);
          md_originalFormat := md_originalFormat (cd_metadata d);
          md_specType := md_specType (cd_metadata d);
          md_specVersion := jsonRoundTrip (md_specVersion (cd_metadata d)) |};
     cd_spec := jsonRoundTrip (cd_spec d) |}.

(** What a path of the disk holds, seen through [readFile] followed by
    [JSON.parse]: a document, or something that cannot be read or parsed.
    A path absent from the map gives ENOENT. *)
Inductive file : Type :=
| Json (doc : document)
| Unreadable.

Record Disk := {
  files : gmap string file;
  (** [mkdir] of the cache directory succeeds *)
  dirOk : bool;
  (** paths on which [writeFile] fails *)
  denied : gset string;
}.

(** The process state: the disk, and the [entries] object of the
    module-level constant [EMPTY_MANIFEST], which [{ ...EMPTY_MANIFEST }]
    copies by reference. *)
Record State := {
  disk : Disk;
  emptyEntries : gmap string Entry;
}.

Definition CACHE_DIR_NAME : string := ".cache/api-docs-cli/specs".
Definition MANIFEST_FILENAME : string := "index.json".
Definition DEFAULT_TTL_MS : option Z := None.

(** [path.join] of a directory and a plain file name *)
Definition join (dir name : string) : string := dir ++ "/" ++ name.

Definition slice (n : nat) (s : string) : string := String.substring 0 n s.

Definition generateCacheKey `{Host} (url : string) : string :=
  slice 16 (sha256_hex (toLowerCase (trim url))).

Definition getCacheDirectory `{Host} : string := join homedir CACHE_DIR_NAME.

Definition manifestPath `{Host} : string :=
  join getCacheDirectory MANIFEST_FILENAME.

Definition ensureCacheDirectory `{Host} (st : State) : outcome unit :=
  if dirOk (disk st) then Return tt
  else Throw (CacheIOError "create directory" getCacheDirectory).

(** [readManifest] followed by the access to a member of
    [manifest.entries] every caller makes next: the entries, and whether
    they are the [entries] object of [EMPTY_MANIFEST] (the file did not
    exist). On a document whose [entries] is undefined or null that
    access throws a TypeError. *)
Definition readManifest `{Host} (st : State)
  : outcome (gmap string Entry * bool) :=
  match files (disk st) !! manifestPath with
  | None => Return (emptyEntries st, true)
  | Some (Json (DManifest m)) => Return (m, false)
  | Some (Json _) => Throw TypeError
  | Some Unreadable => Throw (CacheIOError "read manifest" manifestPath)
  end.

Definition writeFile (path : string) (f : file) (d : Disk) : option Disk :=
  if decide (path ∈ denied d) then None
  else Some {| files := <[path := f]> (files d);
               dirOk := dirOk d; denied := denied d |}.

Definition writeManifest `{Host} (m : gmap string Entry) (st : State)
  : outcome unit * State :=
  match ensureCacheDirectory st with
  | Throw e => (Throw e, st)
  | Return _ =>
      match writeFile manifestPath (Json (DManifest (jsonEntry <$> m)))
              (disk st) with
      | None => (Throw (CacheIOError "write manifest" manifestPath), st)
      | Some d' => (Return tt, {| disk := d'; emptyEntries := emptyEntries st |})
      end
  end.

(** [now] is the value of [new Date()] when the check runs. *)
Definition isExpired (entry : Entry) (now : Z) : bool :=
  match e_expiresAt entry with
  | None => false
  | Some t => t <? now
  end.

Record NormalizedSpec := {
  ns_title : value;
  ns_version : value;
  ns_type : string;
  ns_specVersion : value;
  ns_originalFormat : string;
}.

(** [spec.info?.k] *)
Definition infoField (spec : value) (k : string) : value :=
  match prop spec "info" with
  | VUndefined | VNull => VUndefined
  | info => prop info k
  end.

(** [normalizeSpec]. Reading a property of null or undefined, and calling
    [startsWith] on a truthy non-string, throw a TypeError. *)
Definition normalizeSpec (spec : value) (originalFormat : string)
  : outcome NormalizedSpec :=
  match spec with
  | VUndefined | VNull => Throw TypeError
  | _ =>
    detected ←
      (let openapi := prop spec "openapi" in
       let swaggerBranch :=
         let swagger := prop spec "swagger" in
         match swagger with
         | VStr s => if String.eqb s "2.0" then ("swagger", swagger)
                     else ("unknown", VNull)
         | _ => ("unknown", VNull)
         end in
       if truthy openapi then
         match openapi with
         | VStr s => if startsWith s "3." then Return ("openapi", openapi)
                     else Return swaggerBranch
         | _ => Throw TypeError
         end
       else Return swaggerBranch);
    Return {| ns_title := orElse (infoField spec "title") (VStr "Unknown API");
              ns_version := orElse (infoField spec "version") (VStr "unknown");
              ns_type := fst detected;
              ns_specVersion := snd detected;
              ns_originalFormat := originalFormat |}
  end.

(** [getCached(url, { ignoreExpired })] at clock value [now]. It only
    reads, so the state is not returned; its result is whatever document
    the blob file holds. *)
Definition getCached `{Host} (url : string) (ignoreExpired : bool) (now : Z)
  (st : State) : outcome document :=
  let key := generateCacheKey url in
  p ← readManifest st;
  match fst p !! key with
  | None => Throw (CacheNotFoundError url)
  | Some entry =>
      if (negb ignoreExpired && isExpired entry now)%bool
      then Throw (CacheExpiredError url
                    (match e_expiresAt entry with Some t => t | None => 0 end))
      else
        let specPath := join getCacheDirectory (e_filename entry) in
        match files (disk st) !! specPath with
        | Some (Json doc) => Return doc
        | None => Throw (CacheNotFoundError url)
        | Some Unreadable => Throw (CacheIOError "read spec" specPath)
        end
  end.

(** Largest time value of a valid Date; beyond it [toISOString] throws. *)
Definition MAX_TIME : Z := 8640000000000000.

Definition validTime (t : Z) : bool := (- MAX_TIME <=? t) && (t <=? MAX_TIME).

(** [typeof spec === 'string' ? JSON.parse(spec) : spec] *)
Definition parseIfString `{Host} (spec : value) : outcome value :=
  match spec with
  | VStr s => match JSON_parse s with
              | Some v => Return v
              | None => Throw SyntaxError
              end
  | _ => Return spec
  end.

(** [setCache(url, spec, { ttl, originalFormat })] at clock value [now].
    [ttl = None] is a null or absent ttl. *)
Definition setCache `{Host} (url : string) (spec : value) (ttl : option Z)
  (originalFormat : string) (now : Z) (st : State)
  : outcome Entry * State :=
  match parseIfString spec with
  | Throw e => (Throw e, st)
  | Return specObj =>
  match ensureCacheDirectory st with
  | Throw e => (Throw e, st)
  | Return _ =>
  let key := generateCacheKey url in
  let filename := key ++ ".json" in
  match (match ttl with
         | None => Return None
         | Some t =>
             if Z.eqb t 0 then Return None
             else if validTime (now + t) then Return (Some (now + t))
             else Throw RangeError
         end) with
  | Throw e => (Throw e, st)
  | Return expiresAt =>
  match normalizeSpec specObj originalFormat with
  | Throw e => (Throw e, st)
  | Return specInfo =>
  let cachedData :=
    {| cd_metadata := {| md_url := url; md_cachedAt := now;
                         md_expiresAt := expiresAt;
                         md_originalFormat := originalFormat;
                         md_specType := ns_type specInfo;
                         md_specVersion := ns_specVersion specInfo |};
       cd_spec := specObj |} in
  let specPath := join getCacheDirectory filename in
  match writeFile specPath (Json (DBlob (jsonCachedData cachedData)))
          (disk st) with
  | None => (Throw (CacheIOError "write spec" specPath), st)
  | Some d1 =>
  let st1 := {| disk := d1; emptyEntries := emptyEntries st |} in
  match readManifest st1 with
  | Throw e => (Throw e, st1)
  | Return (entries, aliased) =>
  let entry :=
    {| e_url := url; e_filename := filename; e_cachedAt := now;
       e_expiresAt := expiresAt;
       e_specInfo := {| si_title := ns_title specInfo;
                        si_version := ns_version specInfo;
                        si_type := ns_type specInfo |} |} in
  let entries' := <[key := entry]> entries in
  let st2 := {| disk := d1;
                emptyEntries := if aliased then entries'
                                else emptyEntries st |} in
  match writeManifest entries' st2 with
  | (Throw e, st3) => (Throw e, st3)
  | (Return _, st3) => (Return entry, st3)
  end end end end end end end.

(** [listCache({ includeExpired, checkFiles })]. The manifest keeps no
    insertion order, so the array is given as a map from the manifest
    keys. Every [isExpired] call reads the clock: [filterClock k] and
    [flagClock k] are its values when the entry at key [k] is filtered and
    when it is flagged. [access] succeeds on every path that exists. *)
Definition listCache `{Host} (includeExpired checkFiles : bool)
  (filterClock flagClock : string -> Z) (st : State)
  : outcome (gmap string (Entry * bool)) :=
  p ← readManifest st;
  let entries : gmap string Entry :=
    if includeExpired then fst p
    else filter (fun ke => isExpired (snd ke) (filterClock (fst ke)) = false)
                (fst p) in
  let verified : gmap string Entry :=
    if checkFiles
    then filter (fun ke => is_Some (files (disk st) !!
                                      join getCacheDirectory (e_filename (snd ke))))
                entries
    else entries in
  Return (map_imap (fun k entry => Some (entry, isExpired entry (flagClock k)))
            verified).

Inductive UnlinkResult : Type :=
| Unlinked (d : Disk)
| NoSuchFile          (* ENOENT *)
| UnlinkFailed.       (* any other error *)

(** [unlink(path)]; [undeletable] holds the paths on which it fails with
    an error other than ENOENT. *)
Definition unlink (undeletable : gset string) (path : string) (d : Disk)
  : UnlinkResult :=
  if decide (path ∈ undeletable) then UnlinkFailed
  else
    match files d !! path with
    | Some _ => Unlinked {| files := delete path (files d);
                            dirOk := dirOk d; denied := denied d |}
    | None => NoSuchFile
    end.

(** The disk after an [unlink] whose errors are ignored. *)
Definition unlinkQuietly `{Host} (undeletable : gset string) (d : Disk)
  (entry : Entry) : Disk :=
  match unlink undeletable (join getCacheDirectory (e_filename entry)) d with
  | Unlinked d' => d'
  | NoSuchFile | UnlinkFailed => d
  end.

Record Cleared := {
  cleared : nat;
  urls : list string;
}.

(** [clearCache(url)]; [None] is null. An empty string is falsy and
    clears everything, like null. The entries of the manifest are listed
    in the order of their keys. *)
Definition clearCache `{Host} (undeletable : gset string) (url : option string)
  (st : State) : outcome Cleared * State :=
  match readManifest st with
  | Throw e => (Throw e, st)
  | Return (entries, aliased) =>
  match (match url with
         | Some u => if isEmpty u then None else Some u
         | None => None
         end) with
  | Some u =>
      let key := generateCacheKey u in
      match entries !! key with
      | None => (Throw (CacheNotFoundError u), st)
      | Some entry =>
          let specPath := join getCacheDirectory (e_filename entry) in
          match unlink undeletable specPath (disk st) with
          | UnlinkFailed => (Throw (CacheIOError "delete spec" specPath), st)
          | unlinked =>
              let d1 := match unlinked with
                        | Unlinked d => d
                        | _ => disk st
                        end in
              (* delete manifest.entries[key] *)
              let entries' := delete key entries in
              let st1 := {| disk := d1;
                            emptyEntries := if aliased then entries'
                                            else emptyEntries st |} in
              match writeManifest entries' st1 with
              | (Throw e, st2) => (Throw e, st2)
              | (Return _, st2) =>
                  (Return {| cleared := 1; urls := [u] |}, st2)
              end
          end
      end
  | None =>
      let all := (map_to_list entries).*2 in
      let d1 := foldl (unlinkQuietly undeletable) (disk st) all in
      let st1 := {| disk := d1; emptyEntries := emptyEntries st |} in
      (* { ...EMPTY_MANIFEST } *)
      match writeManifest (emptyEntries st) st1 with
      | (Throw e, st2) => (Throw e, st2)
      | (Return _, st2) =>
          (Return {| cleared := length all; urls := e_url <$> all |}, st2)
      end
  end end.

End Cache.

(* ===================================================================== *)
(** ** The outside world: network and browser *)
(* ===================================================================== *)

Module Net.
Import Js.

Record Response := {
  r_ok : bool;
  (** [headers.get('content-type')], [None] when the header is absent *)
  r_contentType : option string;
  (** [await response.text()] *)
  r_text : outcome string;
}.

Inductive FetchOutcome : Type :=
| Responded (r : Response)
| Aborted           (* the timeout fired: AbortError *)
| Failed.           (* the request failed: TypeError *)

(** The network answers a request given the requests made before it. *)
Definition Network : Type := list string -> string -> FetchOutcome.

End Net.

(** What the program does to the world, in order. *)
Inductive Event : Type :=
| EvGetPage                      (* getPage of browser.js *)
| EvIntercept                    (* page.on('response', ...) *)
| EvGoto (url : string)          (* page.goto *)
| EvAuthCheck                    (* detectAuthRequired *)
| EvWaitReady                    (* waiting for the framework to render *)
| EvLayer (name : string)        (* one extraction layer looks at the page *)
| EvFetch (url : string)         (* fetch *)
| EvClosePage                    (* page.close *)
| EvReadUrlCache                 (* readFile of the discovery cache *)
| EvWriteUrlCache                (* writeFile of the discovery cache *)
| EvSearchProvider (query : string).  (* searchProvider of apitracker.js *)

(** Computations that return or throw, and log their events. *)
Module Trace.
Import Js.

Definition M (A : Type) : Type := (outcome A * list Event)%type.

Definition ret {A} (a : A) : M A := (Return a, []).

Definition throw {A} (e : exn) : M A := (Throw e, []).

Definition lift {A} (o : outcome A) : M A := (o, []).

Definition emit (ev : Event) : M unit := (Return tt, [ev]).

Definition bind {A B} (m : M A) (k : A -> M B) : M B :=
  match m with
  | (Return a, l) => let '(r, l') := k a in (r, (l ++ l')%list)
  | (Throw e, l) => (Throw e, l)
  end.

(** [try m catch (e) { h e }] *)
Definition catch {A} (m : M A) (h : exn -> M A) : M A :=
  match m with
  | (Throw e, l) => let '(r, l') := h e in (r, (l ++ l')%list)
  | (Return a, l) => (Return a, l)
  end.

(** [try m finally { f }]: the cleanup [f] runs after [m], whatever its
    outcome; when [f] throws, its error replaces the outcome of [m]. *)
Definition finally {A} (m : M A) (f : M unit) : M A :=
  match f with
  | (Return _, l) => (fst m, (snd m ++ l)%list)
  | (Throw e, l) => (Throw e, (snd m ++ l)%list)
  end.

End Trace.

#[global] Instance trace_ret : MRet Trace.M := @Trace.ret.
#[global] Instance trace_bind : MBind Trace.M :=
  fun A B k m => Trace.bind m k.

(* ===================================================================== *)
(** ** Direct fetch and path probing (src/extractors/openapi.js) *)
(* ===================================================================== *)

Module OpenAPI.
Import Js Net.

Definition COMMON_SPEC_PATHS : list string :=
  [ "/openapi.json"; "/openapi.yaml"; "/openapi.yml";
    "/swagger.json"; "/swagger.yaml"; "/swagger.yml";
    "/api-docs"; "/api-docs.json"; "/api-docs.yaml"; "/api-docs.yml";
    "/v2/api-docs"; "/v3/api-docs";
    "/docs/openapi.json"; "/docs/swagger.json";
    "/docs/openapi.yaml"; "/docs/swagger.yaml";
    "/api/openapi.json"; "/api/swagger.json"; "/spec/openapi.json";
    "/swagger/v2/api-docs"; "/swagger/v3/api-docs" ].

Definition DEFAULT_FETCH_TIMEOUT_MS : Z := 10000.

Definition isDirectSpecUrl (url : string) : bool :=
  let lower := toLowerCase url in
  (endsWith lower ".json" || endsWith lower ".yaml" || endsWith lower ".yml" ||
   includes lower "/api-docs" || includes lower "/openapi" ||
   includes lower "/swagger")%bool.

Record Parsed := {
  p_spec : value;
  p_format : string;
}.

(** [typeof parsed === 'object' && parsed !== null] *)
Definition isNonNullObject (v : value) : bool :=
  match v with VArr _ | VObj _ | VDate _ => true | _ => false end.

Definition parseYaml `{Host} (trimmed url : string) : outcome Parsed :=
  match yaml_load trimmed with
  | Some parsed =>
      if isNonNullObject parsed
      then Return {| p_spec := parsed; p_format := "yaml" |}
      else Throw (ParseError url "yaml")
  | None => Throw (ParseError url "yaml")
  end.

Definition parseSpecContent `{Host} (content url : string) : outcome Parsed :=
  let trimmed := trim content in
  let lower := toLowerCase url in
  if (endsWith lower ".json" || startsWith trimmed "{")%bool then
    match JSON_parse trimmed with
    | Some v => Return {| p_spec := v; p_format := "json" |}
    | None =>
        if endsWith lower ".json" then Throw (ParseError url "json")
        else parseYaml trimmed url
    end
  else parseYaml trimmed url.

Record SpecInfo := {
  i_type : string;
  i_version : string;
  i_title : value;
  i_apiVersion : value;
}.

(** [spec.info?.k] *)
Definition infoField (spec : value) (k : string) : value :=
  match prop spec "info" with
  | VUndefined | VNull => VUndefined
  | info => prop info k
  end.

Definition mkInfo (type version : string) (spec : value) : SpecInfo :=
  {| i_type := type;
     i_version := version;
     i_title := orElse (infoField spec "title") (VStr "Unknown API");
     i_apiVersion := orElse (infoField spec "version") (VStr "unknown") |}.

(** [spec.openapi && typeof spec.openapi === 'string' &&
     spec.openapi.startsWith('3.')], with the version when it holds *)
Definition openapi3 (spec : value) : option string :=
  match prop spec "openapi" with
  | VStr s => if (negb (isEmpty s) && startsWith s "3.")%bool
              then Some s else None
  | _ => None
  end.

(** [spec.swagger && spec.swagger === '2.0'] *)
Definition swagger2 (spec : value) : bool :=
  match prop spec "swagger" with
  | VStr s => String.eqb s "2.0"
  | _ => false
  end.

Definition validateSpec (spec : value) (url : string) : outcome SpecInfo :=
  if (negb (truthy spec) || negb (typeofObject spec))%bool then
    Throw (InvalidSpecError url "Spec must be an object")
  else
    match openapi3 spec with
    | Some version =>
        if negb (truthy (prop spec "info")) then
          Throw (InvalidSpecError url ("Missing required " ++ dquote ++ "info" ++ dquote ++ " field"))
        else if (negb (truthy (prop spec "paths")) &&
                 negb (truthy (prop spec "webhooks")) &&
                 negb (truthy (prop spec "components")))%bool then
          Throw (InvalidSpecError url "Missing paths, webhooks, or components")
        else Return (mkInfo "openapi" version spec)
    | None =>
        if swagger2 spec then
          if negb (truthy (prop spec "info")) then
            Throw (InvalidSpecError url ("Missing required " ++ dquote ++ "info" ++ dquote ++ " field"))
          else if negb (truthy (prop spec "paths")) then
            Throw (InvalidSpecError url ("Missing required " ++ dquote ++ "paths" ++ dquote ++ " field"))
          else Return (mkInfo "swagger" "2.0" spec)
        else
          Throw (InvalidSpecError url
                   "Not a valid OpenAPI 3.x or Swagger 2.0 specification")
    end.

(** [new URL(url)] followed by [`${protocol}//${host}`]; a TypeError
    when the URL does not parse. *)
Definition getBaseUrl `{Host} (url : string) : outcome string :=
  match URL_parse url with
  | Some (protocol, host) => Return (protocol ++ "//" ++ host)
  | None => Throw TypeError
  end.

Record FetchResult := {
  f_spec : value;
  f_format : string;
  f_specInfo : SpecInfo;
  f_url : string;
}.

(** The body of the [try] block of [tryFetchSpec]. *)
Definition tryFetchSpecBody `{Host} (response : FetchOutcome) (url : string)
  : outcome (option FetchResult) :=
  match response with
  | Aborted => Throw AbortError
  | Failed => Throw TypeError
  | Responded response =>
      if negb (r_ok response) then Return None
      else
        let contentType := default EmptyString (r_contentType response) in
        content ← r_text response;
        if (includes contentType "text/html" &&
            negb (startsWith (trim content) "{"))%bool then Return None
        else
          p ← parseSpecContent content url;
          specInfo ← validateSpec (p_spec p) url;
          Return (Some {| f_spec := p_spec p; f_format := p_format p;
                          f_specInfo := specInfo; f_url := url |})
  end.

Definition isAbortError (e : exn) : bool :=
  match e with AbortError => true | _ => false end.

Definition isParseOrInvalidSpecError (e : exn) : bool :=
  match e with ParseError _ _ | InvalidSpecError _ _ => true | _ => false end.

(** [tryFetchSpec(url, { timeout })] with the requests made so far; it
    returns its result and the requests made once it is done. *)
Definition tryFetchSpec `{Host} (net : Network) (url : string)
  (history : list string) : outcome (option FetchResult) * list string :=
  (tryCatch (tryFetchSpecBody (net history url) url)
     (fun error =>
        if isAbortError error then Return None
        else if isParseOrInvalidSpecError error then Return None
        else Return None),
   (history ++ [url])%list).

Record SpecResult := {
  s_spec : value;
  s_format : string;
  s_specInfo : SpecInfo;
  s_sourceUrl : string;
}.

Definition toResult (result : FetchResult) : SpecResult :=
  {| s_spec := f_spec result; s_format := f_format result;
     s_specInfo := f_specInfo result; s_sourceUrl := f_url result |}.

(** [replace(/\/+$/, '')] *)
Fixpoint stripTrailingSlashes (s : string) : string :=
  match s with
  | EmptyString => EmptyString
  | String c r =>
      let r' := stripTrailingSlashes r in
      if (Ascii.eqb c "/" && isEmpty r')%bool then EmptyString
      else String c r'
  end.

Definition normalizeUrl (url : string) : string :=
  let trimmed := trim url in
  stripTrailingSlashes
    (if (negb (startsWith trimmed "http://") &&
         negb (startsWith trimmed "https://"))%bool
     then "https://" ++ trimmed else trimmed).

(** The loop over [COMMON_SPEC_PATHS]. *)
Fixpoint probePaths `{Host} (net : Network) (baseUrl : string)
  (paths : list string) (history : list string)
  : outcome (option SpecResult) * list string :=
  match paths with
  | [] => (Return None, history)
  | path :: rest =>
      let probeUrl := baseUrl ++ path in
      match tryFetchSpec net probeUrl history with
      | (Return (Some result), history') =>
          (Return (Some (toResult result)), history')
      | (Return None, history') => probePaths net baseUrl rest history'
      | (Throw e, history') => (Throw e, history')
      end
  end.

Definition probeCommonPathsFrom `{Host} (net : Network)
  (normalizedUrl : string) (history : list string)
  : outcome (option SpecResult) * list string :=
  match (if isDirectSpecUrl normalizedUrl then getBaseUrl normalizedUrl
         else Return normalizedUrl) with
  | Throw e => (Throw e, history)
  | Return baseUrl => probePaths net baseUrl COMMON_SPEC_PATHS history
  end.

(** [fetchOpenAPISpec(url, { timeout, probeCommonPaths })] *)
Definition fetchOpenAPISpec `{Host} (net : Network) (url : string)
  (probeCommonPaths : bool) (history : list string)
  : outcome (option SpecResult) * list string :=
  let normalizedUrl := normalizeUrl url in
  let afterDirect :=
    if isDirectSpecUrl normalizedUrl
    then tryFetchSpec net normalizedUrl history
    else (Return None, history) in
  match afterDirect with
  | (Throw e, history') => (Throw e, history')
  | (Return (Some result), history') =>
      (Return (Some (toResult result)), history')
  | (Return None, history') =>
      if probeCommonPaths
      then probeCommonPathsFrom net normalizedUrl history'
      else (Return None, history')
  end.

(** [hasOpenAPISpec(url, options)]: nothing is caught here. *)
Definition hasOpenAPISpec `{Host} (net : Network) (url : string)
  (probeCommonPaths : bool) (history : list string)
  : outcome bool * list string :=
  match fetchOpenAPISpec net url probeCommonPaths history with
  | (Return result, history') =>
      (Return (match result with Some _ => true | None => false end), history')
  | (Throw e, history') => (Throw e, history')
  end.

End OpenAPI.

(* ===================================================================== *)
(** ** Rendered pages seen through the browser (browser.js, Puppeteer) *)
(* ===================================================================== *)

Module Browser.
Import Js.

(** A response the page received while it loaded. *)
Record InterceptedResponse := {
  ir_url : string;
  ir_contentType : option string;
  ir_text : outcome string;
}.

(** What happens to the response handler of [setupNetworkInterception]
    while the page loads, in order: the next response arrives and the
    handler is called on it, or the body of response number [i] (counted
    from 0 in order of arrival) has been read and the handler called on
    it resumes after its [await response.text()]. *)
Inductive NetStep : Type :=
| Arrival
| BodyRead (i : nat).

(** The state the handlers share: how many responses have arrived, the
    handlers waiting for a body, [capturedSpec] with [capturedUrl]. *)
Record Interception := {
  arrived : nat;
  reading : gmap nat InterceptedResponse;
  capturedSpec : option (value * string);
}.

(** One step of the handlers. [readsBody] is the part of a handler
    before its [await], once [capturedSpec] was found empty: whether it
    goes on to read the body. [capture] is the part after the [await]:
    the capture it makes, if any, without looking at [capturedSpec]
    again. *)
Definition onStep (readsBody : InterceptedResponse -> bool)
  (capture : InterceptedResponse -> option (value * string))
  (responses : list InterceptedResponse) (st : Interception)
  (step : NetStep) : Interception :=
  match step with
  | Arrival =>
      match responses !! arrived st with
      | None => st
      | Some response =>
          {| arrived := S (arrived st);
             reading :=
               match capturedSpec st with
               | Some _ => reading st
               | None => if readsBody response
                         then <[arrived st := response]> (reading st)
                         else reading st
               end;
             capturedSpec := capturedSpec st |}
      end
  | BodyRead i =>
      match reading st !! i with
      | None => st
      | Some response =>
          {| arrived := arrived st;
             reading := delete i (reading st);
             capturedSpec := match capture response with
                             | Some c => Some c
                             | None => capturedSpec st
                             end |}
      end
  end.

(** [capturedSpec] with [capturedUrl] after the steps of [timeline]. *)
Definition intercept (readsBody : InterceptedResponse -> bool)
  (capture : InterceptedResponse -> option (value * string))
  (responses : list InterceptedResponse) (timeline : list NetStep)
  : option (value * string) :=
  capturedSpec
    (fold_left (onStep readsBody capture responses) timeline
       {| arrived := 0; reading := ∅; capturedSpec := None |}).

(** The timeline of [n] responses that do not overlap: each body is
    read before the next response arrives. *)
Definition oneByOne (n : nat) : list NetStep :=
  flat_map (fun i => [Arrival; BodyRead i]) (seq 0 n).

(** The browser as one call of an entry point meets it: [getPage] of
    browser.js (which may fail with a BrowserError), what [page.goto]
    gives for each URL the call navigates to, as the page stands when
    the call looks at it, and how the page answers the cleanup. Two
    calls are two sessions: nothing relates what they see. *)
Record Session (Page : Type) := {
  getPage : outcome unit;
  goto : string -> outcome Page;
  (** [page.isClosed()] when the cleanup runs *)
  isClosed : bool;
  (** [page.close()] in the cleanup *)
  close : outcome unit;
}.
Arguments getPage {Page} _.
Arguments goto {Page} _ _.
Arguments isClosed {Page} _.
Arguments close {Page} _.

(** The cleanup [if (page && !page.isClosed()) { await page.close(); }];
    [page] is still null when [getPage] failed. *)
Definition closePage {Page} (browser : Session Page) : Trace.M unit :=
  match getPage browser with
  | Throw _ => Trace.ret tt
  | Return _ =>
      if isClosed browser then Trace.ret tt
      else _ ← Trace.emit EvClosePage; Trace.lift (close browser)
  end.

(** The events of the cleanup: one call of [page.close], when a page was
    obtained and is not closed yet. *)
Definition closeLog {Page} (browser : Session Page) : list Event :=
  match getPage browser with
  | Throw _ => []
  | Return _ => if isClosed browser then [] else [EvClosePage]
  end.

(** The same with the call wrapped in [try { } catch { }]. *)
Definition closePageQuietly {Page} (browser : Session Page) : Trace.M unit :=
  Trace.catch (closePage browser) (fun _ => Trace.ret tt).

(** The page observations every auth check reads. *)
Record AuthSignals := {
  (** [page.evaluate] works on this page *)
  as_evaluateOk : bool;
  (** [document.querySelector('input[type=password]') !== null] *)
  as_passwordInput : bool;
  (** [document.querySelector('form[action*=login]') !== null] *)
  as_loginForm : bool;
  (** [document.body?.innerText] *)
  as_bodyInnerText : option string;
  (** [document.title] *)
  as_title : string;
  (** [document.querySelector('h1')?.innerText] *)
  as_h1InnerText : option string;
}.

(** [url.trim()], with [https://] put in front when no scheme is there *)
Definition normalizeUrl (url : string) : string :=
  let trimmed := trim url in
  if (negb (startsWith trimmed "http://") &&
      negb (startsWith trimmed "https://"))%bool
  then "https://" ++ trimmed else trimmed.

End Browser.

(* ===================================================================== *)
(** ** The Swagger UI extractor *)
(* ===================================================================== *)

Module SwaggerUI.
Import Js Browser.

Definition DEFAULT_TIMEOUT_MS : Z := 30000.

(** [SPEC_URL_PATTERNS.some(pattern => pattern.test(url))]; the patterns
    are case-insensitive literals. *)
Definition isSpecUrl (url : string) : bool :=
  let lower := toLowerCase url in
  (includes lower "openapi.json" || includes lower "openapi.yaml" ||
   includes lower "swagger.json" || includes lower "swagger.yaml" ||
   includes lower "api-docs" || includes lower "/v2/api-docs" ||
   includes lower "/v3/api-docs")%bool.

Record SpecInfo := {
  i_type : string;
  i_version : string;
  i_title : value;
  i_apiVersion : value;
}.

Definition infoField (spec : value) (k : string) : value :=
  match prop spec "info" with
  | VUndefined | VNull => VUndefined
  | info => prop info k
  end.

Definition mkInfo (type version : string) (spec : value) : SpecInfo :=
  {| i_type := type;
     i_version := version;
     i_title := orElse (infoField spec "title") (VStr "Unknown API");
     i_apiVersion := orElse (infoField spec "version") (VStr "unknown") |}.

Definition openapi3 (spec : value) : option string :=
  match prop spec "openapi" with
  | VStr s => if (negb (isEmpty s) && startsWith s "3.")%bool
              then Some s else None
  | _ => None
  end.

Definition swagger2 (spec : value) : bool :=
  match prop spec "swagger" with
  | VStr s => String.eqb s "2.0"
  | _ => false
  end.

(** [validateSpec(spec)]: the spec info, or [None] for null *)
Definition validateSpec (spec : value) : option SpecInfo :=
  if (negb (truthy spec) || negb (typeofObject spec))%bool then None
  else
    match openapi3 spec with
    | Some version =>
        if negb (truthy (prop spec "info")) then None
        else Some (mkInfo "openapi" version spec)
    | None =>
        if swagger2 spec then
          if (negb (truthy (prop spec "info")) ||
              negb (truthy (prop spec "paths")))%bool then None
          else Some (mkInfo "swagger" "2.0" spec)
        else None
    end.

(** [window.ui] as the page exposes it, each accessor already applied
    and converted to plain data ([VUndefined] when the accessor is
    missing or yields nothing). *)
Record WindowUI := {
  ui_specJson : value;      (* specSelectors.specJson(), after toJS *)
  ui_configsSpec : value;   (* getConfigs().spec *)
  ui_stateSpecJson : value; (* getState().spec.json, after toJS *)
}.

Record Page := {
  pg_auth : AuthSignals;
  (** responses received during the load, in order of arrival *)
  pg_responses : list InterceptedResponse;
  (** arrivals and completed body reads, in order, up to the moment
      [getSpec] is called *)
  pg_timeline : list NetStep;
  (** [waitForSwaggerUI] saw one of its markers before the timeout *)
  pg_swaggerUIReady : bool;
  (** [None] when [typeof window.ui === 'undefined'] *)
  pg_windowUI : option WindowUI;
  (** what evaluating the inline scripts yields, null when nothing *)
  pg_scriptSpec : value;
}.

Definition hasVersionField (spec : value) : bool :=
  (truthy (prop spec "openapi") || truthy (prop spec "swagger"))%bool.

(** The closure of [extractSpecFromWindowUI]. *)
Definition windowUISpec (ui : option WindowUI) : value :=
  match ui with
  | None => VNull
  | Some ui =>
      if (truthy (ui_specJson ui) && hasVersionField (ui_specJson ui))%bool
      then ui_specJson ui
      else if (truthy (ui_configsSpec ui) &&
               hasVersionField (ui_configsSpec ui))%bool
      then ui_configsSpec ui
      else if (truthy (ui_stateSpecJson ui) &&
               typeofObject (ui_stateSpecJson ui))%bool
      then ui_stateSpecJson ui
      else VNull
  end.

Definition extractSpecFromWindowUI (page : Page) : value :=
  if as_evaluateOk (pg_auth page) then windowUISpec (pg_windowUI page)
  else VNull.

Definition extractSpecFromScripts (page : Page) : value :=
  if as_evaluateOk (pg_auth page) then pg_scriptSpec page else VNull.

(** The response handler of [setupNetworkInterception] before its
    [await], once [capturedSpec] was found empty: whether it goes on to
    read the body. *)
Definition readsBody (response : InterceptedResponse) : bool :=
  if negb (isSpecUrl (ir_url response)) then false
  else
    let contentType := default EmptyString (ir_contentType response) in
    negb (includes contentType "text/html").

(** The handler after its [await]: the capture it makes, if any. *)
Definition capture `{Host} (response : InterceptedResponse)
  : option (value * string) :=
  match ir_text response with
  | Throw _ => None
  | Return text =>
      if (isEmpty text || startsWith (trim text) "<")%bool then None
      else
        match JSON_parse text with
        | Some parsed =>
            match validateSpec parsed with
            | Some _ => Some (parsed, ir_url response)
            | None => None
            end
        | None => None
        end
  end.

(** The handler run on one response from start to end, nothing else
    happening in between; [captured] is [capturedSpec] with
    [capturedUrl]. *)
Definition responseHandler `{Host} (captured : option (value * string))
  (response : InterceptedResponse) : option (value * string) :=
  match captured with
  | Some _ => captured
  | None => if readsBody response then capture response else None
  end.

(** [networkInterceptor.getSpec()] when the second strategy calls it *)
Definition getSpec `{Host} (page : Page) : option (value * string) :=
  intercept readsBody capture (pg_responses page) (pg_timeline page).

(** The closure of [detectAuthRequired]. *)
Definition authIndicators (a : AuthSignals) : bool :=
  let pageText :=
    match as_bodyInnerText a with
    | Some t => toLowerCase t
    | None => EmptyString
    end in
  let hasLoginForm := (as_passwordInput a || as_loginForm a)%bool in
  let hasAuthText :=
    (includes pageText "log in" || includes pageText "sign in" ||
     includes pageText "authentication required" ||
     includes pageText "unauthorized")%bool in
  (hasLoginForm || hasAuthText)%bool.

Definition detectAuthRequired (page : Page) : bool :=
  if as_evaluateOk (pg_auth page) then authIndicators (pg_auth page)
  else false.

Record SpecResult := {
  s_spec : value;
  s_format : string;
  s_specInfo : SpecInfo;
  s_sourceUrl : string;
}.

Definition isSwaggerUIExtractorError (e : exn) : bool :=
  match e with
  | SwaggerUIExtractorError _ | SwaggerUIPageLoadError _
  | SwaggerUIExtractionTimeoutError _
  | SwaggerUIAuthenticationRequiredError _ => true
  | _ => false
  end.

Definition isBrowserError (e : exn) : bool :=
  match e with BrowserError => true | _ => false end.

Definition isTimeoutError (e : exn) : bool :=
  match e with TimeoutError => true | _ => false end.

(** The three strategies and the final validation, on a loaded page. *)
Definition extractFromLoadedPage `{Host} (page : Page) (normalizedUrl : string)
  : Trace.M (option SpecResult) :=
  _ ← Trace.emit EvWaitReady;
  (* Strategy 1: window.ui *)
  spec1 ← (if pg_swaggerUIReady page
           then _ ← Trace.emit (EvLayer "window.ui");
                Trace.ret (extractSpecFromWindowUI page)
           else Trace.ret VNull);
  (* Strategy 2: network interception *)
  p2 ← (if negb (truthy spec1)
        then _ ← Trace.emit (EvLayer "network");
             match getSpec page with
             | Some (spec, url) => Trace.ret (spec, url)
             | None => Trace.ret (spec1, normalizedUrl)
             end
        else Trace.ret (spec1, normalizedUrl));
  (* Strategy 3: inline scripts *)
  spec3 ← (if negb (truthy (fst p2))
           then _ ← Trace.emit (EvLayer "scripts");
                Trace.ret (extractSpecFromScripts page)
           else Trace.ret (fst p2));
  if truthy spec3 then
    match validateSpec spec3 with
    | Some specInfo =>
        Trace.ret (Some {| s_spec := spec3; s_format := "json";
                           s_specInfo := specInfo; s_sourceUrl := snd p2 |})
    | None => Trace.ret None
    end
  else Trace.ret None.

(** [extractFromSwaggerUI(url, { timeout })] *)
Definition extractFromSwaggerUI `{Host} (browser : Session Page) (url : string)
  : Trace.M (option SpecResult) :=
  let normalizedUrl := normalizeUrl url in
  Trace.finally
    (Trace.catch
       (_ ← Trace.emit EvGetPage;
        _ ← Trace.lift (getPage browser);
        _ ← Trace.emit EvIntercept;
        _ ← Trace.emit (EvGoto normalizedUrl);
        page ← Trace.catch (Trace.lift (goto browser normalizedUrl))
                 (fun error =>
                    if isTimeoutError error
                    then Trace.throw (SwaggerUIExtractionTimeoutError normalizedUrl)
                    else Trace.throw (SwaggerUIPageLoadError normalizedUrl));
        _ ← Trace.emit EvAuthCheck;
        if detectAuthRequired page
        then Trace.throw (SwaggerUIAuthenticationRequiredError normalizedUrl)
        else extractFromLoadedPage page normalizedUrl)
       (fun error =>
          if (isSwaggerUIExtractorError error || isBrowserError error)%bool
          then Trace.throw error
          else Trace.throw (SwaggerUIExtractorError "Extraction failed")))
    (closePageQuietly browser).

(** [hasSwaggerUI(url, options)] *)
Definition hasSwaggerUI `{Host} (browser : Session Page) (url : string)
  : Trace.M bool :=
  Trace.catch
    (result ← extractFromSwaggerUI browser url;
     Trace.ret (match result with Some _ => true | None => false end))
    (fun _ => Trace.ret false).

End SwaggerUI.

(* ===================================================================== *)
(** ** The Redoc extractor (src/extractors/redoc.js) *)
(* ===================================================================== *)

Module Redoc.
Import Js Net Browser.

Definition DEFAULT_TIMEOUT_MS : Z := 30000.

Definition isSpecUrl (url : string) : bool :=
  let lower := toLowerCase url in
  (includes lower "openapi.json" || includes lower "openapi.yaml" ||
   includes lower "openapi.yml" ||
   includes lower "swagger.json" || includes lower "swagger.yaml" ||
   includes lower "swagger.yml" ||
   includes lower "api-docs" || includes lower "/v2/api-docs" ||
   includes lower "/v3/api-docs" ||
   endsWith lower ".yaml" || endsWith lower ".yml" ||
   endsWith lower ".json")%bool.

Record SpecInfo := {
  i_type : string;
  i_version : string;
  i_title : value;
  i_apiVersion : value;
}.

Definition infoField (spec : value) (k : string) : value :=
  match prop spec "info" with
  | VUndefined | VNull => VUndefined
  | info => prop info k
  end.

Definition mkInfo (type version : string) (spec : value) : SpecInfo :=
  {| i_type := type;
     i_version := version;
     i_title := orElse (infoField spec "title") (VStr "Unknown API");
     i_apiVersion := orElse (infoField spec "version") (VStr "unknown") |}.

Definition openapi3 (spec : value) : option string :=
  match prop spec "openapi" with
  | VStr s => if (negb (isEmpty s) && startsWith s "3.")%bool
              then Some s else None
  | _ => None
  end.

Definition swagger2 (spec : value) : bool :=
  match prop spec "swagger" with
  | VStr s => String.eqb s "2.0"
  | _ => false
  end.

Definition validateSpec (spec : value) : option SpecInfo :=
  if (negb (truthy spec) || negb (typeofObject spec))%bool then None
  else
    match openapi3 spec with
    | Some version =>
        if negb (truthy (prop spec "info")) then None
        else Some (mkInfo "openapi" version spec)
    | None =>
        if swagger2 spec then
          if (negb (truthy (prop spec "info")) ||
              negb (truthy (prop spec "paths")))%bool then None
          else Some (mkInfo "swagger" "2.0" spec)
        else None
    end.

(** What the script and DOM inspection found. *)
Inductive ScriptResult : Type :=
| InlineSpec (spec : value)
| SpecUrl (specUrl : string).

Record Page := {
  pg_auth : AuthSignals;
  (** responses received during the load, in order of arrival *)
  pg_responses : list InterceptedResponse;
  (** arrivals and completed body reads, in order, up to the moment
      [getSpec] is called *)
  pg_timeline : list NetStep;
  (** [waitForRedoc] saw one of its markers before the timeout *)
  pg_redocReady : bool;
  (** [window.__redoc_state], [VUndefined] when it is not defined *)
  pg_redoc_state : value;
  (** [window.__REDOC_STORE__], [VUndefined] when it is not defined *)
  pg_REDOC_STORE : value;
  (** what the closure of [extractSpecFromScripts] returns *)
  pg_scriptResult : option ScriptResult;
}.

(** One of the two blocks of [extractSpecFromGlobalState]: [Return
    (Some v)] when the block returns [v], [Return None] when control
    falls out of it, a TypeError when [state] is null. *)
Definition specOfState (state : value) : outcome (option value) :=
  match state with
  | VUndefined => Return None
  | VNull => Throw TypeError
  | _ =>
      let spec := prop state "spec" in
      if (truthy spec && truthy (prop spec "data"))%bool
      then Return (Some (prop spec "data"))
      else if truthy spec then Return (Some spec)
      else
        let definition := prop state "definition" in
        if (truthy definition && truthy (prop definition "spec"))%bool
        then Return (Some (prop definition "spec"))
        else if (truthy (prop state "openapi") ||
                 truthy (prop state "swagger"))%bool
        then Return (Some state)
        else Return None
  end.

Definition extractSpecFromGlobalState (page : Page) : value :=
  if as_evaluateOk (pg_auth page) then
    match
      (r1 ← specOfState (pg_redoc_state page);
       match r1 with
       | Some v => Return v
       | None =>
           r2 ← specOfState (pg_REDOC_STORE page);
           Return (default VNull r2)
       end)
    with
    | Return v => v
    | Throw _ => VNull
    end
  else VNull.

Definition extractSpecFromScripts (page : Page) : option ScriptResult :=
  if as_evaluateOk (pg_auth page) then pg_scriptResult page else None.

(** [fetchSpecFromUrl(specUrl, baseUrl)]: the parsed document or null,
    and the request it made, if any. *)
Definition fetchSpecFromUrl `{Host} (net : Network) (specUrl baseUrl : string)
  : Trace.M value :=
  match URL_resolve specUrl baseUrl with
  | None => Trace.ret VNull
  | Some absoluteUrl =>
      _ ← Trace.emit (EvFetch absoluteUrl);
      match net [] absoluteUrl with
      | Responded response =>
          if negb (r_ok response) then Trace.ret VNull
          else
            match r_text response with
            | Throw _ => Trace.ret VNull
            | Return text =>
                match JSON_parse text with
                | Some v => Trace.ret v
                | None =>
                    match yaml_load text with
                    | Some v => Trace.ret v
                    | None => Trace.ret VNull
                    end
                end
            end
      | Aborted | Failed => Trace.ret VNull
      end
  end.

(** The response handler of [setupNetworkInterception] before its
    [await], once [capturedSpec] was found empty: whether it goes on to
    read the body. *)
Definition readsBody (response : InterceptedResponse) : bool :=
  if negb (isSpecUrl (ir_url response)) then false
  else
    let contentType := default EmptyString (ir_contentType response) in
    negb (includes contentType "text/html").

(** The handler after its [await]: the capture it makes, if any. *)
Definition capture `{Host} (response : InterceptedResponse)
  : option (value * string) :=
  match ir_text response with
  | Throw _ => None
  | Return text =>
      if (isEmpty text || startsWith (trim text) "<")%bool then None
      else
        let parsed :=
          match JSON_parse text with
          | Some v => v
          | None => default VNull (yaml_load text)
          end in
        if truthy parsed then
          match validateSpec parsed with
          | Some _ => Some (parsed, ir_url response)
          | None => None
          end
        else None
  end.

(** The handler run on one response from start to end, nothing else
    happening in between; [captured] is [capturedSpec] with
    [capturedUrl]. *)
Definition responseHandler `{Host} (captured : option (value * string))
  (response : InterceptedResponse) : option (value * string) :=
  match captured with
  | Some _ => captured
  | None => if readsBody response then capture response else None
  end.

(** [networkInterceptor.getSpec()] when the second strategy calls it *)
Definition getSpec `{Host} (page : Page) : option (value * string) :=
  intercept readsBody capture (pg_responses page) (pg_timeline page).

(** The closure of [detectAuthRequired]. *)
Definition authIndicators (a : AuthSignals) : bool :=
  let hasLoginForm := (as_passwordInput a || as_loginForm a)%bool in
  let title := toLowerCase (as_title a) in
  let h1Text :=
    match as_h1InnerText a with
    | Some t => toLowerCase t
    | None => EmptyString
    end in
  let hasAuthTitle :=
    (includes title "log in" || includes title "sign in" ||
     includes title "login" || includes title "authentication")%bool in
  let hasAuthHeader :=
    (includes h1Text "log in" || includes h1Text "sign in" ||
     includes h1Text "authentication required")%bool in
  (hasLoginForm || hasAuthTitle || hasAuthHeader)%bool.

Definition detectAuthRequired (page : Page) : bool :=
  if as_evaluateOk (pg_auth page) then authIndicators (pg_auth page)
  else false.

Record SpecResult := {
  s_spec : value;
  s_format : string;
  s_specInfo : SpecInfo;
  s_sourceUrl : string;
}.

Definition isRedocExtractorError (e : exn) : bool :=
  match e with
  | RedocExtractorError _ | RedocPageLoadError _
  | RedocExtractionTimeoutError _
  | RedocAuthenticationRequiredError _ => true
  | _ => false
  end.

Definition isBrowserError (e : exn) : bool :=
  match e with BrowserError => true | _ => false end.

Definition isTimeoutError (e : exn) : bool :=
  match e with TimeoutError => true | _ => false end.

(** Strategy 3 of [extractFromRedoc]: the spec and the source URL. *)
Definition scriptStrategy `{Host} (net : Network) (page : Page)
  (normalizedUrl sourceUrl : string) : Trace.M (value * string) :=
  match extractSpecFromScripts page with
  | None => Trace.ret (VNull, sourceUrl)
  | Some (InlineSpec spec) =>
      if truthy spec then Trace.ret (spec, sourceUrl)
      else Trace.ret (VNull, sourceUrl)
  | Some (SpecUrl specUrl) =>
      if isEmpty specUrl then Trace.ret (VNull, sourceUrl)
      else
        spec ← fetchSpecFromUrl net specUrl normalizedUrl;
        if truthy spec
        then Trace.ret (spec, default sourceUrl (URL_resolve specUrl normalizedUrl))
        else Trace.ret (spec, sourceUrl)
  end.

Definition extractFromLoadedPage `{Host} (net : Network) (page : Page)
  (normalizedUrl : string) : Trace.M (option SpecResult) :=
  _ ← Trace.emit EvWaitReady;
  (* Strategy 1: global state *)
  spec1 ← (if pg_redocReady page
           then _ ← Trace.emit (EvLayer "global state");
                Trace.ret (extractSpecFromGlobalState page)
           else Trace.ret VNull);
  (* Strategy 2: network interception *)
  p2 ← (if negb (truthy spec1)
        then _ ← Trace.emit (EvLayer "network");
             match getSpec page with
             | Some (spec, url) => Trace.ret (spec, url)
             | None => Trace.ret (spec1, normalizedUrl)
             end
        else Trace.ret (spec1, normalizedUrl));
  (* Strategy 3: scripts and DOM *)
  p3 ← (if negb (truthy (fst p2))
        then _ ← Trace.emit (EvLayer "scripts");
             scriptStrategy net page normalizedUrl (snd p2)
        else Trace.ret p2);
  if truthy (fst p3) then
    match validateSpec (fst p3) with
    | Some specInfo =>
        Trace.ret (Some {| s_spec := fst p3; s_format := "json";
                           s_specInfo := specInfo; s_sourceUrl := snd p3 |})
    | None => Trace.ret None
    end
  else Trace.ret None.

(** [extractFromRedoc(url, { timeout })] *)
Definition extractFromRedoc `{Host} (net : Network) (browser : Session Page)
  (url : string) : Trace.M (option SpecResult) :=
  let normalizedUrl := normalizeUrl url in
  Trace.finally
    (Trace.catch
       (_ ← Trace.emit EvGetPage;
        _ ← Trace.lift (getPage browser);
        _ ← Trace.emit EvIntercept;
        _ ← Trace.emit (EvGoto normalizedUrl);
        page ← Trace.catch (Trace.lift (goto browser normalizedUrl))
                 (fun error =>
                    if isTimeoutError error
                    then Trace.throw (RedocExtractionTimeoutError normalizedUrl)
                    else Trace.throw (RedocPageLoadError normalizedUrl));
        _ ← Trace.emit EvAuthCheck;
        if detectAuthRequired page
        then Trace.throw (RedocAuthenticationRequiredError normalizedUrl)
        else extractFromLoadedPage net page normalizedUrl)
       (fun error =>
          if (isRedocExtractorError error || isBrowserError error)%bool
          then Trace.throw error
          else Trace.throw (RedocExtractorError "Extraction failed")))
    (closePageQuietly browser).

(** [hasRedoc(url, options)] *)
Definition hasRedoc `{Host} (net : Network) (browser : Session Page)
  (url : string) : Trace.M bool :=
  Trace.catch
    (result ← extractFromRedoc net browser url;
     Trace.ret (match result with Some _ => true | None => false end))
    (fun _ => Trace.ret false).

End Redoc.

(* ===================================================================== *)
(** ** The regular expressions of the scrapers *)
(* ===================================================================== *)

Module Regex.
Import Js.

(** Prefix test against an upper-case ASCII literal under the [i] flag. *)
Fixpoint startsWithCI (s p : string) : bool :=
  match p, s with
  | EmptyString, _ => true
  | String _ _, EmptyString => false
  | String a p', String b s' =>
      (Ascii.eqb a (upperChar b) && startsWithCI s' p')%bool
  end.

Fixpoint drop (n : nat) (s : string) : string :=
  match n, s with
  | O, _ => s
  | S _, EmptyString => EmptyString
  | S n', String _ r => drop n' r
  end.

Definition take (n : nat) (s : string) : string := String.substring 0 n s.

(** The longest prefix of characters satisfying [f], and what follows. *)
Fixpoint span (f : ascii -> bool) (s : string) : string * string :=
  match s with
  | EmptyString => (EmptyString, EmptyString)
  | String c r =>
      if f c then let '(a, b) := span f r in (String c a, b)
      else (EmptyString, s)
  end.

Fixpoint any (f : ascii -> bool) (s : string) : bool :=
  match s with
  | EmptyString => false
  | String c r => (f c || any f r)%bool
  end.

(** [(GET|POST|...)] at the start of [s]: the text matched and the rest *)
Fixpoint firstMethod (methods : list string) (s : string)
  : option (string * string) :=
  match methods with
  | [] => None
  | m :: ms =>
      if startsWithCI s m
      then Some (take (String.length m) s, drop (String.length m) s)
      else firstMethod ms s
  end.

(** [.] matches everything but a line terminator. *)
Definition notLineTerminator (c : ascii) : bool :=
  negb (Ascii.eqb c "010" || Ascii.eqb c "013")%bool.

Definition notWhiteSpace (c : ascii) : bool := negb (isWhiteSpace c).

(** [(M1|M2|...)\s+(\/C+)] at the start of [s], for a character class
    [C]: the method text, the path and the length of the match. The
    whitespace run is taken whole, since a slash has to follow it. *)
Definition matchAt (methods : list string) (cls : ascii -> bool) (s : string)
  : option (string * string * nat) :=
  match firstMethod methods s with
  | None => None
  | Some (m, r1) =>
      let '(ws, r2) := span isWhiteSpace r1 in
      if isEmpty ws then None
      else
        match r2 with
        | String "/" r3 =>
            let '(p, _) := span cls r3 in
            if isEmpty p then None
            else Some (m, String "/" p,
                       (String.length m + String.length ws + 1
                        + String.length p)%nat)
        | _ => None
        end
  end.

(** [s.matchAll(/(M1|M2|...)\s+(\/C+)/gi)]: the pairs of groups, left to
    right; [skip] characters are still covered by the previous match. *)
Fixpoint matchAllFrom (methods : list string) (cls : ascii -> bool)
  (s : string) (skip : nat) : list (string * string) :=
  match s with
  | EmptyString => []
  | String _ r =>
      match skip with
      | S k => matchAllFrom methods cls r k
      | O =>
          match matchAt methods cls s with
          | Some (m, p, len) => (m, p) :: matchAllFrom methods cls r (len - 1)
          | None => matchAllFrom methods cls r 0
          end
      end
  end.

Definition matchAll (methods : list string) (cls : ascii -> bool) (s : string)
  : list (string * string) := matchAllFrom methods cls s 0.

(** [s.match(/^(M1|M2|...)\s+(\/.+)/i)] *)
Definition matchMethodSlashPath (methods : list string) (s : string)
  : option (string * string) :=
  match matchAt methods notLineTerminator s with
  | Some (m, p, _) => Some (m, p)
  | None => None
  end.

(** [s.match(/^(M1|M2|...)\s+(.+)/i)]. When nothing but whitespace
    follows the method on its line, [\s+] gives characters back and
    group 2 is a run of whitespace. *)
Definition matchMethodAnyPath (methods : list string) (s : string)
  : option (string * string) :=
  match firstMethod methods s with
  | None => None
  | Some (m, r1) =>
      let '(ws, r2) := span isWhiteSpace r1 in
      match ws with
      | EmptyString => None
      | String _ ws' =>
          let '(dots, _) := span notLineTerminator r2 in
          if negb (isEmpty dots) then Some (m, dots)
          else
            (* the last non-terminator run inside the whitespace *)
            let fix lastRun (w : string) (acc : option string) :=
              match w with
              | EmptyString => acc
              | String c r =>
                  lastRun r (if notLineTerminator c
                             then Some (fst (span notLineTerminator w))
                             else acc)
              end in
            match lastRun ws' None with
            | Some run => Some (m, run)
            | None => None
            end
      end
  end.

(** [\w] *)
Definition wordChar (c : ascii) : bool :=
  let n := nat_of_ascii c in
  ((Nat.leb 97 n && Nat.leb n 122) || (Nat.leb 65 n && Nat.leb n 90) ||
   (Nat.leb 48 n && Nat.leb n 57) || Nat.eqb n 95)%bool.

(** [[a-z]] under the [i] flag *)
Definition letter (c : ascii) : bool :=
  let n := nat_of_ascii c in
  ((Nat.leb 97 n && Nat.leb n 122) || (Nat.leb 65 n && Nat.leb n 90))%bool.

Definition startsWithWordChar (s : string) : bool :=
  match s with
  | String c _ => wordChar c
  | EmptyString => false
  end.

(** [\b(M1|M2|...)\b] at the start of [s], the character before [s]
    being no word character *)
Definition wordAt (methods : list string) (s : string) : bool :=
  existsb (fun m => (startsWithCI s m &&
                     negb (startsWithWordChar (drop (String.length m) s)))%bool)
          methods.

(** [/\b(M1|M2|...)\b/i.test(s)]; [boundary] tells whether a word may
    start here. *)
Fixpoint testWordFrom (methods : list string) (s : string) (boundary : bool)
  : bool :=
  match s with
  | EmptyString => false
  | String c r =>
      ((boundary && wordAt methods s) ||
       testWordFrom methods r (negb (wordChar c)))%bool
  end.

Definition testWord (methods : list string) (s : string) : bool :=
  testWordFrom methods s true.

(** A pattern that can start at any position. *)
Fixpoint testAnywhere (at_ : string -> bool) (s : string) : bool :=
  (at_ s ||
   match s with
   | EmptyString => false
   | String _ r => testAnywhere at_ r
   end)%bool.

(** [\/[a-z]+\/\{[^}]+\}] at the start of [s], under the [i] flag *)
Definition templatedPathAt (s : string) : bool :=
  match s with
  | String "/" r =>
      let '(letters, r1) := span letter r in
      if isEmpty letters then false
      else
        match r1 with
        | String "/" (String "{" r2) =>
            let '(name, r3) := span (fun c => negb (Ascii.eqb c "}")) r2 in
            (negb (isEmpty name) && startsWith r3 "}")%bool
        | _ => false
        end
  | _ => false
  end.

(** [\/api\/[a-z]+] at the start of [s], under the [i] flag *)
Definition apiPathAt (s : string) : bool :=
  (startsWithCI s "/API/" &&
   match drop 5 s with
   | String c _ => letter c
   | EmptyString => false
   end)%bool.

(** [s.match(/^(M1|M2|...)$/i)] *)
Definition matchMethodOnly (methods : list string) (s : string)
  : option string :=
  match firstMethod methods s with
  | Some (m, EmptyString) => Some m
  | _ => None
  end.

End Regex.

(* ===================================================================== *)
(** ** The DOM scraper (src/extractors/docs-scraper.js) *)
(* ===================================================================== *)

Module DocsScraper.
Import Js Browser.

Definition SUPPORTED_FRAMEWORKS : list string :=
  ["swagger-ui"; "redoc"; "scalar"; "generic"].
Definition PAGE_LOAD_TIMEOUT : Z := 30000.

Record Endpoint := {
  method : string;
  path : string;
  description : value;
  tags : value;
  operationId : value;
}.

(** An endpoint scraped from the DOM: no tags, no operation id. *)
Definition domEndpoint (m p d : string) : Endpoint :=
  {| method := m; path := p; description := VStr d;
     tags := VArr []; operationId := VNull |}.

(** One element matched by the selector of operation blocks, with the
    text content of the first descendant matching the method, path and
    description selectors ([None] when there is none). *)
Record OpBlock := {
  ob_method : option string;
  ob_path : option string;
  ob_desc : option string;
}.

Record ApiInfo := {
  ai_title : string;
  ai_version : value;
  ai_description : value;
}.

Record Page := {
  pg_auth : AuthSignals;
  (* detectFramework *)
  pg_swaggerMarker : bool;
  pg_redocMarker : bool;
  pg_scalarMarker : bool;
  (** [document.body.innerHTML]; [None] when there is no body *)
  pg_bodyInnerHTML : option string;
  (* Swagger UI *)
  (** [window.ui.specSelectors.specJson().toJS()], [None] when
      [window.ui] or its selectors are missing or the call throws *)
  pg_uiSpec : option value;
  pg_opblocks : list OpBlock;
  (* Redoc *)
  pg_redoc_state : value;
  pg_REDOC_STORE : value;
  pg_redocOperations : list OpBlock;
  (** text content of the menu links *)
  pg_redocMenuItems : list string;
  (* Scalar *)
  (** the inline scripts holding a JSON document with a version field
      and paths, parsed, in document order *)
  pg_scriptSpecs : list value;
  (** the spec URL found in the data attributes *)
  pg_specUrl : option string;
  (** [fetch(url)] then [resp.json()] inside the page *)
  pg_fetchJson : string -> outcome value;
  pg_scalarOperations : list OpBlock;
  pg_navItems : list string;
  (** [document.body.innerText]; [None] when there is no body *)
  pg_bodyInnerText : option string;
  (* generic *)
  pg_codeBlocks : list string;
  (** per table, per row, the trimmed text of each cell *)
  pg_tables : list (list (list string));
  (* extractApiInfo: the result of its closure, per framework *)
  pg_apiInfo : string -> outcome ApiInfo;
}.

Definition BODY_METHODS : list string :=
  ["GET"; "POST"; "PUT"; "DELETE"; "PATCH"].

(** *** Framework detection *)

Definition detectFramework (page : Page) : outcome (option string) :=
  if negb (as_evaluateOk (pg_auth page)) then Throw (OtherError "evaluate")
  else if pg_swaggerMarker page then Return (Some "swagger-ui")
  else if pg_redocMarker page then Return (Some "redoc")
  else if pg_scalarMarker page then Return (Some "scalar")
  else
    match pg_bodyInnerHTML page with
    | None => Throw TypeError
    | Some html =>
        let hasHttpMethods := Regex.testWord BODY_METHODS html in
        let hasApiPaths :=
          (Regex.testAnywhere Regex.templatedPathAt html ||
           Regex.testAnywhere Regex.apiPathAt html)%bool in
        if (hasHttpMethods && hasApiPaths)%bool then Return (Some "generic")
        else Return None
    end.

(** *** Endpoints of a spec held by the page *)

Fixpoint indexed (i : nat) (l : list value) : list (string * value) :=
  match l with
  | [] => []
  | v :: r => (pretty i, v) :: indexed (S i) r
  end.

Fixpoint chars (i : nat) (s : string) : list (string * value) :=
  match s with
  | EmptyString => []
  | String c r => (pretty i, VStr (String c EmptyString)) :: chars (S i) r
  end.

(** [Object.entries] *)
Definition entries (v : value) : outcome (list (string * value)) :=
  match v with
  | VUndefined | VNull => Throw TypeError
  | VObj fs => Return fs
  | VArr items => Return (indexed 0 items)
  | VStr s => Return (chars 0 s)
  | VBool _ | VNum _ | VDate _ => Return []
  end.

Definition HTTP_METHODS_LOWER : list string :=
  ["get"; "post"; "put"; "delete"; "patch"; "options"; "head"].

Definition inList (s : string) (l : list string) : bool :=
  existsb (String.eqb s) l.

(** The endpoint of one [method, details] entry of a path item. *)
Definition endpointOfOperation (p m : string) (details : value)
  : outcome Endpoint :=
  match details with
  | VUndefined | VNull => Throw TypeError
  | _ =>
      Return {| method := toUpperCase m;
                path := p;
                description := orElse (orElse (prop details "summary")
                                              (prop details "description"))
                                      (VStr EmptyString);
                tags := orElse (prop details "tags") (VArr []);
                operationId := orElse (prop details "operationId") VNull |}
  end.

Fixpoint endpointsOfMethods (p : string) (methods : list (string * value))
  : outcome (list Endpoint) :=
  match methods with
  | [] => Return []
  | (m, details) :: rest =>
      if inList (toLowerCase m) HTTP_METHODS_LOWER then
        e ← endpointOfOperation p m details;
        es ← endpointsOfMethods p rest;
        Return (e :: es)
      else endpointsOfMethods p rest
  end.

Fixpoint endpointsOfPathItems (items : list (string * value))
  : outcome (list Endpoint) :=
  match items with
  | [] => Return []
  | (p, methods) :: rest =>
      ms ← entries methods;
      es ← endpointsOfMethods p ms;
      more ← endpointsOfPathItems rest;
      Return (es ++ more)%list
  end.

(** The two nested loops over [Object.entries(spec.paths)]. *)
Definition endpointsOfPaths (paths : value) : outcome (list Endpoint) :=
  items ← entries paths;
  endpointsOfPathItems items.

(** *** Swagger UI *)

Definition swaggerSpecEndpoints (page : Page) : option (list Endpoint) :=
  match pg_uiSpec page with
  | None => None
  | Some spec =>
      if (truthy spec && truthy (prop spec "paths"))%bool then
        match endpointsOfPaths (prop spec "paths") with
        | Return es => Some es
        | Throw _ => None
        end
      else None
  end.

Definition textOr (t : option string) (fallback : string) : string :=
  match t with
  | Some s => if isEmpty s then fallback else s
  | None => fallback
  end.

Definition isSome {A} (o : option A) : bool :=
  match o with Some _ => true | None => false end.

Fixpoint swaggerDomEndpoints (operations : list OpBlock) : list Endpoint :=
  match operations with
  | [] => []
  | op :: rest =>
      if (isSome (ob_method op) && isSome (ob_path op))%bool then
        domEndpoint
          (textOr (option_map (fun t => toUpperCase (trim t)) (ob_method op))
                  "UNKNOWN")
          (textOr (option_map trim (ob_path op)) EmptyString)
          (textOr (option_map trim (ob_desc op)) EmptyString)
        :: swaggerDomEndpoints rest
      else swaggerDomEndpoints rest
  end.

Definition extractSwaggerUiEndpoints (page : Page)
  : Trace.M (list Endpoint) :=
  _ ← Trace.emit (EvLayer "swagger-ui state");
  match swaggerSpecEndpoints page with
  | Some (e :: es) => Trace.ret (e :: es)
  | _ =>
      _ ← Trace.emit (EvLayer "swagger-ui DOM");
      Trace.ret (swaggerDomEndpoints (pg_opblocks page))
  end.

(** *** Redoc *)

Definition redocStateEndpoints (page : Page)
  : outcome (option (list Endpoint)) :=
  let state := orElse (pg_redoc_state page) (pg_REDOC_STORE page) in
  let spec := prop state "spec" in
  let data := prop spec "data" in
  if (truthy state && truthy spec && truthy data &&
      truthy (prop data "paths"))%bool then
    es ← endpointsOfPaths (prop data "paths");
    Return (Some es)
  else Return None.

Definition REDOC_MENU_METHODS : list string :=
  ["GET"; "POST"; "PUT"; "DELETE"; "PATCH"; "OPTIONS"; "HEAD"].

Fixpoint redocOperationEndpoints (operations : list OpBlock)
  : list Endpoint :=
  match operations with
  | [] => []
  | op :: rest =>
      if (isSome (ob_method op) || isSome (ob_path op))%bool then
        let method :=
          textOr (option_map (fun t => toUpperCase (trim t)) (ob_method op))
                 "UNKNOWN" in
        let path := textOr (option_map trim (ob_path op)) EmptyString in
        if (negb (isEmpty path) && startsWith path "/")%bool then
          domEndpoint method path
            (textOr (option_map trim (ob_desc op)) EmptyString)
          :: redocOperationEndpoints rest
        else redocOperationEndpoints rest
      else redocOperationEndpoints rest
  end.

Fixpoint redocMenuEndpoints (items : list string) : list Endpoint :=
  match items with
  | [] => []
  | text :: rest =>
      match Regex.matchMethodAnyPath REDOC_MENU_METHODS text with
      | Some (m, p) =>
          domEndpoint (toUpperCase m) (trim p) EmptyString
          :: redocMenuEndpoints rest
      | None => redocMenuEndpoints rest
      end
  end.

(** The closure of the DOM fallback of [extractRedocEndpoints]. *)
Definition redocDomEndpoints (page : Page) : list Endpoint :=
  let endpoints := redocOperationEndpoints (pg_redocOperations page) in
  match endpoints with
  | [] => redocMenuEndpoints (pg_redocMenuItems page)
  | _ => endpoints
  end.

Definition extractRedocEndpoints (page : Page) : Trace.M (list Endpoint) :=
  _ ← Trace.emit (EvLayer "redoc state");
  stateEndpoints ← Trace.lift (redocStateEndpoints page);
  match stateEndpoints with
  | Some (e :: es) => Trace.ret (e :: es)
  | _ =>
      _ ← Trace.emit (EvLayer "redoc DOM");
      Trace.ret (redocDomEndpoints page)
  end.

(** *** Scalar *)

(** The first inline spec with paths whose endpoints can be listed. *)
Fixpoint scalarScriptEndpoints (specs : list value)
  : option (list Endpoint) :=
  match specs with
  | [] => None
  | spec :: rest =>
      if truthy (prop spec "paths") then
        match endpointsOfPaths (prop spec "paths") with
        | Return es => Some es
        | Throw _ => scalarScriptEndpoints rest
        end
      else scalarScriptEndpoints rest
  end.

Definition SCALAR_METHODS : list string :=
  ["GET"; "POST"; "PUT"; "DELETE"; "PATCH"; "OPTIONS"; "HEAD"].

(** [`${method}:${path}`] *)
Definition key (m p : string) : string := m ++ ":" ++ p.

(** The loop over the operation blocks; [seen] and [endpoints] are the
    Set and the array of the closure, the array in reverse. *)
Fixpoint scalarOperationLoop (operations : list OpBlock)
  (seen : gset string) (endpoints : list Endpoint)
  : gset string * list Endpoint :=
  match operations with
  | [] => (seen, endpoints)
  | op :: rest =>
      let method := option_map (fun t => toUpperCase (trim t)) (ob_method op) in
      let path := option_map trim (ob_path op) in
      match method, path with
      | Some m, Some p =>
          if (negb (isEmpty m) && negb (isEmpty p) &&
              inList m SCALAR_METHODS)%bool then
            let k := key m p in
            if decide (k ∈ seen) then scalarOperationLoop rest seen endpoints
            else
              scalarOperationLoop rest ({[k]} ∪ seen)
                (domEndpoint m p
                   (textOr (option_map trim (ob_desc op)) EmptyString)
                 :: endpoints)
          else scalarOperationLoop rest seen endpoints
      | _, _ => scalarOperationLoop rest seen endpoints
      end
  end.

(** A loop that adds, for each (key, method, path), an endpoint with an
    empty description unless the key has been seen. *)
Fixpoint addUnseen (candidates : list (string * string * string))
  (seen : gset string) (endpoints : list Endpoint)
  : gset string * list Endpoint :=
  match candidates with
  | [] => (seen, endpoints)
  | (k, m, p) :: rest =>
      if decide (k ∈ seen) then addUnseen rest seen endpoints
      else addUnseen rest ({[k]} ∪ seen)
             (domEndpoint m p EmptyString :: endpoints)
  end.

Fixpoint scalarNavCandidates (items : list string)
  : list (string * string * string) :=
  match items with
  | [] => []
  | text :: rest =>
      match Regex.matchMethodSlashPath BODY_METHODS text with
      | Some (m, p) =>
          (key (toUpperCase m) (trim p), toUpperCase m, trim p)
          :: scalarNavCandidates rest
      | None => scalarNavCandidates rest
      end
  end.

Definition bodyCandidates (methods : list string) (cls : ascii -> bool)
  (bodyText : string) : list (string * string * string) :=
  map (fun '(m, p) => (key (toUpperCase m) p, toUpperCase m, p))
      (Regex.matchAll methods cls bodyText).

(** The closure of the DOM fallback of [extractScalarEndpoints]. *)
Definition scalarDomEndpoints (page : Page) : outcome (list Endpoint) :=
  let '(seen1, eps1) :=
    scalarOperationLoop (pg_scalarOperations page) ∅ [] in
  let '(seen2, eps2) :=
    match eps1 with
    | [] => addUnseen (scalarNavCandidates (pg_navItems page)) seen1 eps1
    | _ => (seen1, eps1)
    end in
  match eps2 with
  | [] =>
      match pg_bodyInnerText page with
      | None => Throw TypeError
      | Some bodyText =>
          Return (rev (snd (addUnseen
                    (bodyCandidates BODY_METHODS Regex.notWhiteSpace bodyText)
                    seen2 eps2)))
      end
  | _ => Return (rev eps2)
  end.

Definition extractScalarEndpoints (page : Page) : Trace.M (list Endpoint) :=
  _ ← Trace.emit (EvLayer "scalar scripts");
  match scalarScriptEndpoints (pg_scriptSpecs page) with
  | Some (e :: es) => Trace.ret (e :: es)
  | found =>
      fetched ←
        match found, pg_specUrl page with
        | None, Some specUrl =>
            if isEmpty specUrl then Trace.ret None
            else
              _ ← Trace.emit (EvFetch specUrl);
              match pg_fetchJson page specUrl with
              | Return specResponse =>
                  if (truthy specResponse &&
                      truthy (prop specResponse "paths"))%bool then
                    match endpointsOfPaths (prop specResponse "paths") with
                    | Return (e :: es) => Trace.ret (Some (e :: es))
                    | _ => Trace.ret None
                    end
                  else Trace.ret None
              | Throw _ => Trace.ret None
              end
        | _, _ => Trace.ret None
        end;
      match fetched with
      | Some es => Trace.ret es
      | None =>
          _ ← Trace.emit (EvLayer "scalar DOM");
          Trace.lift (scalarDomEndpoints page)
      end
  end.

(** *** Generic pages *)

Definition GENERIC_METHODS : list string :=
  ["GET"; "POST"; "PUT"; "DELETE"; "PATCH"; "OPTIONS"; "HEAD"].

(** Neither whitespace nor a single or double quote. *)
Definition codePathChar (c : ascii) : bool :=
  (negb (isWhiteSpace c) && negb (Ascii.eqb c "'") &&
   negb (Ascii.eqb c "034"))%bool.

(** [[a-zA-Z0-9_\-/{}\[\]]] *)
Definition bodyPathChar (c : ascii) : bool :=
  let n := nat_of_ascii c in
  ((Nat.leb 97 n && Nat.leb n 122) || (Nat.leb 65 n && Nat.leb n 90) ||
   (Nat.leb 48 n && Nat.leb n 57) ||
   Ascii.eqb c "_" || Ascii.eqb c "-" || Ascii.eqb c "/" ||
   Ascii.eqb c "{" || Ascii.eqb c "}" || Ascii.eqb c "[" ||
   Ascii.eqb c "]")%bool.

Fixpoint codeBlockLoop (blocks : list string) (seen : gset string)
  (endpoints : list Endpoint) : gset string * list Endpoint :=
  match blocks with
  | [] => (seen, endpoints)
  | text :: rest =>
      let '(seen', endpoints') :=
        addUnseen (bodyCandidates GENERIC_METHODS codePathChar text)
                  seen endpoints in
      codeBlockLoop rest seen' endpoints'
  end.

(** The inner loop over [j]: the first later cell starting with a slash,
    and the cell after it. *)
Fixpoint firstPathCell (cells : list string) : option (string * string) :=
  match cells with
  | [] => None
  | c :: rest =>
      if startsWith c "/"
      then Some (c, match rest with d :: _ => d | [] => EmptyString end)
      else firstPathCell rest
  end.

(** The loop over [i < Math.min(cellTexts.length, 3)]; [cells] is the
    row from index [i] on. *)
Fixpoint rowLoop (budget : nat) (cells : list string) (seen : gset string)
  (endpoints : list Endpoint) : gset string * list Endpoint :=
  match budget, cells with
  | S b, c :: rest =>
      match Regex.matchMethodOnly BODY_METHODS c with
      | Some m =>
          match firstPathCell rest with
          | Some (p, d) =>
              let k := key (toUpperCase m) p in
              if decide (k ∈ seen) then rowLoop b rest seen endpoints
              else rowLoop b rest ({[k]} ∪ seen)
                     (domEndpoint (toUpperCase m) p d :: endpoints)
          | None => rowLoop b rest seen endpoints
          end
      | None => rowLoop b rest seen endpoints
      end
  | _, _ => (seen, endpoints)
  end.

Fixpoint rowsLoop (rows : list (list string)) (seen : gset string)
  (endpoints : list Endpoint) : gset string * list Endpoint :=
  match rows with
  | [] => (seen, endpoints)
  | row :: rest =>
      let '(seen', endpoints') := rowLoop 3 row seen endpoints in
      rowsLoop rest seen' endpoints'
  end.

Definition extractGenericEndpoints (page : Page) : Trace.M (list Endpoint) :=
  _ ← Trace.emit (EvLayer "generic DOM");
  let '(seen1, eps1) := codeBlockLoop (pg_codeBlocks page) ∅ [] in
  let '(seen2, eps2) := rowsLoop (concat (pg_tables page)) seen1 eps1 in
  match eps2 with
  | [] =>
      match pg_bodyInnerText page with
      | None => Trace.throw TypeError
      | Some bodyText =>
          Trace.ret (rev (snd (addUnseen
                      (bodyCandidates BODY_METHODS bodyPathChar bodyText)
                      seen2 eps2)))
      end
  | _ => Trace.ret (rev eps2)
  end.

(** *** The entry point *)

Definition extractEndpoints (page : Page) (framework url : string)
  : Trace.M (list Endpoint) :=
  Trace.catch
    (if negb (as_evaluateOk (pg_auth page))
     then Trace.throw (OtherError "evaluate")
     else if String.eqb framework "swagger-ui"
     then extractSwaggerUiEndpoints page
     else if String.eqb framework "redoc" then extractRedocEndpoints page
     else if String.eqb framework "scalar" then extractScalarEndpoints page
     else if String.eqb framework "generic"
     then extractGenericEndpoints page
     else Trace.throw (OtherError "Unknown framework"))
    (fun _ => Trace.throw (ExtractionError url framework)).

Definition extractApiInfo (page : Page) (framework : string)
  : Trace.M ApiInfo :=
  if as_evaluateOk (pg_auth page) then Trace.lift (pg_apiInfo page framework)
  else Trace.throw (OtherError "evaluate").

Record ScrapeResult := {
  sr_url : string;
  sr_framework : string;
  sr_apiInfo : ApiInfo;
  sr_endpoints : list Endpoint;
  sr_extractedAt : Z;
}.

Definition isScraperError (e : exn) : bool :=
  match e with
  | FrameworkNotDetectedError _ | ExtractionError _ _ => true
  | _ => false
  end.

Definition isTimeoutError (e : exn) : bool :=
  match e with TimeoutError => true | _ => false end.

(** [scrapeEndpoints(url, { timeout, framework })] at clock value [now];
    [forcedFramework] is the [framework] option. *)
Definition scrapeEndpoints (browser : Session Page) (url : string)
  (forcedFramework : option string) (now : Z) : Trace.M ScrapeResult :=
  Trace.finally
    (Trace.catch
       (_ ← Trace.emit EvGetPage;
        _ ← Trace.lift (getPage browser);
        _ ← Trace.emit (EvGoto url);
        page ← Trace.lift (goto browser url);
        detected ←
          match forcedFramework with
          | Some f =>
              if isEmpty f
              then _ ← Trace.emit (EvLayer "detectFramework");
                   Trace.lift (detectFramework page)
              else Trace.ret (Some f)
          | None =>
              _ ← Trace.emit (EvLayer "detectFramework");
              Trace.lift (detectFramework page)
          end;
        match detected with
        | None => Trace.throw (FrameworkNotDetectedError url)
        | Some framework =>
            endpoints ← extractEndpoints page framework url;
            apiInfo ← extractApiInfo page framework;
            Trace.ret {| sr_url := url; sr_framework := framework;
                         sr_apiInfo := apiInfo; sr_endpoints := endpoints;
                         sr_extractedAt := now |}
        end)
       (fun error =>
          if isScraperError error then Trace.throw error
          else Trace.throw (ScraperPageLoadError url)))
    (closePage browser).

(** [detectFrameworkFromUrl(url)]: a [try] with a [finally] and no
    [catch]. *)
Definition detectFrameworkFromUrl (browser : Session Page) (url : string)
  : Trace.M (option string) :=
  Trace.finally
    (_ ← Trace.emit EvGetPage;
     _ ← Trace.lift (getPage browser);
     _ ← Trace.emit (EvGoto url);
     page ← Trace.lift (goto browser url);
     _ ← Trace.emit (EvLayer "detectFramework");
     Trace.lift (detectFramework page))
    (closePage browser).

End DocsScraper.

(* ===================================================================== *)
(** ** Provider search (src/extractors/apitracker.js) *)
(* ===================================================================== *)

Module ApiTracker.
Import Js Browser.

Definition APITRACKER_BASE_URL : string := "https://apitracker.io".

(** An anchor of the page with an [href] attribute. *)
Record Link := {
  l_href : string;
  (** [link.textContent] *)
  l_text : string;
  (** [link.closest('div, li, article')?.textContent] *)
  l_parentText : option string;
}.

Record Page := {
  (** the response of [page.goto]: [None] for null, else [response.ok()] *)
  pg_response : option bool;
  (** [page.url()] once the navigation is over *)
  pg_url : string;
  (** [page.evaluate] works on this page *)
  pg_evaluateOk : bool;
  (** [page.waitForSelector('body')] succeeds *)
  pg_hasBody : bool;
  (** the [a[href]] elements in document order *)
  pg_links : list Link;
}.

Record SearchResult := {
  sr_url : string;
  sr_slug : string;
  sr_text : string;
  sr_score : Z;
}.

Record ProviderResult := {
  pr_provider : string;
  pr_docsUrl : string;
  pr_apiTrackerUrl : string;
  pr_source : string;
}.

Definition notSlugEnd (c : ascii) : bool :=
  negb (Ascii.eqb c "/" || Ascii.eqb c "?" || Ascii.eqb c "#")%bool.

(** Group 1 of [s.match(/\/a\/([^/?#]+)/)] *)
Fixpoint slugOf (s : string) : option string :=
  match s with
  | EmptyString => None
  | String _ r =>
      if startsWith s "/a/" then
        let slug := fst (Regex.span notSlugEnd (Regex.drop 3 s)) in
        if isEmpty slug then slugOf r else Some slug
      else slugOf r
  end.

Definition score (slug text parentText searchQuery : string) : Z :=
  if String.eqb slug searchQuery then 100
  else if startsWith slug searchQuery then 80
  else if includes slug searchQuery then 60
  else if includes text searchQuery then 40
  else if includes parentText searchQuery then 20
  else 0.

(** The loop over the links of the search page. *)
Fixpoint collectResults (links : list Link) (searchQuery : string)
  : list SearchResult :=
  match links with
  | [] => []
  | link :: rest =>
      let href := l_href link in
      let text := toLowerCase (trim (l_text link)) in
      let parentText :=
        match l_parentText link with
        | Some t => toLowerCase (trim t)
        | None => EmptyString
        end in
      match slugOf href with
      | Some m =>
          let slug := toLowerCase m in
          let sc := score slug text parentText searchQuery in
          if 0 <? sc then
            {| sr_url := if startsWith href "http" then href
                         else "https://apitracker.io" ++ href;
               sr_slug := slug; sr_text := text; sr_score := sc |}
            :: collectResults rest searchQuery
          else collectResults rest searchQuery
      | None => collectResults rest searchQuery
      end
  end.

(** [results.sort((a, b) => b.score - a.score)]: a stable sort, highest
    score first. *)
Fixpoint insertByScore (x : SearchResult) (sorted : list SearchResult)
  : list SearchResult :=
  match sorted with
  | [] => [x]
  | y :: rest =>
      if sr_score y <? sr_score x then x :: sorted
      else y :: insertByScore x rest
  end.

Definition sortByScore (results : list SearchResult) : list SearchResult :=
  fold_left (fun sorted x => insertByScore x sorted) results [].

Definition findBestSearchResult (page : Page) (query : string)
  : outcome (option SearchResult) :=
  if negb (pg_evaluateOk page) then Throw (OtherError "evaluate")
  else
    let links := filter (fun l => includes (l_href l) "/a/" = true)
                        (pg_links page) in
    Return (head (sortByScore (collectResults links query))).

Definition skipped (href : string) : bool :=
  (isEmpty href || includes href "apitracker.io" || startsWith href "#")%bool.

Definition absolute (href : string) : string :=
  if startsWith href "http" then href else "https://" ++ href.

(** Priority 1: the developer portal link *)
Fixpoint portalLink (links : list Link) : option string :=
  match links with
  | [] => None
  | link :: rest =>
      let text := trim (toLowerCase (l_text link)) in
      let href := l_href link in
      if skipped href then portalLink rest
      else if (includes text "developer portal" ||
               String.eqb text "developer docs")%bool
      then Some (absolute href)
      else portalLink rest
  end.

Definition KEYWORDS : list string :=
  ["api reference"; "api docs"; "documentation"; "api documentation";
   "openapi"; "swagger"; "developer"].

(** Priority 2: a link whose text has a documentation keyword *)
Fixpoint keywordLink (links : list Link) : option string :=
  match links with
  | [] => None
  | link :: rest =>
      let text := toLowerCase (l_text link) in
      let href := l_href link in
      if skipped href then keywordLink rest
      else if existsb (includes text) KEYWORDS then Some (absolute href)
      else keywordLink rest
  end.

Definition PATTERNS : list string :=
  ["api-reference"; "api-docs"; "/docs"; "documentation"; "swagger";
   "openapi"; "redoc"].

(** [document.querySelector('a[href*=...]')] *)
Definition firstWithHref (links : list Link) (part : string) : option Link :=
  find (fun l => includes (l_href l) part) links.

(** Priority 3: an href matching a docs URL pattern *)
Fixpoint patternLink (links : list Link) (patterns : list string)
  : option string :=
  match patterns with
  | [] => None
  | part :: rest =>
      match firstWithHref links part with
      | Some link =>
          let href := l_href link in
          if (negb (isEmpty href) && negb (includes href "apitracker.io"))%bool
          then Some (absolute href)
          else patternLink links rest
      | None => patternLink links rest
      end
  end.

Definition external (href : string) : bool :=
  (negb (isEmpty href) && startsWith href "http" &&
   negb (includes href "apitracker.io") &&
   negb (includes href "github.com") &&
   negb (includes href "twitter.com") &&
   negb (includes href "linkedin.com") &&
   negb (includes href "facebook.com"))%bool.

(** Priority 4: an external link, one with [api] in it first *)
Fixpoint externalLink (links : list Link) (fallbackDocsUrl : option string)
  : option string :=
  match links with
  | [] => fallbackDocsUrl
  | link :: rest =>
      let href := l_href link in
      if external href then
        if includes href "api" then Some href
        else
          match fallbackDocsUrl with
          | None =>
              if (includes href "docs" || includes href "developer")%bool
              then externalLink rest (Some href)
              else externalLink rest None
          | Some _ => externalLink rest fallbackDocsUrl
          end
      else externalLink rest fallbackDocsUrl
  end.

(** The closure of [extractDocsFromApiPage]. *)
Definition docsLink (links : list Link) : option string :=
  match portalLink links with
  | Some u => Some u
  | None =>
      match keywordLink links with
      | Some u => Some u
      | None =>
          match patternLink links PATTERNS with
          | Some u => Some u
          | None => externalLink links None
          end
      end
  end.

Definition extractDocsFromApiPage (page : Page) (query : string)
  : outcome ProviderResult :=
  let currentUrl := pg_url page in
  let provider := default query (slugOf currentUrl) in
  if negb (pg_evaluateOk page) then Throw (OtherError "evaluate")
  else
    match docsLink (pg_links page) with
    | Some docsUrl =>
        if isEmpty docsUrl then Throw (DocsUrlNotFoundError provider)
        else Return {| pr_provider := provider; pr_docsUrl := docsUrl;
                       pr_apiTrackerUrl := currentUrl;
                       pr_source := "apitracker" |}
    | None => Throw (DocsUrlNotFoundError provider)
    end.

Definition isDocsUrlNotFoundError (e : exn) : bool :=
  match e with DocsUrlNotFoundError _ => true | _ => false end.

Definition isNotFound (e : exn) : bool :=
  match e with
  | APITrackerProviderNotFoundError _ | DocsUrlNotFoundError _ => true
  | _ => false
  end.

Definition directUrlOf (normalizedQuery : string) : string :=
  APITRACKER_BASE_URL ++ "/a/" ++ encodeURIComponent normalizedQuery.

Definition searchUrlOf (normalizedQuery : string) : string :=
  APITRACKER_BASE_URL ++ "/search?q=" ++ encodeURIComponent normalizedQuery.

(** The free-text search path of [searchProvider]. *)
Definition searchPath (browser : Session Page) (query normalizedQuery : string)
  : Trace.M ProviderResult :=
  _ ← Trace.emit (EvGoto (searchUrlOf normalizedQuery));
  page ← Trace.lift (goto browser (searchUrlOf normalizedQuery));
  if negb (pg_hasBody page) then Trace.throw TimeoutError
  else if includes (pg_url page) "/a/"
  then Trace.lift (extractDocsFromApiPage page normalizedQuery)
  else
    searchResult ← Trace.lift (findBestSearchResult page normalizedQuery);
    match searchResult with
    | None => Trace.throw (APITrackerProviderNotFoundError query)
    | Some result =>
        _ ← Trace.emit (EvGoto (sr_url result));
        detail ← Trace.lift (goto browser (sr_url result));
        Trace.lift (extractDocsFromApiPage detail normalizedQuery)
    end.

(** [searchProvider(query)] *)
Definition searchProvider (browser : Session Page) (query : string)
  : Trace.M ProviderResult :=
  let normalizedQuery := toLowerCase (trim query) in
  Trace.finally
    (Trace.catch
       (_ ← Trace.emit EvGetPage;
        _ ← Trace.lift (getPage browser);
        _ ← Trace.emit (EvGoto (directUrlOf normalizedQuery));
        page ← Trace.lift (goto browser (directUrlOf normalizedQuery));
        let direct : Trace.M (option ProviderResult) :=
          if (match pg_response page with Some ok => ok | None => false end
              && includes (pg_url page) "/a/")%bool
          then
            match extractDocsFromApiPage page normalizedQuery with
            | Return r => Trace.ret (Some r)
            | Throw error =>
                if isDocsUrlNotFoundError error then Trace.ret None
                else Trace.throw error
            end
          else Trace.ret None in
        found ← direct;
        match found with
        | Some r => Trace.ret r
        | None => searchPath browser query normalizedQuery
        end)
       (fun error =>
          if isNotFound error then Trace.throw error
          else Trace.throw (APITrackerSearchError query)))
    (closePage browser).

End ApiTracker.

(* ===================================================================== *)
(** ** Provider lookup (src/discovery.js, discovery module) *)
(* ===================================================================== *)

Module Discovery.
Import Js Browser.

Definition URL_CACHE_TTL_MS : Z := 7 * 24 * 60 * 60 * 1000.

Record UrlEntry := {
  u_provider : string;
  u_docsUrl : string;
  u_apiTrackerUrl : string;
  u_source : string;
  u_cachedAt : Z;
  u_expiresAt : option Z;
}.

(** The discovery cache file, seen through [readFile] and [JSON.parse]:
    absent, unreadable or not JSON; a JSON object whose [entries] member
    is an object of entries, given by its own members; or a JSON value
    whose [entries] property is undefined or null. A JSON array, whose
    [entries] is the method it inherits, and an [entries] member of
    another kind are not among the files described: the program writes
    none. *)
Inductive UrlCacheFile : Type :=
| Missing
| Entries (entries : gmap string UrlEntry)
| NoEntries.

(** What [cache.entries[key]] finds: a member of the object itself, or
    what the object inherits from [Object.prototype] under that name. *)
Inductive Member : Type :=
| Own (entry : UrlEntry)
| Inherited.

(** The names [Object.prototype] defines that are in lower case, as the
    keys are: [constructor] and [__proto__]. *)
Definition inheritedKey (key : string) : bool :=
  (String.eqb key "constructor" || String.eqb key "__proto__")%bool.

(** [entries[key]] *)
Definition member (entries : gmap string UrlEntry) (key : string)
  : option Member :=
  match entries !! key with
  | Some entry => Some (Own entry)
  | None => if inheritedKey key then Some Inherited else None
  end.

(** [entries[key] = entry]: under the name [__proto__], unless the object
    has a member of that name, the assignment reaches the setter of
    [Object.prototype], which changes the prototype and adds no member. *)
Definition assign (key : string) (entry : UrlEntry)
  (entries : gmap string UrlEntry) : gmap string UrlEntry :=
  match entries !! key with
  | Some _ => <[key := entry]> entries
  | None => if String.eqb key "__proto__" then entries
            else <[key := entry]> entries
  end.

Record Store := {
  file : UrlCacheFile;
  (** [mkdir] and [writeFile] of the cache file succeed *)
  writable : bool;
}.

(** A store-passing version of the logging computations. *)
Definition readUrlCache (st : Store) : Trace.M UrlCacheFile :=
  _ ← Trace.emit EvReadUrlCache;
  match file st with
  | Missing => Trace.ret (Entries ∅)
  | f => Trace.ret f
  end.

Definition writeUrlCache (entries : gmap string UrlEntry) (st : Store)
  : Trace.M Store :=
  _ ← Trace.emit EvWriteUrlCache;
  if writable st
  then Trace.ret {| file := Entries entries; writable := writable st |}
  else Trace.throw (OtherError "EACCES").

(** [getCachedUrl(provider)] at clock value [now]. An inherited member
    has no [expiresAt] and is returned as it is. *)
Definition getCachedUrl (provider : string) (now : Z) (st : Store)
  : Trace.M (option Member) :=
  cache ← readUrlCache st;
  let key := trim (toLowerCase provider) in
  match cache with
  | Entries entries =>
      match member entries key with
      | None => Trace.ret None
      | Some (Own entry) =>
          match u_expiresAt entry with
          | Some t => if t <? now then Trace.ret None
                      else Trace.ret (Some (Own entry))
          | None => Trace.ret (Some (Own entry))
          end
      | Some Inherited => Trace.ret (Some Inherited)
      end
  | _ => Trace.throw TypeError
  end.

Definition cacheUrl (provider : string) (data : ApiTracker.ProviderResult)
  (now : Z) (st : Store) : Trace.M Store :=
  cache ← readUrlCache st;
  let key := trim (toLowerCase provider) in
  match cache with
  | Entries entries =>
      writeUrlCache
        (assign key {| u_provider := ApiTracker.pr_provider data;
                       u_docsUrl := ApiTracker.pr_docsUrl data;
                       u_apiTrackerUrl := ApiTracker.pr_apiTrackerUrl data;
                       u_source := ApiTracker.pr_source data;
                       u_cachedAt := now;
                       u_expiresAt := Some (now + URL_CACHE_TTL_MS) |}
           entries)
        st
  | _ => Trace.throw TypeError
  end.

Definition isAPITrackerNotFound (e : exn) : bool :=
  match e with
  | APITrackerProviderNotFoundError _ | DocsUrlNotFoundError _ => true
  | _ => false
  end.

(** [!query || typeof query !== 'string' || query.trim() === ''] *)
Definition invalidQuery (query : value) : bool :=
  (negb (truthy query) || negb (typeofString query) ||
   match query with
   | VStr s => isEmpty (trim s)
   | _ => false
   end)%bool.

(** What [lookupProvider] returns: a result with its four fields, or,
    built from an inherited member, the object
    [{ provider: undefined, docsUrl: undefined, apiTrackerUrl: undefined,
       source: 'cache' }]. *)
Inductive Found : Type :=
| Provider (result : ApiTracker.ProviderResult)
| NoFields.

(** [lookupProvider(query, { forceRefresh })] at clock value [now]: its
    result and events, and the cache file it leaves. *)
Definition lookupProvider (browser : Session ApiTracker.Page) (query : value)
  (forceRefresh : bool) (now : Z) (st : Store)
  : Trace.M (Found * Store) :=
  if invalidQuery query
  then Trace.throw (ProviderNotFoundError (orElse query (VStr EmptyString)))
  else
    match query with
    | VStr q =>
        let normalizedQuery := toLowerCase (trim q) in
        cached ← (if negb forceRefresh
                  then getCachedUrl normalizedQuery now st
                  else Trace.ret None);
        match cached with
        | Some (Own c) =>
            Trace.ret (Provider
                         {| ApiTracker.pr_provider := u_provider c;
                            ApiTracker.pr_docsUrl := u_docsUrl c;
                            ApiTracker.pr_apiTrackerUrl := u_apiTrackerUrl c;
                            ApiTracker.pr_source := "cache" |}, st)
        | Some Inherited => Trace.ret (NoFields, st)
        | None =>
            Trace.catch
              (_ ← Trace.emit (EvSearchProvider normalizedQuery);
               result ← ApiTracker.searchProvider browser normalizedQuery;
               st' ← cacheUrl normalizedQuery result now st;
               Trace.ret (Provider result, st'))
              (fun error =>
                 if isAPITrackerNotFound error
                 then Trace.throw (ProviderNotFoundError query)
                 else Trace.throw (DiscoveryFetchError q))
        end
    | _ => Trace.throw TypeError
    end.

Definition isProviderNotFoundError (e : exn) : bool :=
  match e with ProviderNotFoundError _ => true | _ => false end.

(** [searchProviders(query, { forceRefresh })]; a lookup that throws
    leaves the cache file as it was. *)
Definition searchProviders (browser : Session ApiTracker.Page) (query : value)
  (forceRefresh : bool) (now : Z) (st : Store)
  : Trace.M (list Found * Store) :=
  Trace.catch
    (found ← lookupProvider browser query forceRefresh now st;
     Trace.ret ([fst found], snd found))
    (fun error =>
       if isProviderNotFoundError error then Trace.ret ([], st)
       else Trace.throw error).

(** [clearUrlCache(provider)]; [None] is null, and an empty string is
    falsy like null. *)
Definition clearUrlCache (provider : option string) (st : Store)
  : Trace.M (nat * Store) :=
  cache ← readUrlCache st;
  match cache with
  | Entries entries =>
      match (match provider with
             | Some p => if isEmpty p then None else Some p
             | None => None
             end) with
      | Some p =>
          let key := trim (toLowerCase p) in
          match member entries key with
          | Some _ =>
              st' ← writeUrlCache (delete key entries) st;
              Trace.ret (1%nat, st')
          | None => Trace.ret (0%nat, st)
          end
      | None =>
          let count := size entries in
          st' ← writeUrlCache ∅ st;
          Trace.ret (count, st')
      end
  | _ => Trace.throw TypeError
  end.


End Discovery.

(* ===================================================================== *)
(** ** Notions of the specification *)
(* ===================================================================== *)

(** The words the spec uses about the code above, made precise. *)
Module Spec.
Import Js.

(** *** Probing *)

(** The body was skipped as an HTML page. *)
Definition skippedAsHtml (r : Net.Response) (content : string) : bool :=
  (includes (default EmptyString (Net.r_contentType r)) "text/html" &&
   negb (startsWith (trim content) "{"))%bool.

(** A failed probe, read off the response: no response at all (timeout
    or network failure), a status outside 2xx, a body that cannot be
    read, an HTML page served with status 200, a body that does not
    parse, or a document that is not a valid spec. *)
Definition ProbeFails `{Host} (o : Net.FetchOutcome) (url : string) : Prop :=
  match o with
  | Net.Aborted | Net.Failed => True
  | Net.Responded r =>
      Net.r_ok r = false \/
      match Net.r_text r with
      | Throw _ => True
      | Return content =>
          skippedAsHtml r content = true \/
          isThrow (OpenAPI.parseSpecContent content url) = true \/
          exists p, OpenAPI.parseSpecContent content url = Return p /\
                    isThrow (OpenAPI.validateSpec (OpenAPI.p_spec p) url)
                    = true
      end
  end.

(** The responses [tryFetchSpec] turns into a result, read off its
    code: status 2xx, a body it does not skip as HTML, which its parser
    reads and its validator accepts. *)
Definition Fetched `{Host} (o : Net.FetchOutcome) (url : string)
  (result : OpenAPI.FetchResult) : Prop :=
  exists r content p specInfo,
    o = Net.Responded r /\ Net.r_ok r = true /\
    Net.r_text r = Return content /\
    skippedAsHtml r content = false /\
    OpenAPI.parseSpecContent content url = Return p /\
    OpenAPI.validateSpec (OpenAPI.p_spec p) url = Return specInfo /\
    result = {| OpenAPI.f_spec := OpenAPI.p_spec p;
                OpenAPI.f_format := OpenAPI.p_format p;
                OpenAPI.f_specInfo := specInfo; OpenAPI.f_url := url |}.

(** *** The policies of the specification *)

(** The parsing policy, in the words of the spec: "try JSON parse first
    if content looks JSON-shaped or the URL suggests JSON", where an
    "explicit JSON extension forces JSON-only parsing"; "otherwise try a
    structured-data parse tolerant of a richer plain-text format
    (YAML-like); accept only if the result is an object, not a scalar or
    array". The two parsers are those of the platform, [JSON.parse] and
    [yaml.load]; the result is the document with its format. *)
Definition looksJsonShaped (content : string) : bool :=
  startsWith (trim content) "{".

Definition hasJsonExtension (url : string) : bool :=
  endsWith (toLowerCase url) ".json".

Definition isObject (v : value) : bool :=
  match v with VObj _ => true | _ => false end.

Definition parsedByPolicy `{Host} (content url : string)
  : option (value * string) :=
  let text := trim content in
  let json :=
    if (looksJsonShaped content || hasJsonExtension url)%bool
    then JSON_parse text else None in
  let parsed :=
    match json with
    | Some doc => Some (doc, "json")
    | None =>
        if hasJsonExtension url then None
        else match yaml_load text with
             | Some doc => Some (doc, "yaml")
             | None => None
             end
    end in
  match parsed with
  | Some (doc, _) => if isObject doc then parsed else None
  | None => None
  end.








(** *** Events *)

(** Every event a computation logs satisfies [P]. *)
Definition Logs (P : Event -> Prop) {A} (m : Trace.M A) : Prop :=
  Forall P (snd m).

Definition notAuthCheck (ev : Event) : Prop := ev <> EvAuthCheck.

(** An event that neither acquires nor closes a page. *)
Definition onOpenPage (ev : Event) : Prop :=
  ev <> EvGetPage /\ ev <> EvClosePage.

(** The life of the page in a log: when [getPage] fails the log is the
    attempt alone; when it succeeds the log is the acquisition, events on
    the open page, and the one call of [page.close] as last event,
    unless the page is found closed already. *)
Definition PageClosed {Page A} (browser : Browser.Session Page)
  (m : Trace.M A) : Prop :=
  match Browser.getPage browser with
  | Throw _ => snd m = [EvGetPage]
  | Return _ =>
      exists events,
        snd m = (EvGetPage :: events ++
                 if Browser.isClosed browser then [] else [EvClosePage])%list /\
        Forall onOpenPage events
  end.

(** *** Deduplication *)

Definition keyOf (e : DocsScraper.Endpoint) : string :=
  DocsScraper.key (DocsScraper.method e) (DocsScraper.path e).

(** The Set and the array of a scraping closure agree: every endpoint
    pushed has its key in the Set, and no key was pushed twice. *)
Definition Deduped (seen : gset string)
  (endpoints : list DocsScraper.Endpoint) : Prop :=
  (forall e, e ∈ endpoints -> keyOf e ∈ seen) /\ NoDup (map keyOf endpoints).

(** What a Scalar operation block contributes: method, path and
    description, when it has a known method and a path. *)
Definition blockCandidate (op : DocsScraper.OpBlock)
  : option (string * string * string) :=
  match option_map (fun t => toUpperCase (trim t)) (DocsScraper.ob_method op),
        option_map trim (DocsScraper.ob_path op) with
  | Some m, Some p =>
      if (negb (isEmpty m) && negb (isEmpty p) &&
          DocsScraper.inList m DocsScraper.SCALAR_METHODS)%bool
      then Some (m, p, DocsScraper.textOr
                         (option_map trim (DocsScraper.ob_desc op))
                         EmptyString)
      else None
  | _, _ => None
  end.

(** Candidates carry the key of their method and path. *)
Definition wellKeyed (c : string * string * string) : Prop :=
  c.1.1 = DocsScraper.key c.1.2 c.2.

(** *** Discovery *)

(** The score the search loop gives a link, 0 when its href names no
    provider page. *)
Definition candidateScore (link : ApiTracker.Link) (searchQuery : string)
  : Z :=
  match ApiTracker.slugOf (ApiTracker.l_href link) with
  | Some m =>
      ApiTracker.score (toLowerCase m)
        (toLowerCase (trim (ApiTracker.l_text link)))
        (match ApiTracker.l_parentText link with
         | Some t => toLowerCase (trim t)
         | None => EmptyString
         end)
        searchQuery
  | None => 0
  end.

(** The direct page is no provider page, or it has no documentation
    link. *)
Definition DirectMiss (direct : ApiTracker.Page) (normalizedQuery : string)
  : Prop :=
  (match ApiTracker.pg_response direct with Some ok => ok | None => false end
   && includes (ApiTracker.pg_url direct) "/a/")%bool = false \/
  exists provider,
    ApiTracker.extractDocsFromApiPage direct normalizedQuery
    = Throw (DocsUrlNotFoundError provider).

End Spec.

(* ===================================================================== *)
(** ** A concrete host for worked examples *)
(* ===================================================================== *)

Module Example.
Import Js.

(** A stand-in digest of the right width: the input cut or padded with
    zeros to 64 characters. No property below depends on the digest beyond
    its width. *)
Fixpoint pad (n : nat) (s : string) : string :=
  match n with
  | O => EmptyString
  | S n' =>
      match s with
      | EmptyString => String "0" (pad n' EmptyString)
      | String c r => String c (pad n' r)
      end
  end.

Fixpoint pad_length (n : nat) : forall s, String.length (pad n s) = n :=
  match n with
  | O => fun _ => eq_refl
  | S n' => fun s =>
      match s with
      | EmptyString => f_equal S (pad_length n' EmptyString)
      | String _ r => f_equal S (pad_length n' r)
      end
  end.

Definition q : string := dquote.

Definition newline : string := String "010"%char EmptyString.

(** Three documents as JSON text. *)
Definition petstore3_json : string :=
  "{" ++ q ++ "openapi" ++ q ++ ":" ++ q ++ "3.0.0" ++ q ++ ","
      ++ q ++ "info" ++ q ++ ":{" ++ q ++ "title" ++ q ++ ":" ++ q ++ "Pets" ++ q ++ "},"
      ++ q ++ "paths" ++ q ++ ":{}}".

Definition petstore3 : value :=
  VObj [("openapi", VStr "3.0.0");
        ("info", VObj [("title", VStr "Pets")]);
        ("paths", VObj [])].

(** The first of them as YAML text. *)
Definition petstore3_yaml : string :=
  "openapi: 3.0.0" ++ newline ++ "info:" ++ newline ++ "  title: Pets"
  ++ newline ++ "paths: {}".

Definition empty_json : string := "{}".


(** [JSON.parse] and [yaml.load] on the documents of the examples. *)
Definition parseJSON (s : string) : option value :=
  if String.eqb s petstore3_json then Some petstore3
  else if String.eqb s empty_json then Some (VObj [])
  else None.

Definition loadYAML (s : string) : option value :=
  if String.eqb s petstore3_json then Some petstore3
  else if String.eqb s petstore3_yaml then Some petstore3
  else if String.eqb s empty_json then Some (VObj [])
  else if String.eqb s "openapi: 3.0.0" then Some (VObj [("openapi", VStr "3.0.0")])
  else None.

(** A URL parser for the URLs of the examples: scheme up to the colon,
    then two slashes, then the host up to the next slash. *)
Fixpoint untilSlash (s : string) : string :=
  match s with
  | EmptyString => EmptyString
  | String c r => if Ascii.eqb c "/" then EmptyString else String c (untilSlash r)
  end.

Definition parseURL (url : string) : option (string * string) :=
  if startsWith url "https://"
  then Some ("https:", untilSlash (String.substring 8 (String.length url) url))
  else if startsWith url "http://"
  then Some ("http:", untilSlash (String.substring 7 (String.length url) url))
  else None.

Definition resolveURL (relative base : string) : option string :=
  match parseURL relative, parseURL base with
  | Some _, _ => Some relative
  | None, Some (protocol, h) =>
      Some (protocol ++ "//" ++ h ++
            (if startsWith relative "/" then relative else "/" ++ relative))
  | None, None => None
  end.

#[local] Instance host : Host := {|
  sha256_hex := pad 64;
  homedir := "/home/u";
  JSON_parse := parseJSON;
  yaml_load := loadYAML;
  URL_parse := parseURL;
  URL_resolve := resolveURL;
  sha256_hex_length := pad_length 64;
|}.

Definition exampleUrl : string := "https://api.example.com/openapi.json".

(** A disk whose manifest names a blob that is not there. *)
Definition danglingEntry (expiresAt : option Z) : Cache.Entry :=
  {| Cache.e_url := exampleUrl;
     Cache.e_filename := Cache.generateCacheKey exampleUrl ++ ".json";
     Cache.e_cachedAt := 1000;
     Cache.e_expiresAt := expiresAt;
     Cache.e_specInfo := {| Cache.si_title := VStr "Pets";
                            Cache.si_version := VStr "unknown";
                            Cache.si_type := "openapi" |} |}.

Definition danglingManifest (expiresAt : option Z) : gmap string Cache.Entry :=
  {[ Cache.generateCacheKey exampleUrl := danglingEntry expiresAt ]}.

Definition danglingState (expiresAt : option Z) : Cache.State :=
  {| Cache.disk :=
       {| Cache.files :=
            {[ Cache.manifestPath :=
                 Cache.Json (Cache.DManifest (danglingManifest expiresAt)) ]};
          Cache.dirOk := true; Cache.denied := ∅ |};
     Cache.emptyEntries := ∅ |}.

(** Networks for the examples: every request is answered 404, except
    one URL that is served a given body with status 200. *)
Definition notFound : Net.Response :=
  {| Net.r_ok := false; Net.r_contentType := Some "text/html";
     Net.r_text := Return "Not Found" |}.

Definition okJson (body : string) : Net.Response :=
  {| Net.r_ok := true; Net.r_contentType := Some "application/json";
     Net.r_text := Return body |}.




Definition serving (url body : string) : Net.Network :=
  fun _ requested =>
    if String.eqb requested url then Net.Responded (okJson body)
    else Net.Responded notFound.

(** An OpenAPI 3 document with an info object and nothing else. *)
Definition infoOnly3 : value :=
  VObj [("openapi", VStr "3.0.0"); ("info", VObj [("title", VStr "Pets")])].

(** The document of the spec's example with [openapi: 2.0]. *)
Definition openapi2 : value :=
  VObj [("openapi", VStr "2.0");
        ("info", VObj [("title", VStr "Pets")]);
        ("paths", VObj [("/pets", VObj [("get", VObj [])])])].

Definition baseUrl : string := "https://api.example.com".

(** A network that serves two bodies at two URLs and 404 elsewhere. *)
Definition servingTwo (url1 body1 url2 body2 : string) : Net.Network :=
  fun _ requested =>
    if String.eqb requested url1 then Net.Responded (okJson body1)
    else if String.eqb requested url2 then Net.Responded (okJson body2)
    else Net.Responded notFound.

Definition nestedUrl : string := "https://api.example.com/docs/openapi.json".
Definition swaggerUrl : string := "https://api.example.com/swagger.json".

Definition petstore3Info : OpenAPI.SpecInfo :=
  {| OpenAPI.i_type := "openapi"; OpenAPI.i_version := "3.0.0";
     OpenAPI.i_title := VStr "Pets"; OpenAPI.i_apiVersion := VStr "unknown" |}.

(** A login wall: a password field, a sign-in heading, and a line of
    help text that happens to name an endpoint. *)
Definition loginSignals : Browser.AuthSignals :=
  {| Browser.as_evaluateOk := true;
     Browser.as_passwordInput := true;
     Browser.as_loginForm := true;
     Browser.as_bodyInnerText :=
       Some "Sign in to continue. Try GET /api/users after you log in.";
     Browser.as_title := "Sign in";
     Browser.as_h1InnerText := Some "Sign in" |}.

Definition noApiInfo : DocsScraper.ApiInfo :=
  {| DocsScraper.ai_title := "Sign in";
     DocsScraper.ai_version := VNull;
     DocsScraper.ai_description := VNull |}.

(** A page with nothing on it but the given signals and body text. *)
Definition barePage (a : Browser.AuthSignals) : DocsScraper.Page :=
  {| DocsScraper.pg_auth := a;
     DocsScraper.pg_swaggerMarker := false;
     DocsScraper.pg_redocMarker := false;
     DocsScraper.pg_scalarMarker := false;
     DocsScraper.pg_bodyInnerHTML :=
       option_map (fun t => "<p>" ++ t ++ "</p>") (Browser.as_bodyInnerText a);
     DocsScraper.pg_uiSpec := None;
     DocsScraper.pg_opblocks := [];
     DocsScraper.pg_redoc_state := VUndefined;
     DocsScraper.pg_REDOC_STORE := VUndefined;
     DocsScraper.pg_redocOperations := [];
     DocsScraper.pg_redocMenuItems := [];
     DocsScraper.pg_scriptSpecs := [];
     DocsScraper.pg_specUrl := None;
     DocsScraper.pg_fetchJson := fun _ => Throw TypeError;
     DocsScraper.pg_scalarOperations := [];
     DocsScraper.pg_navItems := [];
     DocsScraper.pg_bodyInnerText := Browser.as_bodyInnerText a;
     DocsScraper.pg_codeBlocks := [];
     DocsScraper.pg_tables := [];
     DocsScraper.pg_apiInfo := fun _ => Return noApiInfo |}.

Definition loginPage : DocsScraper.Page := barePage loginSignals.

Definition always {Page} (page : Page) : Browser.Session Page :=
  {| Browser.getPage := Return tt; Browser.goto := fun _ => Return page;
     Browser.isClosed := false; Browser.close := Return tt |}.

(** The same browser, but for a page whose [close] is rejected, as it is
    when the browser went away under it. *)
Definition targetClosed : Js.exn :=
  OtherError "Protocol error (Target.closeTarget): Target closed".

Definition failingClose {Page} (browser : Browser.Session Page)
  : Browser.Session Page :=
  {| Browser.getPage := Browser.getPage browser;
     Browser.goto := Browser.goto browser;
     Browser.isClosed := false;
     Browser.close := Throw targetClosed |}.

Definition docsUrl : string := "https://docs.example.com/api".

(** The same login wall as the Swagger UI and Redoc extractors see it. *)
Definition swaggerLoginPage : SwaggerUI.Page :=
  {| SwaggerUI.pg_auth := loginSignals;
     SwaggerUI.pg_responses := [];
     SwaggerUI.pg_timeline := [];
     SwaggerUI.pg_swaggerUIReady := false;
     SwaggerUI.pg_windowUI := None;
     SwaggerUI.pg_scriptSpec := VNull |}.

Definition redocLoginPage : Redoc.Page :=
  {| Redoc.pg_auth := loginSignals;
     Redoc.pg_responses := [];
     Redoc.pg_timeline := [];
     Redoc.pg_redocReady := false;
     Redoc.pg_redoc_state := VUndefined;
     Redoc.pg_REDOC_STORE := VUndefined;
     Redoc.pg_scriptResult := None |}.

(** Two operation blocks for the same method and path, with different
    descriptions, as each framework's DOM extraction sees them. *)
Definition listPets : DocsScraper.OpBlock :=
  {| DocsScraper.ob_method := Some "get";
     DocsScraper.ob_path := Some "/pets";
     DocsScraper.ob_desc := Some "List all pets" |}.

Definition listPetsAgain : DocsScraper.OpBlock :=
  {| DocsScraper.ob_method := Some "GET";
     DocsScraper.ob_path := Some " /pets ";
     DocsScraper.ob_desc := Some "Returns every pet" |}.

Definition noSignals : Browser.AuthSignals :=
  {| Browser.as_evaluateOk := true;
     Browser.as_passwordInput := false;
     Browser.as_loginForm := false;
     Browser.as_bodyInnerText := Some "Pets";
     Browser.as_title := "Pets";
     Browser.as_h1InnerText := Some "Pets" |}.

Definition withOperations (ops : list DocsScraper.OpBlock) : DocsScraper.Page :=
  let page := barePage noSignals in
  {| DocsScraper.pg_auth := DocsScraper.pg_auth page;
     DocsScraper.pg_swaggerMarker := false;
     DocsScraper.pg_redocMarker := false;
     DocsScraper.pg_scalarMarker := false;
     DocsScraper.pg_bodyInnerHTML := DocsScraper.pg_bodyInnerHTML page;
     DocsScraper.pg_uiSpec := None;
     DocsScraper.pg_opblocks := ops;
     DocsScraper.pg_redoc_state := VUndefined;
     DocsScraper.pg_REDOC_STORE := VUndefined;
     DocsScraper.pg_redocOperations := ops;
     DocsScraper.pg_redocMenuItems := [];
     DocsScraper.pg_scriptSpecs := [];
     DocsScraper.pg_specUrl := None;
     DocsScraper.pg_fetchJson := DocsScraper.pg_fetchJson page;
     DocsScraper.pg_scalarOperations := ops;
     DocsScraper.pg_navItems := [];
     DocsScraper.pg_bodyInnerText := DocsScraper.pg_bodyInnerText page;
     DocsScraper.pg_codeBlocks := [];
     DocsScraper.pg_tables := [];
     DocsScraper.pg_apiInfo := DocsScraper.pg_apiInfo page |}.

Definition duplicatePage : DocsScraper.Page :=
  withOperations [listPets; listPetsAgain].

(** The search surface of the examples: a provider page for stripe, a
    404 for any other slug, and a search page listing stripe only. *)
Definition stripePage : ApiTracker.Page :=
  {| ApiTracker.pg_response := Some true;
     ApiTracker.pg_url := "https://apitracker.io/a/stripe";
     ApiTracker.pg_evaluateOk := true;
     ApiTracker.pg_hasBody := true;
     ApiTracker.pg_links :=
       [ {| ApiTracker.l_href := "/";
            ApiTracker.l_text := "APITracker";
            ApiTracker.l_parentText := None |};
         {| ApiTracker.l_href := "https://stripe.com/docs/api";
            ApiTracker.l_text := "Developer Portal";
            ApiTracker.l_parentText := Some "Developer Portal" |} ] |}.

Definition missingPage (url : string) : ApiTracker.Page :=
  {| ApiTracker.pg_response := Some false;
     ApiTracker.pg_url := url;
     ApiTracker.pg_evaluateOk := true;
     ApiTracker.pg_hasBody := true;
     ApiTracker.pg_links := [] |}.

Definition searchPage (url : string) : ApiTracker.Page :=
  {| ApiTracker.pg_response := Some true;
     ApiTracker.pg_url := url;
     ApiTracker.pg_evaluateOk := true;
     ApiTracker.pg_hasBody := true;
     ApiTracker.pg_links :=
       [ {| ApiTracker.l_href := "/a/stripe";
            ApiTracker.l_text := "Stripe";
            ApiTracker.l_parentText := Some "Stripe: online payments" |} ] |}.

Definition tracker : Browser.Session ApiTracker.Page :=
  {| Browser.getPage := Return tt;
     Browser.goto := fun url =>
       if String.eqb url "https://apitracker.io/a/stripe"
       then Return stripePage
       else if startsWith url "https://apitracker.io/a/"
       then Return (missingPage url)
       else if startsWith url "https://apitracker.io/search?q="
       then Return (searchPage url)
       else Throw (OtherError "net::ERR_NAME_NOT_RESOLVED");
     Browser.isClosed := false;
     Browser.close := Return tt |}.

Definition emptyStore : Discovery.Store :=
  {| Discovery.file := Discovery.Missing; Discovery.writable := true |}.

Definition emptyDisk : Cache.Disk :=
  {| Cache.files := ∅; Cache.dirOk := true; Cache.denied := ∅ |}.

Definition freshState : Cache.State :=
  {| Cache.disk := emptyDisk; Cache.emptyEntries := ∅ |}.

(** The cache after the petstore spec was stored at time 1000 for one
    minute. *)
Definition cachedState : Cache.State :=
  snd (Cache.setCache exampleUrl petstore3 (Some 60000) "json" 1000
         freshState).

(** A host whose URL parser also refuses a host name with a space in
    it, as [new URL] does. *)
Definition parseURLStrict (url : string) : option (string * string) :=
  match parseURL url with
  | Some (protocol, h) =>
      if includes h " " then None else Some (protocol, h)
  | None => None
  end.

Definition strictHost : Host := {|
  sha256_hex := pad 64;
  homedir := "/home/u";
  JSON_parse := parseJSON;
  yaml_load := loadYAML;
  URL_parse := parseURLStrict;
  URL_resolve := resolveURL;
  sha256_hex_length := pad_length 64;
|}.

Definition spacedUrl : string := "https://api example.com/openapi.json".

(** A browser whose navigations all time out. *)
Definition timingOut {Page} : Browser.Session Page :=
  {| Browser.getPage := Return tt;
     Browser.goto := fun _ => Throw TimeoutError;
     Browser.isClosed := false;
     Browser.close := Return tt |}.

(** A Swagger UI page that exposes nothing, but whose spec travelled
    over the network, after the HTML of the page and before a second
    copy served at another URL; each body was read before the next
    response arrived. *)
Definition htmlResponse : Browser.InterceptedResponse :=
  {| Browser.ir_url := docsUrl;
     Browser.ir_contentType := Some "text/html";
     Browser.ir_text := Return "<html></html>" |}.

Definition specResponse (url : string) : Browser.InterceptedResponse :=
  {| Browser.ir_url := url;
     Browser.ir_contentType := Some "application/json";
     Browser.ir_text := Return petstore3_json |}.

Definition networkPage : SwaggerUI.Page :=
  {| SwaggerUI.pg_auth := noSignals;
     SwaggerUI.pg_responses :=
       [htmlResponse; specResponse swaggerUrl; specResponse exampleUrl];
     SwaggerUI.pg_timeline := Browser.oneByOne 3;
     SwaggerUI.pg_swaggerUIReady := false;
     SwaggerUI.pg_windowUI := None;
     SwaggerUI.pg_scriptSpec := VNull |}.

(** The same page when the three responses arrived before any body was
    read. *)
Definition overlappingPage : SwaggerUI.Page :=
  {| SwaggerUI.pg_auth := noSignals;
     SwaggerUI.pg_responses :=
       [htmlResponse; specResponse swaggerUrl; specResponse exampleUrl];
     SwaggerUI.pg_timeline :=
       [Browser.Arrival; Browser.Arrival; Browser.Arrival;
        Browser.BodyRead 1; Browser.BodyRead 2];
     SwaggerUI.pg_swaggerUIReady := false;
     SwaggerUI.pg_windowUI := None;
     SwaggerUI.pg_scriptSpec := VNull |}.

Definition petstore3SwaggerInfo : SwaggerUI.SpecInfo :=
  {| SwaggerUI.i_type := "openapi"; SwaggerUI.i_version := "3.0.0";
     SwaggerUI.i_title := VStr "Pets";
     SwaggerUI.i_apiVersion := VStr "unknown" |}.

Definition redocNetworkPage : Redoc.Page :=
  {| Redoc.pg_auth := noSignals;
     Redoc.pg_responses := [htmlResponse; specResponse swaggerUrl];
     Redoc.pg_timeline := Browser.oneByOne 2;
     Redoc.pg_redocReady := false;
     Redoc.pg_redoc_state := VUndefined;
     Redoc.pg_REDOC_STORE := VUndefined;
     Redoc.pg_scriptResult := None |}.

(** The [paths] of a spec with one operation, a TRACE operation and a
    [parameters] array under the same path. *)
Definition petPaths : value :=
  VObj [("/pets",
         VObj [("get", VObj [("summary", VStr "List pets")]);
               ("TRACE", VObj []);
               ("parameters", VArr [])])].

(** A search page with three results for stripe: a longer slug first,
    then the exact slug twice. *)
Definition rankedPage : ApiTracker.Page :=
  {| ApiTracker.pg_response := Some true;
     ApiTracker.pg_url := "https://apitracker.io/search?q=stripe";
     ApiTracker.pg_evaluateOk := true;
     ApiTracker.pg_hasBody := true;
     ApiTracker.pg_links :=
       [ {| ApiTracker.l_href := "/a/stripe-connect";
            ApiTracker.l_text := "Stripe Connect";
            ApiTracker.l_parentText := None |};
         {| ApiTracker.l_href := "/a/stripe";
            ApiTracker.l_text := "Stripe";
            ApiTracker.l_parentText := None |};
         {| ApiTracker.l_href := "https://apitracker.io/a/stripe?ref=search";
            ApiTracker.l_text := "Stripe API";
            ApiTracker.l_parentText := None |} ] |}.

Definition stripeResult : ApiTracker.ProviderResult :=
  {| ApiTracker.pr_provider := "stripe";
     ApiTracker.pr_docsUrl := "https://stripe.com/docs/api";
     ApiTracker.pr_apiTrackerUrl := "https://apitracker.io/a/stripe";
     ApiTracker.pr_source := "apitracker" |}.

(** Discovery caches: one that knows stripe since time 1000, one whose
    file has no [entries], one that cannot be written. *)
Definition stripeEntry : Discovery.UrlEntry :=
  {| Discovery.u_provider := "stripe";
     Discovery.u_docsUrl := "https://stripe.com/docs/api";
     Discovery.u_apiTrackerUrl := "https://apitracker.io/a/stripe";
     Discovery.u_source := "apitracker";
     Discovery.u_cachedAt := 1000;
     Discovery.u_expiresAt := Some (1000 + Discovery.URL_CACHE_TTL_MS) |}.

Definition stripeStore : Discovery.Store :=
  {| Discovery.file := Discovery.Entries {[ "stripe" := stripeEntry ]};
     Discovery.writable := true |}.

Definition brokenStore : Discovery.Store :=
  {| Discovery.file := Discovery.NoEntries; Discovery.writable := true |}.

Definition readOnlyStore : Discovery.Store :=
  {| Discovery.file := Discovery.Missing; Discovery.writable := false |}.

End Example.

(* ===================================================================== *)
(** ** Properties *)
(* ===================================================================== *)

(** *** Strings *)

Section StringFacts.
Import Js.

Lemma isWhiteSpace_lowerChar c : isWhiteSpace (lowerChar c) = isWhiteSpace c.
Proof. destruct c as [[] [] [] [] [] [] [] []]; reflexivity. Qed.

Lemma lowerChar_idem c : lowerChar (lowerChar c) = lowerChar c.
Proof. destruct c as [[] [] [] [] [] [] [] []]; reflexivity. Qed.

Lemma toLowerCase_idem s : toLowerCase (toLowerCase s) = toLowerCase s.
Proof. induction s as [|c r IH]; simpl; [reflexivity|]. now rewrite lowerChar_idem, IH. Qed.

Lemma isEmpty_toLowerCase s : isEmpty (toLowerCase s) = isEmpty s.
Proof. now destruct s. Qed.

Lemma trimStart_toLowerCase s :
  trimStart (toLowerCase s) = toLowerCase (trimStart s).
Proof.
  induction s as [|c r IH]; simpl; [reflexivity|].
  rewrite isWhiteSpace_lowerChar. now destruct (isWhiteSpace c).
Qed.

Lemma trimEnd_toLowerCase s :
  trimEnd (toLowerCase s) = toLowerCase (trimEnd s).
Proof.
  induction s as [|c r IH]; simpl; [reflexivity|].
  rewrite isWhiteSpace_lowerChar, IH, isEmpty_toLowerCase.
  now destruct (isWhiteSpace c && isEmpty (trimEnd r))%bool.
Qed.

Lemma trim_toLowerCase s : trim (toLowerCase s) = toLowerCase (trim s).
Proof. unfold trim. now rewrite trimStart_toLowerCase, trimEnd_toLowerCase. Qed.

Lemma trimEnd_idem s : trimEnd (trimEnd s) = trimEnd s.
Proof.
  induction s as [|c r IH]; simpl; [reflexivity|].
  destruct (isWhiteSpace c && isEmpty (trimEnd r))%bool eqn:E; simpl;
    [reflexivity|].
  now rewrite IH, E.
Qed.

Lemma trimStart_head s :
  trimStart s = EmptyString \/
  exists c r, trimStart s = String c r /\ isWhiteSpace c = false.
Proof.
  induction s as [|c r IH]; simpl; [now left|].
  destruct (isWhiteSpace c) eqn:E; [exact IH|]. right. now exists c, r.
Qed.

Lemma trimStart_trim s : trimStart (trim s) = trim s.
Proof.
  unfold trim. destruct (trimStart_head s) as [->|(c & r & -> & E)];
    [reflexivity|].
  simpl. rewrite E. simpl. now rewrite E.
Qed.

Lemma trim_idem s : trim (trim s) = trim s.
Proof.
  unfold trim at 1. rewrite trimStart_trim. unfold trim. apply trimEnd_idem.
Qed.

(** Normalising twice is normalising once. *)
Lemma normalize_idem s :
  toLowerCase (trim (toLowerCase (trim s))) = toLowerCase (trim s).
Proof. now rewrite trim_toLowerCase, trim_idem, toLowerCase_idem. Qed.

Lemma string_app_inv_head (p a b : string) : p ++ a = p ++ b -> a = b.
Proof. induction p as [|c r IH]; simpl; [easy|]. intros [= E]. auto. Qed.

Lemma string_app_length (a b : string) :
  String.length (a ++ b) = (String.length a + String.length b)%nat.
Proof. induction a as [|c r IH]; simpl; [reflexivity|]. now rewrite IH. Qed.

Lemma slice_length n s :
  (n <= String.length s)%nat -> String.length (Cache.slice n s) = n.
Proof.
  unfold Cache.slice. revert s.
  induction n as [|n IH]; intros [|c r] Hn; simpl in *; try reflexivity; try lia.
  f_equal. apply IH. lia.
Qed.

End StringFacts.

(** *** The models of the platform functions on small inputs *)

Section Checks.
Import Js.

Example trim_both_ends : trim "  a b  " = "a b".
Proof. reflexivity. Qed.

Example toLowerCase_ascii : toLowerCase " FOO " = " foo ".
Proof. reflexivity. Qed.

Example endsWith_suffix :
  endsWith "openapi.json" ".json" = true /\ endsWith "openapi.json5" ".json" = false.
Proof. split; reflexivity. Qed.

Example encodeURIComponent_reserved :
  encodeURIComponent "a b/c&d" = "a%20b%2Fc%26d".
Proof. reflexivity. Qed.

Example isDirectSpecUrl_examples :
  OpenAPI.isDirectSpecUrl "https://api.example.com" = false /\
  OpenAPI.isDirectSpecUrl "https://api.example.com/v2/API-DOCS" = true /\
  OpenAPI.isDirectSpecUrl "https://api.example.com/spec.YML" = true.
Proof. repeat split. Qed.

Example normalizeUrl_example :
  OpenAPI.normalizeUrl " api.example.com/// " = "https://api.example.com".
Proof. reflexivity. Qed.

Example common_spec_paths_count : length OpenAPI.COMMON_SPEC_PATHS = 21%nat.
Proof. reflexivity. Qed.

Example matchAll_example :
  Regex.matchAll DocsScraper.BODY_METHODS Regex.notWhiteSpace
    "Use get /pets or POST   /pets/{id}, never OPTIONS /x"
  = [("get", "/pets"); ("POST", "/pets/{id},")].
Proof. reflexivity. Qed.

Example matchMethodAnyPath_examples :
  Regex.matchMethodAnyPath DocsScraper.REDOC_MENU_METHODS "get /pets list"
  = Some ("get", "/pets list") /\
  Regex.matchMethodAnyPath DocsScraper.REDOC_MENU_METHODS "GET  "
  = Some ("GET", " ") /\
  Regex.matchMethodAnyPath DocsScraper.REDOC_MENU_METHODS "GETTING /pets"
  = None.
Proof. repeat split. Qed.

Example slugOf_examples :
  ApiTracker.slugOf "https://apitracker.io/a/stripe?tab=docs" = Some "stripe" /\
  ApiTracker.slugOf "/a//a/n8n" = Some "n8n" /\
  ApiTracker.slugOf "/about/" = None.
Proof. repeat split. Qed.

Example testWord_examples :
  Regex.testWord DocsScraper.BODY_METHODS "<b>get</b>" = true /\
  Regex.testWord DocsScraper.BODY_METHODS "widgets" = false.
Proof. split; reflexivity. Qed.

(** The sort is stable: of two results with the highest score, the one
    that comes first in the page wins. *)
Example sortByScore_stable :
  let r (u : string) (n : Z) :=
    {| ApiTracker.sr_url := u; ApiTracker.sr_slug := u;
       ApiTracker.sr_text := u; ApiTracker.sr_score := n |} in
  ApiTracker.sortByScore [r "a" 40; r "b" 100; r "c" 60; r "d" 100]
  = [r "b" 100; r "d" 100; r "c" 60; r "a" 40].
Proof. reflexivity. Qed.

End Checks.
(** *** JSON text *)

Section JsonFacts.
Import Js.

(** Induction on values, through the items of arrays and the members of
    objects. *)
Lemma value_nested_ind (P : value -> Prop) :
  P VUndefined -> P VNull -> (forall b, P (VBool b)) ->
  (forall n, P (VNum n)) -> (forall s, P (VStr s)) ->
  (forall items, Forall P items -> P (VArr items)) ->
  (forall fields, Forall (fun kv => P (snd kv)) fields -> P (VObj fields)) ->
  (forall iso, P (VDate iso)) ->
  forall v, P v.
Proof.
  intros Hu Hn Hb Hz Hs Ha Ho Hd.
  fix IH 1. intros [| |b|n|s|items|fields|iso].
  - exact Hu.
  - exact Hn.
  - apply Hb.
  - apply Hz.
  - apply Hs.
  - apply Ha. induction items as [|x r IHr]; constructor;
      [apply IH|exact IHr].
  - apply Ho. induction fields as [|[k x] r IHr]; constructor;
      [apply IH|exact IHr].
  - apply Hd.
Qed.

Lemma jsonMembers_data f g fs :
  Forall (fun kv => g (snd kv) = true -> f (snd kv) = snd kv) fs ->
  (forall v, g v = true -> v <> VUndefined) ->
  forall seen, dataMembers g fs seen = true -> jsonMembers f fs seen = fs.
Proof.
  intros Hfs Hg. induction Hfs as [|[k x] r Hx _ IH]; intros seen; cbn;
    [reflexivity|].
  intros Hd. apply andb_prop in Hd as [Hd Hr]. apply andb_prop in Hd as [Hk Hgx].
  apply negb_true_iff in Hk. rewrite Hk.
  cbn in Hx. rewrite (IH _ Hr).
  pose proof (Hg x Hgx) as Hne. specialize (Hx Hgx).
  destruct x; try congruence.
Qed.

(** Plain JSON data is read back as it was written. *)
Lemma jsonRoundTrip_data v : isJsonData v = true -> jsonRoundTrip v = v.
Proof.
  induction v as [| |b|n|s|items IH|fields IH|iso] using value_nested_ind;
    cbn; try reflexivity; try discriminate.
  - intros Hd. f_equal. induction IH as [|x r Hx _ IHr]; cbn in *;
      [reflexivity|].
    apply andb_prop in Hd as [Hdx Hdr]. rewrite (IHr Hdr). f_equal.
    rewrite (Hx Hdx). destruct x; try reflexivity. discriminate.
  - intros Hd. f_equal. apply (jsonMembers_data _ isJsonData); auto.
    intros v Hv ->. discriminate.
Qed.

(** A member holding undefined is not read back, and an undefined item
    comes back as null. *)
Example jsonRoundTrip_drops_undefined :
  jsonRoundTrip (VObj [("x", VUndefined); ("y", VArr [VUndefined; VNum 1]);
                       ("z", VDate "2001-12-14T21:59:43.000Z")])
  = VObj [("y", VArr [VNull; VNum 1]);
          ("z", VStr "2001-12-14T21:59:43.000Z")].
Proof. reflexivity. Qed.

End JsonFacts.


(** *** The cache *)

Section CacheFacts.
Import Js Cache.
Context `{Host}.

Lemma key_length url : String.length (generateCacheKey url) = 16%nat.
Proof.
  unfold generateCacheKey. apply slice_length.
  rewrite sha256_hex_length. lia.
Qed.

(** The blob of an entry never lives at the path of the manifest. *)
Lemma blob_path_not_manifest url :
  join getCacheDirectory (generateCacheKey url ++ ".json") <> manifestPath.
Proof.
  unfold manifestPath, join. intros E.
  apply string_app_inv_head in E. apply string_app_inv_head in E.
  apply (f_equal String.length) in E.
  rewrite string_app_length, key_length in E. simpl in E. lia.
Qed.

Lemma key_normalized url :
  generateCacheKey (toLowerCase (trim url)) = generateCacheKey url.
Proof. unfold generateCacheKey. now rewrite normalize_idem. Qed.

Lemma key_same_normal_form a b :
  toLowerCase (trim a) = toLowerCase (trim b) ->
  generateCacheKey a = generateCacheKey b.
Proof. unfold generateCacheKey. now intros ->. Qed.

(** What a successful [setCache] leaves behind: the entry it returns is in
    the manifest on disk under the key of the URL, as JSON renders it,
    and the blob it names holds the spec, as JSON renders it. *)
Lemma setCache_stored url spec ttl fmt now st entry st' :
  setCache url spec ttl fmt now st = (Return entry, st') ->
  exists m d specObj,
    files (disk st') !! manifestPath = Some (Json (DManifest m)) /\
    m !! generateCacheKey url = Some (jsonEntry entry) /\
    files (disk st') !! join getCacheDirectory (e_filename entry)
      = Some (Json (DBlob d)) /\
    e_expiresAt entry
      = match ttl with
        | Some t => if Z.eqb t 0 then None else Some (now + t)
        | None => None
        end /\
    e_cachedAt entry = now /\
    md_url (cd_metadata d) = url /\
    parseIfString spec = Return specObj /\
    cd_spec d = jsonRoundTrip specObj.
Proof.
  unfold setCache.
  destruct (parseIfString spec) as [specObj|e] eqn:Hp; [|discriminate].
  destruct (ensureCacheDirectory st) as [[]|e] eqn:Hdir; [|discriminate].
  set (exp := match ttl with Some t => _ | None => Return None end).
  destruct exp as [expiresAt|e] eqn:Hexp; [|discriminate].
  destruct (normalizeSpec specObj fmt) as [info|e]; [|discriminate].
  unfold writeFile at 1.
  destruct (decide (_ ∈ denied (disk st))) as [|Hw1]; [discriminate|].
  unfold readManifest; cbn [disk files].
  pose proof (blob_path_not_manifest url) as Hne.
  rewrite lookup_insert_ne by exact Hne.
  destruct (files (disk st) !! manifestPath) as [[[m| |]|]|];
    try discriminate.
  all: unfold writeManifest, ensureCacheDirectory, writeFile; cbn [disk dirOk denied files].
  all: unfold ensureCacheDirectory in Hdir.
  all: destruct (dirOk (disk st)); try discriminate.
  all: destruct (decide (manifestPath ∈ denied (disk st))); try discriminate.
  all: intros [= <- <-]; cbn [disk files e_filename e_expiresAt e_cachedAt].
  all: eexists _, _, _.
  all: split; [apply lookup_insert_eq|].
  all: split; [rewrite lookup_fmap, lookup_insert_eq; reflexivity|].
  all: split; [rewrite lookup_insert_ne
                 by (intros E; apply Hne; now rewrite E);
               apply lookup_insert_eq|].
  all: repeat split; cbn.
  all: subst exp; destruct ttl as [t|]; [destruct (Z.eqb t 0);
            [|destruct (validTime (now + t))]|]; congruence.
Qed.

(** Reading an entry whose manifest record and blob are both in place. *)
Lemma getCached_hit url ign t st m entry d :
  files (disk st) !! manifestPath = Some (Json (DManifest m)) ->
  m !! generateCacheKey url = Some entry ->
  files (disk st) !! join getCacheDirectory (e_filename entry)
    = Some (Json (DBlob d)) ->
  getCached url ign t st =
    if (negb ign && isExpired entry t)%bool
    then Throw (CacheExpiredError url
                  (match e_expiresAt entry with Some x => x | None => 0 end))
    else Return (DBlob d).
Proof.
  intros Hm He Hb. unfold getCached, readManifest.
  rewrite Hm. cbn. rewrite He.
  destruct (negb ign && isExpired entry t)%bool; [reflexivity|].
  now rewrite Hb.
Qed.

(** The URL enters [getCached] through its key only, error payloads apart. *)
Lemma getCached_return_key a b ign t st d :
  generateCacheKey a = generateCacheKey b ->
  getCached a ign t st = Return d -> getCached b ign t st = Return d.
Proof.
  intros K. unfold getCached. rewrite K.
  destruct (readManifest st) as [p|e]; cbn; [|discriminate].
  destruct (p.1 !! generateCacheKey b) as [entry|]; [|discriminate].
  destruct (negb ign && isExpired entry t)%bool; [discriminate|].
  destruct (files (disk st) !! _) as [[doc|]|]; congruence.
Qed.

(** A ttl of 0 is falsy: like null it stores no expiry, and the entry
    is served at any later time. *)
Lemma setCache_ttl_zero_never_expires url (v : value) fmt now st entry st' t :
  setCache url v (Some 0) fmt now st = (Return entry, st') ->
  exists d specObj,
    getCached url false t st' = Return (DBlob d) /\
    parseIfString v = Return specObj /\
    cd_spec d = jsonRoundTrip specObj.
Proof.
  intros Hset.
  destruct (setCache_stored _ _ _ _ _ _ _ _ Hset)
    as (m & d & specObj & Hm & He & Hb & Hexp & _ & _ & Hspec).
  exists d, specObj. split; [|exact Hspec].
  rewrite (getCached_hit url false t st' m (jsonEntry entry) d Hm He Hb).
  unfold isExpired. cbn. now rewrite Hexp.
Qed.

(** C2 (amended). After [setCache(k, v, {ttl})] with a ttl other than 0
    has returned, [getCached(k)] at a time strictly before
    [cachedAt + ttl] returns the stored value as it is read back from
    the JSON text of the blob, which is the stored value itself when it
    is plain JSON data (the parsed value, when a string was given); at a
    time after [cachedAt + ttl] it fails with [CacheExpiredError], which
    is not [CacheNotFoundError]. *)
Theorem setCache_then_getCached url (v : value) ttl fmt now st entry st' t :
  ttl <> 0 ->
  setCache url v (Some ttl) fmt now st = (Return entry, st') ->
  e_cachedAt entry = now /\
  (t < e_cachedAt entry + ttl ->
     exists d stored,
       getCached url false t st' = Return (DBlob d) /\
       parseIfString v = Return stored /\
       cd_spec d = jsonRoundTrip stored /\
       (isJsonData stored = true -> cd_spec d = stored)) /\
  (e_cachedAt entry + ttl < t ->
     getCached url false t st'
       = Throw (CacheExpiredError url (e_cachedAt entry + ttl)) /\
     getCached url false t st' <> Throw (CacheNotFoundError url)).
Proof.
  intros Hnz Hset.
  destruct (setCache_stored _ _ _ _ _ _ _ _ Hset)
    as (m & d & stored & Hm & He & Hb & Hexp & Hat & _ & Hparse & Hspec).
  pose proof (getCached_hit url false t st' m (jsonEntry entry) d Hm He Hb)
    as Hget.
  unfold isExpired in Hget. cbn [jsonEntry e_expiresAt] in Hget.
  rewrite Hexp in Hget. cbn [negb andb] in Hget.
  destruct (Z.eqb_spec ttl 0) as [|_]; [contradiction|].
  split; [exact Hat|]. rewrite Hat. split; intros Ht.
  - exists d, stored. split; [|split; [exact Hparse|split; [exact Hspec|]]].
    + rewrite Hget. destruct (Z.ltb_spec (now + ttl) t); [lia|reflexivity].
    + intros Hdata. rewrite Hspec. now apply jsonRoundTrip_data.
  - rewrite Hget. destruct (Z.ltb_spec (now + ttl) t); [|lia].
    split; [reflexivity|discriminate].
Qed.

(** C7. The cache key is a function of the trimmed, lower-cased URL:
    a URL and its normal form have the same key, [getCached] on one
    returns exactly what it returns on the other, and a spec stored under
    one spelling is read back under any spelling with the same normal
    form. *)
Theorem cache_key_normalization_invariant :
  (forall s, generateCacheKey s
             = slice 16 (sha256_hex (toLowerCase (trim s)))) /\
  (forall s, generateCacheKey (toLowerCase (trim s)) = generateCacheKey s) /\
  generateCacheKey " FOO " = generateCacheKey "foo" /\
  (forall s ign now st doc,
     getCached s ign now st = Return doc <->
     getCached (toLowerCase (trim s)) ign now st = Return doc) /\
  (forall s s' v fmt now st entry st' t,
     toLowerCase (trim s) = toLowerCase (trim s') ->
     setCache s v None fmt now st = (Return entry, st') ->
     exists d, getCached s' false t st' = Return (DBlob d)).
Proof.
  split; [reflexivity|]. split; [exact key_normalized|].
  split; [now apply key_same_normal_form|]. split.
  - intros s ign now st doc. split; apply getCached_return_key;
      [symmetry|]; apply key_normalized.
  - intros s s' v fmt now st entry st' t Hn Hset.
    destruct (setCache_stored _ _ _ _ _ _ _ _ Hset)
      as (m & d & stored & Hm & He & Hb & Hexp & _).
    exists d. apply (getCached_return_key s s' _ _ _ _
                       (key_same_normal_form _ _ Hn)).
    rewrite (getCached_hit s false t st' m (jsonEntry entry) d Hm He Hb).
    unfold isExpired. cbn. now rewrite Hexp.
Qed.

(** C8 (amended). When the manifest has an entry for the key of the URL
    and the blob it names is absent from the disk, [getCached] fails with
    [CacheNotFoundError] if the entry has not expired or [ignoreExpired]
    is set, and with [CacheExpiredError] otherwise: the expiry check runs
    before the blob is read. It never fails with [CacheIOError]. *)
Theorem getCached_missing_blob url ign now st m entry :
  files (disk st) !! manifestPath = Some (Json (DManifest m)) ->
  m !! generateCacheKey url = Some entry ->
  files (disk st) !! join getCacheDirectory (e_filename entry) = None ->
  getCached url ign now st =
    (if (negb ign && isExpired entry now)%bool
     then Throw (CacheExpiredError url
                   (match e_expiresAt entry with Some x => x | None => 0 end))
     else Throw (CacheNotFoundError url)) /\
  (forall op path, getCached url ign now st <> Throw (CacheIOError op path)).
Proof.
  intros Hm He Hb.
  assert (E : getCached url ign now st =
    (if (negb ign && isExpired entry now)%bool
     then Throw (CacheExpiredError url
                   (match e_expiresAt entry with Some x => x | None => 0 end))
     else Throw (CacheNotFoundError url))).
  { unfold getCached, readManifest. rewrite Hm. cbn. rewrite He.
    destruct (negb ign && isExpired entry now)%bool; [reflexivity|].
    now rewrite Hb. }
  split; [exact E|]. intros op path. rewrite E.
  destruct (negb ign && isExpired entry now)%bool; discriminate.
Qed.

End CacheFacts.

Section CacheExamples.
Import Js Cache.

Import Example.

(** C2, counterexample: stored at time 1000 with a ttl of 0, the entry is
    still served at time 5000, long after [cachedAt + ttl]. *)
Lemma setCache_ttl_zero_not_expired :
  exists entry st',
    setCache (H:=Example.host) exampleUrl Example.petstore3 (Some 0)
      "json" 1000 Example.freshState = (Return entry, st') /\
    e_cachedAt entry + 0 < 5000 /\
    (exists d, getCached (H:=Example.host) exampleUrl false 5000 st'
               = Return (DBlob d)) /\
    getCached (H:=Example.host) exampleUrl false 5000 st'
      <> Throw (CacheExpiredError exampleUrl (e_cachedAt entry + 0)).
Proof.
  eexists _, _. split; [vm_compute; reflexivity|].
  split; [vm_compute; reflexivity|].
  split; [eexists; vm_compute; reflexivity|].
  vm_compute. discriminate.
Qed.

(** A spec with a member that holds undefined comes back from the
    cache without that member: the blob is JSON text. *)
Example setCache_drops_undefined_member :
  exists entry st' d,
    setCache (H:=Example.host) exampleUrl
      (VObj [("openapi", VStr "3.0.0"); ("example", VUndefined)])
      None "json" 1000 Example.freshState = (Return entry, st') /\
    getCached (H:=Example.host) exampleUrl false 2000 st'
    = Return (DBlob d) /\
    cd_spec d = VObj [("openapi", VStr "3.0.0")].
Proof.
  eexists _, _, _. split; [vm_compute; reflexivity|].
  split; vm_compute; reflexivity.
Qed.

Lemma setCache_then_getCached_witness :
  exists entry st',
    setCache (H:=Example.host) exampleUrl Example.petstore3 (Some 60000)
      "json" 1000 Example.freshState = (Return entry, st') /\
    (exists d, getCached (H:=Example.host) exampleUrl false 2000 st'
               = Return (DBlob d) /\
               cd_spec d = Example.petstore3) /\
    getCached (H:=Example.host) exampleUrl false 70000 st'
      = Throw (CacheExpiredError exampleUrl 61000).
Proof.
  eexists _, _. split; [vm_compute; reflexivity|].
  split.
  - destruct (proj1 (proj2 (setCache_then_getCached
      (H:=Example.host) exampleUrl Example.petstore3 60000 "json" 1000
      Example.freshState _ _ 2000 ltac:(lia) ltac:(vm_compute; reflexivity)))
      ltac:(vm_compute; reflexivity)) as (d & stored & Hget & Hparse & _ & Hd).
    exists d. split; [exact Hget|].
    injection Hparse as <-. apply Hd. reflexivity.
  - refine (proj1 (proj2 (proj2 (setCache_then_getCached
      (H:=Example.host) exampleUrl Example.petstore3 60000 "json" 1000
      Example.freshState _ _ 70000 ltac:(lia) ltac:(vm_compute; reflexivity)))
      ltac:(vm_compute; reflexivity))).
Defined.

Lemma cache_key_normalization_invariant_witness :
  generateCacheKey (H:=Example.host) " FOO "
  = generateCacheKey (H:=Example.host) "foo" /\
  exists entry st',
    setCache (H:=Example.host) exampleUrl Example.petstore3 None "json"
      1000 Example.freshState = (Return entry, st') /\
    exists d, getCached (H:=Example.host)
                "  HTTPS://API.Example.com/OpenAPI.json " false 5000 st'
              = Return (DBlob d).
Proof.
  split.
  - exact (proj1 (proj2 (proj2
             (cache_key_normalization_invariant (H:=Example.host))))).
  - eexists _, _. split; [vm_compute; reflexivity|].
    eapply (proj2 (proj2 (proj2 (proj2
             (cache_key_normalization_invariant (H:=Example.host)))))
             exampleUrl "  HTTPS://API.Example.com/OpenAPI.json "
             Example.petstore3 "json" 1000 Example.freshState _ _ 5000);
      vm_compute; reflexivity.
Defined.

(** C8, counterexample: the manifest names a blob that is missing and the
    entry expired at time 2000; at time 5000 [getCached] fails with
    [CacheExpiredError], not with [CacheNotFoundError]. *)
Lemma getCached_missing_blob_expired :
  let st := danglingState (Some 2000) in
  files (disk st) !! manifestPath (H:=Example.host)
    = Some (Json (DManifest (danglingManifest (Some 2000)))) /\
  danglingManifest (Some 2000) !! generateCacheKey (H:=Example.host) exampleUrl
    = Some (danglingEntry (Some 2000)) /\
  files (disk st) !! join (getCacheDirectory (H:=Example.host))
                          (e_filename (danglingEntry (Some 2000))) = None /\
  getCached (H:=Example.host) exampleUrl false 5000 st
    = Throw (CacheExpiredError exampleUrl 2000) /\
  getCached (H:=Example.host) exampleUrl false 5000 st
    <> Throw (CacheNotFoundError exampleUrl).
Proof.
  cbv zeta. repeat split; try (vm_compute; reflexivity).
  vm_compute. discriminate.
Qed.

Lemma getCached_missing_blob_witness :
  getCached (H:=Example.host) exampleUrl false 5000 (danglingState None)
    = Throw (CacheNotFoundError exampleUrl) /\
  getCached (H:=Example.host) exampleUrl true 5000 (danglingState (Some 2000))
    = Throw (CacheNotFoundError exampleUrl).
Proof.
  split.
  - exact (proj1 (getCached_missing_blob (H:=Example.host) exampleUrl false
             5000 (danglingState None) (danglingManifest None)
             (danglingEntry None) ltac:(vm_compute; reflexivity)
             ltac:(vm_compute; reflexivity) ltac:(vm_compute; reflexivity))).
  - exact (proj1 (getCached_missing_blob (H:=Example.host) exampleUrl true
             5000 (danglingState (Some 2000)) (danglingManifest (Some 2000))
             (danglingEntry (Some 2000)) ltac:(vm_compute; reflexivity)
             ltac:(vm_compute; reflexivity) ltac:(vm_compute; reflexivity))).
Defined.

End CacheExamples.

(** *** Validation *)

Section ValidationFacts.
Import Js.

(** The validator of the direct fetch accepts exactly what the
    validation policy describes. *)
Lemma openapi_validateSpec_sound spec url info :
  OpenAPI.validateSpec spec url = Return info ->
  (OpenAPI.i_type info = "openapi" /\
   (exists v, prop spec "openapi" = VStr v /\ startsWith v "3." = true /\
              OpenAPI.i_version info = v) /\
   truthy (prop spec "info") = true /\
   (truthy (prop spec "paths") || truthy (prop spec "webhooks") ||
    truthy (prop spec "components"))%bool = true) \/
  (OpenAPI.i_type info = "swagger" /\
   prop spec "swagger" = VStr "2.0" /\
   truthy (prop spec "info") = true /\
   truthy (prop spec "paths") = true).
Proof.
  unfold OpenAPI.validateSpec.
  destruct (negb (truthy spec) || negb (typeofObject spec))%bool; [discriminate|].
  destruct (OpenAPI.openapi3 spec) as [v|] eqn:E3.
  - destruct (truthy (prop spec "info")) eqn:Ei; cbn [negb]; [|discriminate].
    destruct (truthy (prop spec "paths")) eqn:Ep,
             (truthy (prop spec "webhooks")) eqn:Ew,
             (truthy (prop spec "components")) eqn:Ec;
      cbn [negb andb]; try discriminate.
    all: intros [= <-]; left; cbn; repeat split; try reflexivity.
    all: unfold OpenAPI.openapi3 in E3;
      destruct (prop spec "openapi") as [| | | |s| | |]; try discriminate;
      destruct (negb (isEmpty s) && startsWith s "3.")%bool eqn:Es;
      try discriminate; injection E3 as <-;
      apply andb_prop in Es as [_ Es]; eauto.
  - destruct (OpenAPI.swagger2 spec) eqn:E2; [|discriminate].
    destruct (truthy (prop spec "info")) eqn:Ei; cbn [negb]; [|discriminate].
    destruct (truthy (prop spec "paths")) eqn:Ep; cbn [negb]; [|discriminate].
    intros [= <-]. right. cbn. repeat split; try reflexivity.
    unfold OpenAPI.swagger2 in E2.
    destruct (prop spec "swagger") as [| | | |s| | |]; try discriminate.
    apply String.eqb_eq in E2. now subst.
Qed.

(** What the validators of the two rendered-page extractors accept: the
    same, but for the OpenAPI branch, which stops at the info field. *)
Lemma swaggerui_validateSpec_sound spec info :
  SwaggerUI.validateSpec spec = Some info ->
  (SwaggerUI.i_type info = "openapi" /\
   (exists v, prop spec "openapi" = VStr v /\ startsWith v "3." = true) /\
   truthy (prop spec "info") = true) \/
  (SwaggerUI.i_type info = "swagger" /\
   prop spec "swagger" = VStr "2.0" /\
   truthy (prop spec "info") = true /\
   truthy (prop spec "paths") = true).
Proof.
  unfold SwaggerUI.validateSpec.
  destruct (negb (truthy spec) || negb (typeofObject spec))%bool; [discriminate|].
  destruct (SwaggerUI.openapi3 spec) as [v|] eqn:E3.
  - destruct (truthy (prop spec "info")) eqn:Ei; cbn [negb]; [|discriminate].
    intros [= <-]. left. cbn. repeat split; try reflexivity.
    unfold SwaggerUI.openapi3 in E3.
    destruct (prop spec "openapi") as [| | | |s| | |]; try discriminate.
    destruct (negb (isEmpty s) && startsWith s "3.")%bool eqn:Es;
      try discriminate.
    apply andb_prop in Es as [_ Es]; eauto.
  - destruct (SwaggerUI.swagger2 spec) eqn:E2; [|discriminate].
    destruct (truthy (prop spec "info")) eqn:Ei; cbn [negb orb]; [|discriminate].
    destruct (truthy (prop spec "paths")) eqn:Ep; cbn [negb]; [|discriminate].
    intros [= <-]. right. cbn. repeat split; try reflexivity.
    unfold SwaggerUI.swagger2 in E2.
    destruct (prop spec "swagger") as [| | | |s| | |]; try discriminate.
    apply String.eqb_eq in E2. now subst.
Qed.

Lemma redoc_validateSpec_sound spec info :
  Redoc.validateSpec spec = Some info ->
  (Redoc.i_type info = "openapi" /\
   (exists v, prop spec "openapi" = VStr v /\ startsWith v "3." = true) /\
   truthy (prop spec "info") = true) \/
  (Redoc.i_type info = "swagger" /\
   prop spec "swagger" = VStr "2.0" /\
   truthy (prop spec "info") = true /\
   truthy (prop spec "paths") = true).
Proof.
  unfold Redoc.validateSpec.
  destruct (negb (truthy spec) || negb (typeofObject spec))%bool; [discriminate|].
  destruct (Redoc.openapi3 spec) as [v|] eqn:E3.
  - destruct (truthy (prop spec "info")) eqn:Ei; cbn [negb]; [|discriminate].
    intros [= <-]. left. cbn. repeat split; try reflexivity.
    unfold Redoc.openapi3 in E3.
    destruct (prop spec "openapi") as [| | | |s| | |]; try discriminate.
    destruct (negb (isEmpty s) && startsWith s "3.")%bool eqn:Es;
      try discriminate.
    apply andb_prop in Es as [_ Es]; eauto.
  - destruct (Redoc.swagger2 spec) eqn:E2; [|discriminate].
    destruct (truthy (prop spec "info")) eqn:Ei; cbn [negb orb]; [|discriminate].
    destruct (truthy (prop spec "paths")) eqn:Ep; cbn [negb]; [|discriminate].
    intros [= <-]. right. cbn. repeat split; try reflexivity.
    unfold Redoc.swagger2 in E2.
    destruct (prop spec "swagger") as [| | | |s| | |]; try discriminate.
    apply String.eqb_eq in E2. now subst.
Qed.

(** A document declaring [openapi: 2.0] and no [swagger] field is
    rejected by the three validators. *)
Lemma openapi2_rejected_everywhere spec url :
  prop spec "openapi" = VStr "2.0" ->
  prop spec "swagger" = VUndefined ->
  isThrow (OpenAPI.validateSpec spec url) = true /\
  SwaggerUI.validateSpec spec = None /\
  Redoc.validateSpec spec = None.
Proof.
  intros Ho Hs.
  unfold OpenAPI.validateSpec, SwaggerUI.validateSpec, Redoc.validateSpec,
    OpenAPI.openapi3, SwaggerUI.openapi3, Redoc.openapi3,
    OpenAPI.swagger2, SwaggerUI.swagger2, Redoc.swagger2.
  rewrite Ho, Hs. cbn.
  destruct (negb (truthy spec) || negb (typeofObject spec))%bool; auto.
Qed.

(** C3, at the failing input. A document declaring [openapi: 3.0.0] with
    an info object and none of paths, webhooks and components is rejected
    by the validator of the direct fetch, and accepted as OpenAPI by the
    validators of the Swagger UI and Redoc extractors, which never look
    at those three fields. *)
Theorem validateSpec_info_only_accepted :
  OpenAPI.validateSpec Example.infoOnly3 Example.exampleUrl
    = Throw (InvalidSpecError Example.exampleUrl
               "Missing paths, webhooks, or components") /\
  SwaggerUI.validateSpec Example.infoOnly3
    = Some {| SwaggerUI.i_type := "openapi"; SwaggerUI.i_version := "3.0.0";
              SwaggerUI.i_title := VStr "Pets";
              SwaggerUI.i_apiVersion := VStr "unknown" |} /\
  Redoc.validateSpec Example.infoOnly3
    = Some {| Redoc.i_type := "openapi"; Redoc.i_version := "3.0.0";
              Redoc.i_title := VStr "Pets";
              Redoc.i_apiVersion := VStr "unknown" |} /\
  truthy (prop Example.infoOnly3 "paths") = false /\
  truthy (prop Example.infoOnly3 "webhooks") = false /\
  truthy (prop Example.infoOnly3 "components") = false.
Proof. repeat split; reflexivity. Qed.

(** The documents of the spec's example: the 3.0.0 one passes as
    OpenAPI, the one with [openapi: 2.0] fails. *)
Example petstore3_valid :
  OpenAPI.validateSpec Example.petstore3 Example.exampleUrl
  = Return {| OpenAPI.i_type := "openapi"; OpenAPI.i_version := "3.0.0";
              OpenAPI.i_title := VStr "Pets";
              OpenAPI.i_apiVersion := VStr "unknown" |}.
Proof. reflexivity. Qed.

Example openapi2_invalid :
  isThrow (OpenAPI.validateSpec Example.openapi2 Example.exampleUrl) = true /\
  SwaggerUI.validateSpec Example.openapi2 = None /\
  Redoc.validateSpec Example.openapi2 = None.
Proof. now apply openapi2_rejected_everywhere. Qed.

End ValidationFacts.

(** *** Direct fetch and path probing *)

Section ProbingFacts.
Import Js Net OpenAPI Spec.
Context `{Host}.

(** [tryFetchSpec] never throws: its catch block returns null on every
    path. *)
Lemma tryFetchSpec_returns net url history :
  exists r, tryFetchSpec net url history = (Return r, (history ++ [url])%list).
Proof.
  unfold tryFetchSpec, tryCatch.
  destruct (tryFetchSpecBody (net history url) url) as [r|e]; [eauto|].
  exists None. destruct (isAbortError e), (isParseOrInvalidSpecError e);
    reflexivity.
Qed.




(** The loop never throws. *)
Lemma probePaths_returns net base paths :
  forall history, exists r h, probePaths net base paths history = (Return r, h).
Proof.
  induction paths as [|q rest IH]; intros history; cbn [probePaths];
    [eauto|].
  destruct (tryFetchSpec_returns net (base ++ q) history) as [[res|] ->];
    [eauto|apply IH].
Qed.




(** What the parsing policy rejects fails in the parser or, when the
    parser returns a value that is no object, in the validator: a parse
    failure by the policy is a failed probe. *)
Lemma parse_failure_fails r content url :
  r_text r = Return content ->
  parsedByPolicy content url = None ->
  ProbeFails (Responded r) url.
Proof.
  intros Ht Hp. unfold ProbeFails. right. rewrite Ht. right.
  assert (Hv : forall v, isObject v = false ->
                         isThrow (validateSpec v url) = true)
    by (intros [] Hx; try discriminate; unfold validateSpec; cbn;
        rewrite ?orb_true_r; reflexivity).
  assert (Hy : yaml_load (trim content) = None \/
               (exists v, yaml_load (trim content) = Some v /\
                          isObject v = false) ->
               isThrow (parseYaml (trim content) url) = true \/
               exists p, parseYaml (trim content) url = Return p /\
                         isThrow (validateSpec (p_spec p) url) = true).
  { unfold parseYaml. intros [->|(v & -> & Ho)]; [now left|].
    destruct (isNonNullObject v); [right|now left].
    eexists. split; [reflexivity|now apply Hv]. }
  revert Hp.
  unfold parsedByPolicy, looksJsonShaped, hasJsonExtension, parseSpecContent.
  destruct (startsWith (trim content) "{"),
           (endsWith (toLowerCase url) ".json"); cbn [orb].
  all: try (destruct (JSON_parse (trim content)) as [v|];
            [destruct (isObject v) eqn:Ho; [discriminate|]; intros _;
             right; eexists; split; [reflexivity|now apply Hv]|]).
  all: try (intros _; now left).
  all: destruct (yaml_load (trim content)) as [v|];
    [destruct (isObject v) eqn:Ho; [discriminate|]; intros _; apply Hy;
     right; eauto|intros _; apply Hy; now left].
Qed.




End ProbingFacts.

Section ProbingExamples.
Import Js Net OpenAPI Spec Example.





End ProbingExamples.

(** *** Logged events *)

Section TraceFacts.
Import Js Spec.

Context (P : Event -> Prop).

Lemma logs_ret {A} (a : A) : Logs P (Trace.ret a).
Proof. constructor. Qed.

Lemma logs_throw {A} e : Logs P (@Trace.throw A e).
Proof. constructor. Qed.

Lemma logs_lift {A} (o : outcome A) : Logs P (Trace.lift o).
Proof. constructor. Qed.

Lemma logs_emit ev : P ev -> Logs P (Trace.emit ev).
Proof. intros Hp. repeat constructor. exact Hp. Qed.

Lemma logs_bind {A B} (m : Trace.M A) (k : A -> Trace.M B) :
  Logs P m -> (forall a, Logs P (k a)) -> Logs P (Trace.bind m k).
Proof.
  unfold Logs. destruct m as [[a|e] l]; cbn; intros Hm Hk; [|exact Hm].
  specialize (Hk a). destruct (k a) as [r l']. cbn in *.
  apply Forall_app. now split.
Qed.

Lemma logs_catch {A} (m : Trace.M A) (h : exn -> Trace.M A) :
  Logs P m -> (forall e, Logs P (h e)) -> Logs P (Trace.catch m h).
Proof.
  unfold Logs. destruct m as [[a|e] l]; cbn; intros Hm Hh; [exact Hm|].
  specialize (Hh e). destruct (h e) as [r l']. cbn in *.
  apply Forall_app. now split.
Qed.

Lemma logs_finally {A} (m : Trace.M A) (f : Trace.M unit) :
  Logs P m -> Logs P f -> Logs P (Trace.finally m f).
Proof.
  unfold Logs, Trace.finally. destruct f as [[[]|e] l]; cbn; intros;
    apply Forall_app; now split.
Qed.

Lemma logs_closePage {Page} (browser : Browser.Session Page) :
  P EvClosePage -> Logs P (Browser.closePage browser).
Proof.
  intros Hp. unfold Browser.closePage.
  destruct (Browser.getPage browser); [|apply logs_ret].
  destruct (Browser.isClosed browser); [apply logs_ret|].
  apply logs_bind; [now apply logs_emit|intros; apply logs_lift].
Qed.

Lemma logs_closePageQuietly {Page} (browser : Browser.Session Page) :
  P EvClosePage -> Logs P (Browser.closePageQuietly browser).
Proof.
  intros Hp. apply logs_catch; [now apply logs_closePage|].
  intros; apply logs_ret.
Qed.

End TraceFacts.

(** *** The cleanup *)

Section CleanupFacts.
Import Js Browser.
Context {Page : Type}.

Lemma closePage_log (browser : Session Page) :
  snd (closePage browser) = closeLog browser.
Proof.
  unfold closePage, closeLog. destruct (getPage browser); [|reflexivity].
  destruct (isClosed browser); [reflexivity|].
  cbn. now destruct (close browser).
Qed.

(** The cleanup throws only what [page.close] throws. *)
Lemma closePage_throws (browser : Session Page) e :
  fst (closePage browser) = Throw e ->
  (exists u, getPage browser = Return u) /\ isClosed browser = false /\
  close browser = Throw e.
Proof.
  unfold closePage. destruct (getPage browser) as [u|]; [|discriminate].
  destruct (isClosed browser); [discriminate|]. cbn.
  destruct (close browser); [discriminate|]. cbn. intros [= ->]. eauto.
Qed.

Lemma closePage_returns (browser : Session Page) :
  (isClosed browser = true \/ close browser = Return tt) ->
  closePage browser = (Return tt, closeLog browser).
Proof.
  unfold closePage, closeLog. destruct (getPage browser); [|reflexivity].
  intros [-> | Hc]; [reflexivity|].
  destruct (isClosed browser); [reflexivity|]. now rewrite Hc.
Qed.

Lemma closePage_fails (browser : Session Page) u e :
  getPage browser = Return u -> isClosed browser = false ->
  close browser = Throw e ->
  closePage browser = (Throw e, [EvClosePage]).
Proof. unfold closePage. now intros -> -> ->. Qed.

(** Wrapped in [try { } catch { }], the cleanup never throws. *)
Lemma closePageQuietly_returns (browser : Session Page) :
  closePageQuietly browser = (Return tt, closeLog browser).
Proof.
  unfold closePageQuietly, closePage, closeLog.
  destruct (getPage browser); [|reflexivity].
  destruct (isClosed browser); [reflexivity|]. cbn.
  now destruct (close browser) as [[]|].
Qed.

Lemma finally_returns {A} (m : Trace.M A) f l :
  f = (Return tt, l) -> Trace.finally m f = (fst m, (snd m ++ l)%list).
Proof. now intros ->. Qed.

Lemma finally_fails {A} (m : Trace.M A) f e l :
  f = (Throw e, l) -> Trace.finally m f = (Throw e, (snd m ++ l)%list).
Proof. now intros ->. Qed.

Lemma finally_log {A} (m : Trace.M A) f :
  snd (Trace.finally m f) = (snd m ++ snd f)%list.
Proof. unfold Trace.finally. now destruct f as [[|] l]. Qed.

(** A [finally] returns what its body returned. *)
Lemma finally_return {A} (m : Trace.M A) f a :
  fst (Trace.finally m f) = Return a -> fst m = Return a.
Proof.
  unfold Trace.finally. destruct f as [[u|e'] l]; cbn; [auto|discriminate].
Qed.

(** What escapes a [finally]: the error of the body, or the error of the
    cleanup. *)
Lemma finally_throws {A} (m : Trace.M A) f e :
  fst (Trace.finally m f) = Throw e -> fst m = Throw e \/ fst f = Throw e.
Proof.
  unfold Trace.finally. destruct f as [[u|e'] l]; cbn; intros Hf;
    [left; exact Hf|right; now injection Hf as ->].
Qed.

End CleanupFacts.

(** One step through a logging computation. *)
Ltac logs_step :=
  first
    [ apply logs_ret | apply logs_throw | apply logs_lift
    | apply logs_emit; discriminate
    | apply logs_bind; [|intros ?]
    | apply logs_catch; [|intros ?]
    | apply logs_finally;
      [|first [apply logs_closePage|apply logs_closePageQuietly];
        discriminate] ].

(** *** The authentication check *)

Section AuthFacts.
Import Js Browser Spec.

(** The scraper never looks for an authentication wall, whatever the
    page and the framework. *)
Lemma extractEndpoints_no_auth_check page framework url :
  Logs notAuthCheck (DocsScraper.extractEndpoints page framework url).
Proof.
  unfold DocsScraper.extractEndpoints,
    DocsScraper.extractSwaggerUiEndpoints, DocsScraper.extractRedocEndpoints,
    DocsScraper.extractScalarEndpoints, DocsScraper.extractGenericEndpoints,
    notAuthCheck.
  apply logs_catch; [|intros; apply logs_throw].
  repeat match goal with
         | |- Logs _ (if ?b then _ else _) => destruct b
         | |- Logs _ (match ?x with _ => _ end) => destruct x
         | |- Logs _ (let '(_, _) := ?x in _) => destruct x
         | |- _ => logs_step
         end.
Qed.

Lemma scrapeEndpoints_logs_no_auth_check browser url forced now :
  Logs notAuthCheck (DocsScraper.scrapeEndpoints browser url forced now).
Proof.
  unfold DocsScraper.scrapeEndpoints, DocsScraper.extractApiInfo.
  apply logs_finally; [|apply logs_closePage; discriminate].
  apply logs_catch;
    [|intros e; destruct (DocsScraper.isScraperError e); apply logs_throw].
  repeat match goal with
         | |- Logs _ (DocsScraper.extractEndpoints _ _ _) =>
             apply extractEndpoints_no_auth_check
         | |- Logs _ (if ?b then _ else _) => destruct b
         | |- Logs _ (match ?x with _ => _ end) => destruct x
         | |- _ => unfold notAuthCheck; logs_step; fold notAuthCheck
         end.
Qed.

(** What [scrapeEndpoints] can throw: its own two errors and
    PageLoadError, or whatever [page.close] throws in the cleanup; an
    authentication error of its own making is not among them. *)
Lemma scrapeEndpoints_throws browser url forced now e :
  fst (DocsScraper.scrapeEndpoints browser url forced now) = Throw e ->
  DocsScraper.isScraperError e = true \/ e = ScraperPageLoadError url \/
  close browser = Throw e.
Proof.
  unfold DocsScraper.scrapeEndpoints. intros Hf.
  apply finally_throws in Hf as [Hf|Hf];
    [|apply closePage_throws in Hf as (_ & _ & Hc); auto].
  revert Hf. unfold Trace.catch.
  match goal with |- context [match ?m with _ => _ end] => destruct m as [[r|e0] l] end;
    cbn; [discriminate|].
  destruct (DocsScraper.isScraperError e0) eqn:E; cbn; intros [= <-]; auto.
Qed.

(** On a page with authentication signals the Swagger UI extractor stops
    right after the check: no strategy has looked at the page. *)
Lemma swagger_auth_wall_aborts `{Host} browser url page :
  getPage browser = Return tt ->
  goto browser (normalizeUrl url) = Return page ->
  SwaggerUI.detectAuthRequired page = true ->
  SwaggerUI.extractFromSwaggerUI browser url
  = (Throw (SwaggerUIAuthenticationRequiredError (normalizeUrl url)),
     ([EvGetPage; EvIntercept; EvGoto (normalizeUrl url); EvAuthCheck]
      ++ closeLog browser)%list).
Proof.
  intros Hg Hn Ha. unfold SwaggerUI.extractFromSwaggerUI.
  rewrite (finally_returns _ _ _ (closePageQuietly_returns browser)).
  rewrite Hg, Hn. cbn. rewrite Ha. reflexivity.
Qed.

Lemma redoc_auth_wall_aborts `{Host} net browser url page :
  getPage browser = Return tt ->
  goto browser (normalizeUrl url) = Return page ->
  Redoc.detectAuthRequired page = true ->
  Redoc.extractFromRedoc net browser url
  = (Throw (RedocAuthenticationRequiredError (normalizeUrl url)),
     ([EvGetPage; EvIntercept; EvGoto (normalizeUrl url); EvAuthCheck]
      ++ closeLog browser)%list).
Proof.
  intros Hg Hn Ha. unfold Redoc.extractFromRedoc.
  rewrite (finally_returns _ _ _ (closePageQuietly_returns browser)).
  rewrite Hg, Hn. cbn. rewrite Ha. reflexivity.
Qed.

(** Every signal the spec names is enough for the two extractors. *)
Lemma auth_signals_detected (a : AuthSignals) :
  (as_passwordInput a = true \/ as_loginForm a = true) ->
  SwaggerUI.authIndicators a = true /\ Redoc.authIndicators a = true.
Proof.
  unfold SwaggerUI.authIndicators, Redoc.authIndicators.
  intros [-> | ->]; cbn; rewrite ?orb_true_r; auto.
Qed.

(** C5, at the failing input. The login wall of the examples has a
    password field, a login form and sign-in wording. The Swagger UI and
    Redoc extractors abort on it with their AuthenticationRequired
    errors. [scrapeEndpoints] runs no authentication check on any page:
    it logs no such event and throws no such error of its own (what it
    throws is one of its three errors, or what [page.close] threw in the
    cleanup); on the login wall it detects a generic page and returns
    the one endpoint named in the help text. *)
Theorem scrapeEndpoints_skips_auth_check :
  (forall browser url forced now,
     Logs notAuthCheck (DocsScraper.scrapeEndpoints browser url forced now) /\
     forall e, fst (DocsScraper.scrapeEndpoints browser url forced now)
               = Throw e ->
               DocsScraper.isScraperError e = true \/
               e = ScraperPageLoadError url \/
               close browser = Throw e) /\
  SwaggerUI.extractFromSwaggerUI (H:=Example.host)
    (Example.always Example.swaggerLoginPage) Example.docsUrl
  = (Throw (SwaggerUIAuthenticationRequiredError Example.docsUrl),
     [EvGetPage; EvIntercept; EvGoto Example.docsUrl; EvAuthCheck;
      EvClosePage]) /\
  Redoc.extractFromRedoc (H:=Example.host)
    (Example.serving Example.exampleUrl Example.empty_json)
    (Example.always Example.redocLoginPage) Example.docsUrl
  = (Throw (RedocAuthenticationRequiredError Example.docsUrl),
     [EvGetPage; EvIntercept; EvGoto Example.docsUrl; EvAuthCheck;
      EvClosePage]) /\
  DocsScraper.scrapeEndpoints (Example.always Example.loginPage)
    Example.docsUrl None 1000
  = (Return {| DocsScraper.sr_url := Example.docsUrl;
               DocsScraper.sr_framework := "generic";
               DocsScraper.sr_apiInfo := Example.noApiInfo;
               DocsScraper.sr_endpoints :=
                 [DocsScraper.domEndpoint "GET" "/api/users" EmptyString];
               DocsScraper.sr_extractedAt := 1000 |},
     [EvGetPage; EvGoto Example.docsUrl; EvLayer "detectFramework";
      EvLayer "generic DOM"; EvClosePage]).
Proof.
  split; [|repeat split; vm_compute; reflexivity].
  intros browser url forced now. split.
  - apply scrapeEndpoints_logs_no_auth_check.
  - apply scrapeEndpoints_throws.
Qed.

End AuthFacts.

(** *** Deduplication in the DOM heuristics *)

Section DedupFacts.
Import Js DocsScraper Spec.

Lemma deduped_start : Deduped ∅ [].
Proof. split; [intros e He; inversion He|constructor]. Qed.

Lemma deduped_push seen endpoints m p d :
  Deduped seen endpoints -> key m p ∉ seen ->
  Deduped ({[key m p]} ∪ seen) (domEndpoint m p d :: endpoints).
Proof.
  intros [Hin Hnd] Hk. split.
  - intros e He. apply elem_of_cons in He as [->|He]; [set_solver|].
    specialize (Hin e He). set_solver.
  - cbn [map]. apply NoDup_cons. split; [|exact Hnd].
    intros Hc. apply Hk.
    apply (list_elem_of_fmap keyOf) in Hc as (e & Hke & He).
    change (keyOf (domEndpoint m p d)) with (key m p) in Hke.
    rewrite Hke. now apply Hin.
Qed.

Lemma scalarOperationLoop_step op rest seen endpoints :
  scalarOperationLoop (op :: rest) seen endpoints =
  match blockCandidate op with
  | Some (m, p, d) =>
      if decide (key m p ∈ seen) then scalarOperationLoop rest seen endpoints
      else scalarOperationLoop rest ({[key m p]} ∪ seen)
             (domEndpoint m p d :: endpoints)
  | None => scalarOperationLoop rest seen endpoints
  end.
Proof.
  cbn [scalarOperationLoop]. unfold blockCandidate.
  destruct (option_map _ (ob_method op)) as [m|]; [|reflexivity].
  destruct (option_map trim (ob_path op)) as [p|]; [|reflexivity].
  now destruct (negb (isEmpty m) && negb (isEmpty p) && inList m SCALAR_METHODS)%bool.
Qed.

Lemma scalarOperationLoop_deduped ops :
  forall seen endpoints,
    Deduped seen endpoints ->
    Deduped (fst (scalarOperationLoop ops seen endpoints))
            (snd (scalarOperationLoop ops seen endpoints)).
Proof.
  induction ops as [|op rest IH]; intros seen endpoints Hd; [exact Hd|].
  rewrite scalarOperationLoop_step.
  destruct (blockCandidate op) as [[[m p] d]|]; [|now apply IH].
  destruct (decide (key m p ∈ seen)); [now apply IH|].
  apply IH. now apply deduped_push.
Qed.

Lemma addUnseen_deduped candidates :
  Forall wellKeyed candidates ->
  forall seen endpoints,
    Deduped seen endpoints ->
    Deduped (fst (addUnseen candidates seen endpoints))
            (snd (addUnseen candidates seen endpoints)).
Proof.
  induction 1 as [|[[k m] p] rest Hk _ IH]; intros seen endpoints Hd;
    [exact Hd|].
  cbn [addUnseen]. unfold wellKeyed in Hk. cbn in Hk. subst k.
  destruct (decide (key m p ∈ seen)); [now apply IH|].
  apply IH. now apply deduped_push.
Qed.

Lemma scalarNavCandidates_wellKeyed items :
  Forall wellKeyed (scalarNavCandidates items).
Proof.
  induction items as [|t rest IH]; cbn; [constructor|].
  destruct (Regex.matchMethodSlashPath BODY_METHODS t) as [[m p]|];
    [constructor; [reflexivity|exact IH]|exact IH].
Qed.

Lemma bodyCandidates_wellKeyed methods cls text :
  Forall wellKeyed (bodyCandidates methods cls text).
Proof.
  unfold bodyCandidates. apply Forall_fmap, Forall_forall.
  intros [m p] _. reflexivity.
Qed.

(** The Scalar DOM extraction returns no two endpoints with the same
    method and path. *)
Lemma scalarDomEndpoints_no_duplicates page es :
  scalarDomEndpoints page = Return es -> NoDup (map keyOf es).
Proof.
  unfold scalarDomEndpoints.
  pose proof (scalarOperationLoop_deduped (pg_scalarOperations page) ∅ []
                deduped_start) as H1.
  destruct (scalarOperationLoop (pg_scalarOperations page) ∅ [])
    as [seen1 eps1]. cbn in H1.
  assert (H2 : forall seen2 eps2,
    (seen2, eps2) = match eps1 with
                    | [] => addUnseen (scalarNavCandidates (pg_navItems page))
                              seen1 eps1
                    | _ => (seen1, eps1)
                    end -> Deduped seen2 eps2).
  { intros seen2 eps2 E. destruct eps1 as [|e0 r0].
    - pose proof (addUnseen_deduped _
        (scalarNavCandidates_wellKeyed (pg_navItems page)) seen1 [] H1) as Hn.
      rewrite <- E in Hn. exact Hn.
    - injection E as -> ->. exact H1. }
  set (stage2 := match eps1 with [] => _ | _ => _ end) in *.
  destruct stage2 as [seen2 eps2]. specialize (H2 seen2 eps2 eq_refl).
  assert (Hrev : forall l, NoDup (map keyOf l) -> NoDup (map keyOf (rev l))).
  { intros l Hl. rewrite map_rev. apply NoDup_ListNoDup, List.NoDup_rev.
    now apply NoDup_ListNoDup. }
  destruct eps2 as [|e2 r2].
  - destruct (pg_bodyInnerText page) as [bodyText|]; [|discriminate].
    intros [= <-]. apply Hrev.
    apply (addUnseen_deduped _ (bodyCandidates_wellKeyed _ _ bodyText)
             seen2 [] H2).
  - intros [= <-]. apply (Hrev (e2 :: r2)). apply H2.
Qed.

Lemma scalarOperationLoop_app a b :
  forall seen endpoints,
    scalarOperationLoop (a ++ b) seen endpoints
    = scalarOperationLoop b
        (fst (scalarOperationLoop a seen endpoints))
        (snd (scalarOperationLoop a seen endpoints)).
Proof.
  induction a as [|op rest IH]; intros seen endpoints; [reflexivity|].
  rewrite <- app_comm_cons, !scalarOperationLoop_step.
  destruct (blockCandidate op) as [[[m p] d]|]; [|apply IH].
  destruct (decide (key m p ∈ seen)); apply IH.
Qed.

(** The array only grows. *)
Lemma scalarOperationLoop_keeps ops :
  forall seen endpoints e,
    e ∈ endpoints -> e ∈ snd (scalarOperationLoop ops seen endpoints).
Proof.
  induction ops as [|op rest IH]; intros seen endpoints e He; [exact He|].
  rewrite scalarOperationLoop_step.
  destruct (blockCandidate op) as [[[m p] d]|]; [|now apply IH].
  destruct (decide (key m p ∈ seen)); apply IH; [exact He|].
  now apply list_elem_of_further.
Qed.

(** A key enters the Set only with a block that carries it. *)
Lemma scalarOperationLoop_seen ops :
  forall seen endpoints k,
    k ∈ fst (scalarOperationLoop ops seen endpoints) ->
    k ∈ seen \/
    exists op m p d, op ∈ ops /\ blockCandidate op = Some (m, p, d) /\
                     k = key m p.
Proof.
  induction ops as [|op rest IH]; intros seen endpoints k Hk; [now left|].
  rewrite scalarOperationLoop_step in Hk.
  assert (Hrest : forall s eps,
    k ∈ fst (scalarOperationLoop rest s eps) ->
    k ∈ s \/ exists op0 m p d, op0 ∈ op :: rest /\
                blockCandidate op0 = Some (m, p, d) /\ k = key m p).
  { intros s eps Hs. destruct (IH s eps k Hs) as [?|(op0 & m & p & d & Hin & Hc & ->)];
      [now left|right].
    exists op0, m, p, d. split; [now apply list_elem_of_further|auto]. }
  destruct (blockCandidate op) as [[[m p] d]|] eqn:Ec; [|now apply Hrest in Hk].
  destruct (decide (key m p ∈ seen)); [now apply Hrest in Hk|].
  apply Hrest in Hk as [Hk|Hk]; [|now right].
  apply elem_of_union in Hk as [Hk|Hk]; [|now left].
  apply elem_of_singleton in Hk as ->. right.
  exists op, m, p, d. split; [apply list_elem_of_here|auto].
Qed.

(** The key of a method of the list and a path determines both. *)
Lemma key_inj m p m' p' :
  inList m SCALAR_METHODS = true -> inList m' SCALAR_METHODS = true ->
  key m p = key m' p' -> m = m' /\ p = p'.
Proof.
  unfold inList, SCALAR_METHODS, key. cbn [existsb].
  intros Hm Hm' Hk.
  repeat (apply orb_prop in Hm as [Hm|Hm]); try discriminate;
    repeat (apply orb_prop in Hm' as [Hm'|Hm']); try discriminate;
    apply String.eqb_eq in Hm, Hm'; subst; cbn in Hk;
    try discriminate;
    (split; [reflexivity|now do 2 apply string_app_inv_head in Hk]).
Qed.

Lemma blockCandidate_method op m p d :
  blockCandidate op = Some (m, p, d) -> inList m SCALAR_METHODS = true.
Proof.
  unfold blockCandidate.
  destruct (option_map _ (ob_method op)) as [m0|]; [|discriminate].
  destruct (option_map trim (ob_path op)) as [p0|]; [|discriminate].
  destruct (negb (isEmpty m0) && negb (isEmpty p0) && inList m0 SCALAR_METHODS)%bool
    eqn:E; [|discriminate].
  intros [= <- _ _]. now apply andb_prop in E as [_ E].
Qed.

Lemma nodup_fmap_inj {A B} (f : A -> B) (l : list A) x y :
  NoDup (map f l) -> x ∈ l -> y ∈ l -> f x = f y -> x = y.
Proof.
  intros Hnd Hx Hy Hf.
  apply list_elem_of_lookup in Hx as [i Hi].
  apply list_elem_of_lookup in Hy as [j Hj].
  assert (Hi' : map f l !! i = Some (f x)) by (change (map f l) with (f <$> l); now rewrite list_lookup_fmap, Hi).
  assert (Hj' : map f l !! j = Some (f x)) by (change (map f l) with (f <$> l); now rewrite list_lookup_fmap, Hj, Hf).
  pose proof (NoDup_lookup _ _ _ _ Hnd Hi' Hj') as ->. congruence.
Qed.

(** In the Scalar DOM extraction the entry kept for a method and path is
    the one of the first block that carries them, with its description. *)
Lemma scalarDomEndpoints_first_seen page pre op post m p d es :
  pg_scalarOperations page = (pre ++ op :: post)%list ->
  blockCandidate op = Some (m, p, d) ->
  (forall op' d', op' ∈ pre -> blockCandidate op' <> Some (m, p, d')) ->
  scalarDomEndpoints page = Return es ->
  domEndpoint m p d ∈ es /\
  forall e, e ∈ es -> method e = m -> path e = p -> e = domEndpoint m p d.
Proof.
  intros Hops Hc Hfirst Hrun.
  pose proof (scalarDomEndpoints_no_duplicates page es Hrun) as Hnd.
  assert (Hin : domEndpoint m p d ∈ es).
  { unfold scalarDomEndpoints in Hrun. rewrite Hops in Hrun.
    rewrite scalarOperationLoop_app, scalarOperationLoop_step, Hc in Hrun.
    destruct (scalarOperationLoop pre ∅ []) as [s1 e1] eqn:Epre.
    cbn [fst snd] in Hrun.
    destruct (decide (key m p ∈ s1)) as [Hk|Hk].
    { exfalso.
      pose proof (scalarOperationLoop_seen pre ∅ [] (key m p)) as Hs.
      rewrite Epre in Hs. destruct (Hs Hk) as [Hs1|(op' & m' & p' & d' & Hi & Hc' & Hkk)];
        [set_solver|].
      apply key_inj in Hkk as [-> ->];
        eauto using blockCandidate_method.
      exact (Hfirst op' d' Hi Hc'). }
    pose proof (scalarOperationLoop_keeps post ({[key m p]} ∪ s1)
                  (domEndpoint m p d :: e1) (domEndpoint m p d)
                  ltac:(apply list_elem_of_here)) as Hkeep.
    destruct (scalarOperationLoop post _ _) as [seen1 eps1].
    cbn [snd] in Hkeep.
    destruct eps1 as [|e0 r0]; [inversion Hkeep|].
    injection Hrun as <-. apply list_elem_of_In.
    apply (proj1 (in_rev (e0 :: r0) _)). now apply list_elem_of_In. }
  split; [exact Hin|]. intros e He Hm Hp.
  apply (nodup_fmap_inj keyOf es); auto.
  unfold keyOf. now rewrite Hm, Hp.
Qed.

(** C6, at the failing input. Two operation blocks carry the same
    method and path, GET /pets, with different descriptions. The DOM
    extractions of Redoc and of Swagger UI return both, as two entries;
    only the one of Scalar, which keeps a Set of the keys it has seen,
    returns a single entry with the first description. *)
Theorem redoc_dom_keeps_duplicates :
  redocDomEndpoints Example.duplicatePage
  = [domEndpoint "GET" "/pets" "List all pets";
     domEndpoint "GET" "/pets" "Returns every pet"] /\
  fst (extractEndpoints Example.duplicatePage "redoc" Example.docsUrl)
  = Return [domEndpoint "GET" "/pets" "List all pets";
            domEndpoint "GET" "/pets" "Returns every pet"] /\
  swaggerDomEndpoints (pg_opblocks Example.duplicatePage)
  = [domEndpoint "GET" "/pets" "List all pets";
     domEndpoint "GET" "/pets" "Returns every pet"] /\
  scalarDomEndpoints Example.duplicatePage
  = Return [domEndpoint "GET" "/pets" "List all pets"].
Proof. repeat split; vm_compute; reflexivity. Qed.

End DedupFacts.

(** *** Discovery *)

Section DiscoveryFacts.
Import Js Browser ApiTracker Spec.

Lemma score_nonneg slug text parentText q : 0 <= score slug text parentText q.
Proof.
  unfold score.
  repeat match goal with |- context [if ?b then _ else _] => destruct b end; lia.
Qed.

Lemma collectResults_none links q :
  Forall (fun l => candidateScore l q = 0) links ->
  collectResults (filter (fun l => includes (l_href l) "/a/" = true) links) q
  = [].
Proof.
  induction 1 as [|link rest Hs _ IH]; [reflexivity|].
  rewrite filter_cons. destruct (decide _); [|exact IH].
  cbn [collectResults]. unfold candidateScore in Hs.
  destruct (slugOf (l_href link)); [|exact IH].
  rewrite Hs. exact IH.
Qed.

Lemma direct_not_search q : EvGoto (searchUrlOf q) <> EvGoto (directUrlOf q).
Proof.
  unfold searchUrlOf, directUrlOf. intros [= E].
Qed.

(** The direct page of [searchProvider] when it is no hit: control
    falls through to the search. *)
Lemma direct_miss direct q :
  DirectMiss direct q ->
  (if (match pg_response direct with Some ok => ok | None => false end
       && includes (pg_url direct) "/a/")%bool
   then match extractDocsFromApiPage direct q with
        | Return r => Trace.ret (Some r)
        | Throw error =>
            if isDocsUrlNotFoundError error
            then Trace.ret None else Trace.throw error
        end
   else Trace.ret None) = Trace.ret None.
Proof.
  intros [-> | [provider ->]]; [reflexivity|]. now destruct (_ && _)%bool.
Qed.

(** [searchProvider] up to its cleanup. *)
Lemma searchProvider_cleanup browser query :
  exists body, searchProvider browser query
               = Trace.finally body (closePage browser) /\
    (forall page result,
       getPage browser = Return tt ->
       goto browser (directUrlOf (toLowerCase (trim query))) = Return page ->
       pg_response page = Some true ->
       includes (pg_url page) "/a/" = true ->
       extractDocsFromApiPage page (toLowerCase (trim query))
       = Return result ->
       body = (Return result,
               [EvGetPage; EvGoto (directUrlOf (toLowerCase (trim query)))])) /\
    (forall direct search,
       getPage browser = Return tt ->
       goto browser (directUrlOf (toLowerCase (trim query))) = Return direct ->
       DirectMiss direct (toLowerCase (trim query)) ->
       goto browser (searchUrlOf (toLowerCase (trim query))) = Return search ->
       pg_hasBody search = true ->
       pg_evaluateOk search = true ->
       includes (pg_url search) "/a/" = false ->
       Forall (fun l => candidateScore l (toLowerCase (trim query)) = 0)
              (pg_links search) ->
       body = (Throw (APITrackerProviderNotFoundError query),
               [EvGetPage; EvGoto (directUrlOf (toLowerCase (trim query)));
                EvGoto (searchUrlOf (toLowerCase (trim query)))])).
Proof.
  eexists. split; [reflexivity|]. split.
  - intros page result Hg Hgo Hr Hu Hx.
    rewrite Hg, Hgo. cbn. rewrite Hr, Hu, Hx. reflexivity.
  - intros direct search Hg Hgo Hmiss Hgs Hb He Hu Hnone.
    rewrite Hg, Hgo. cbn. rewrite (direct_miss _ _ Hmiss). cbn.
    unfold searchPath. rewrite Hgs. cbn.
    rewrite Hb, Hu. cbn. unfold findBestSearchResult. rewrite He. cbn.
    rewrite (collectResults_none _ _ Hnone). reflexivity.
Qed.

(** C9. When the provider page built from the normalized query loads
    with HTTP success at an [/a/] URL and a documentation link can be
    extracted from it, [searchProvider] never visits the search URL, and
    it returns that result after a single navigation provided the
    cleanup does not throw. When the direct page is a miss, the search
    page is no redirect to a provider page and none of its links scores
    above zero, [searchProvider] fails with ProviderNotFoundError, under
    the same proviso. The proviso is needed: [page.close()] is awaited
    unguarded in the [finally] block, and when it is rejected its error
    replaces the result in the first case and the ProviderNotFoundError
    in the second. *)
Theorem discovery_direct_hit_and_not_found browser query :
  getPage browser = Return tt ->
  (forall page result,
     goto browser (directUrlOf (toLowerCase (trim query))) = Return page ->
     pg_response page = Some true ->
     includes (pg_url page) "/a/" = true ->
     extractDocsFromApiPage page (toLowerCase (trim query)) = Return result ->
     (EvGoto (searchUrlOf (toLowerCase (trim query)))
        ∉ snd (searchProvider browser query)) /\
     ((isClosed browser = true \/ close browser = Return tt) ->
      searchProvider browser query
      = (Return result,
         ([EvGetPage; EvGoto (directUrlOf (toLowerCase (trim query)))]
          ++ closeLog browser)%list)) /\
     (forall e,
        isClosed browser = false -> close browser = Throw e ->
        searchProvider browser query
        = (Throw e,
           [EvGetPage; EvGoto (directUrlOf (toLowerCase (trim query)));
            EvClosePage]))) /\
  (forall direct search,
     goto browser (directUrlOf (toLowerCase (trim query))) = Return direct ->
     DirectMiss direct (toLowerCase (trim query)) ->
     goto browser (searchUrlOf (toLowerCase (trim query))) = Return search ->
     pg_hasBody search = true ->
     pg_evaluateOk search = true ->
     includes (pg_url search) "/a/" = false ->
     Forall (fun l => candidateScore l (toLowerCase (trim query)) = 0)
            (pg_links search) ->
     ((isClosed browser = true \/ close browser = Return tt) ->
      searchProvider browser query
      = (Throw (APITrackerProviderNotFoundError query),
         ([EvGetPage; EvGoto (directUrlOf (toLowerCase (trim query)));
           EvGoto (searchUrlOf (toLowerCase (trim query)))]
          ++ closeLog browser)%list)) /\
     (forall e,
        isClosed browser = false -> close browser = Throw e ->
        searchProvider browser query
        = (Throw e,
           [EvGetPage; EvGoto (directUrlOf (toLowerCase (trim query)));
            EvGoto (searchUrlOf (toLowerCase (trim query)));
            EvClosePage]))).
Proof.
  intros Hg.
  destruct (searchProvider_cleanup browser query) as (body & -> & Hhit & Hmiss).
  split.
  - intros page result Hgo Hr Hu Hx.
    rewrite (Hhit page result Hg Hgo Hr Hu Hx). split; [|split].
    + rewrite finally_log, closePage_log. cbn. unfold closeLog. rewrite Hg.
      pose proof (direct_not_search (toLowerCase (trim query))) as Hne.
      destruct (isClosed browser);
        rewrite !elem_of_cons, elem_of_nil; intuition discriminate.
    + intros Hc. now rewrite (finally_returns _ _ _ (closePage_returns _ Hc)).
    + intros e Hopen Hc.
      now rewrite (finally_fails _ _ _ _ (closePage_fails _ _ _ Hg Hopen Hc)).
  - intros direct search Hgo Hm Hgs Hb He Hu Hnone.
    rewrite (Hmiss direct search Hg Hgo Hm Hgs Hb He Hu Hnone). split.
    + intros Hc. now rewrite (finally_returns _ _ _ (closePage_returns _ Hc)).
    + intros e Hopen Hc.
      now rewrite (finally_fails _ _ _ _ (closePage_fails _ _ _ Hg Hopen Hc)).
Qed.

(** The lookup turns the failure of the search into its own
    ProviderNotFoundError, carrying the query as given. [events0] is what
    the cache check logged. *)
Lemma lookupProvider_not_found browser q forceRefresh now st events0 events
  provider :
  Discovery.invalidQuery (VStr q) = false ->
  (if negb forceRefresh
   then Discovery.getCachedUrl (toLowerCase (trim q)) now st
   else Trace.ret None) = (Return None, events0) ->
  searchProvider browser (toLowerCase (trim q))
  = (Throw (APITrackerProviderNotFoundError provider), events) ->
  Discovery.lookupProvider browser (VStr q) forceRefresh now st
  = (Throw (ProviderNotFoundError (VStr q)),
     (events0 ++ EvSearchProvider (toLowerCase (trim q)) :: events)%list).
Proof.
  intros Hv Hc Hs. unfold Discovery.lookupProvider. rewrite Hv.
  cbn [mbind trace_bind Trace.bind]. rewrite Hc.
  unfold mbind, trace_bind, Trace.bind, Trace.catch, Trace.emit.
  rewrite Hs. cbn. now rewrite app_nil_r.
Qed.

Lemma trim_blank s :
  Regex.any Regex.notWhiteSpace s = false -> trim s = EmptyString.
Proof.
  unfold trim. induction s as [|c r IH]; [reflexivity|].
  cbn. unfold Regex.notWhiteSpace at 1.
  destruct (isWhiteSpace c); cbn; [exact IH|discriminate].
Qed.

(** C10. A query that is missing (undefined or null), that is no
    string, or that is empty or made of whitespace only makes
    [lookupProvider] throw ProviderNotFoundError at once: it logs no
    event, so the discovery cache is not read and the search surface is
    not contacted. *)
Theorem lookupProvider_rejects_blank_query browser query forceRefresh now st :
  (query = VUndefined \/ query = VNull \/ typeofString query = false \/
   exists s, query = VStr s /\ Regex.any Regex.notWhiteSpace s = false) ->
  Discovery.lookupProvider browser query forceRefresh now st
  = (Throw (ProviderNotFoundError (orElse query (VStr EmptyString))), []).
Proof.
  intros Hq. unfold Discovery.lookupProvider.
  assert (Hi : Discovery.invalidQuery query = true).
  { unfold Discovery.invalidQuery.
    destruct Hq as [-> | [-> | [Ht | (s & -> & Hs)]]]; try reflexivity.
    - rewrite Ht. cbn. now rewrite orb_true_r.
    - rewrite (trim_blank s Hs). cbn. now rewrite orb_true_r. }
  now rewrite Hi.
Qed.

End DiscoveryFacts.

Section DiscoveryExamples.
Import Js Browser ApiTracker Spec Example.

Lemma discovery_direct_hit_and_not_found_witness :
  searchProvider tracker " Stripe "
  = (Return {| pr_provider := "stripe";
               pr_docsUrl := "https://stripe.com/docs/api";
               pr_apiTrackerUrl := "https://apitracker.io/a/stripe";
               pr_source := "apitracker" |},
     [EvGetPage; EvGoto "https://apitracker.io/a/stripe"; EvClosePage]) /\
  searchProvider tracker "doesnotexistco"
  = (Throw (APITrackerProviderNotFoundError "doesnotexistco"),
     [EvGetPage; EvGoto "https://apitracker.io/a/doesnotexistco";
      EvGoto "https://apitracker.io/search?q=doesnotexistco"; EvClosePage]) /\
  searchProvider (failingClose tracker) " Stripe "
  = (Throw targetClosed,
     [EvGetPage; EvGoto "https://apitracker.io/a/stripe"; EvClosePage]) /\
  searchProvider (failingClose tracker) "doesnotexistco"
  = (Throw targetClosed,
     [EvGetPage; EvGoto "https://apitracker.io/a/doesnotexistco";
      EvGoto "https://apitracker.io/search?q=doesnotexistco"; EvClosePage]).
Proof.
  split; [|split; [|split]].
  - refine (proj1 (proj2 (proj1 (discovery_direct_hit_and_not_found tracker
              " Stripe " eq_refl) stripePage _ _ _ _ _)) _);
      try (vm_compute; reflexivity).
    right. reflexivity.
  - refine (proj1 (proj2 (discovery_direct_hit_and_not_found tracker
              "doesnotexistco" eq_refl)
              (missingPage "https://apitracker.io/a/doesnotexistco")
              (searchPage "https://apitracker.io/search?q=doesnotexistco")
              _ _ _ _ _ _ _) _); try (vm_compute; reflexivity).
    + left. vm_compute; reflexivity.
    + repeat constructor.
    + right. reflexivity.
  - refine (proj2 (proj2 (proj1 (discovery_direct_hit_and_not_found
              (failingClose tracker) " Stripe " eq_refl) stripePage
              _ _ _ _ _)) targetClosed _ _);
      vm_compute; reflexivity.
  - refine (proj2 (proj2 (discovery_direct_hit_and_not_found
              (failingClose tracker) "doesnotexistco" eq_refl)
              (missingPage "https://apitracker.io/a/doesnotexistco")
              (searchPage "https://apitracker.io/search?q=doesnotexistco")
              _ _ _ _ _ _ _) targetClosed _ _); try (vm_compute; reflexivity).
    + left. vm_compute; reflexivity.
    + repeat constructor.
Defined.

(** The rejected [close] through the lookup: the provider that was found
    is reported as a failed discovery, and the query without any match
    as well. *)
Example lookupProvider_close_rejected :
  fst (Discovery.lookupProvider (failingClose tracker) (VStr " Stripe ")
         false 1000 emptyStore)
  = Throw (DiscoveryFetchError " Stripe ") /\
  fst (Discovery.lookupProvider (failingClose tracker) (VStr "doesnotexistco")
         false 1000 emptyStore)
  = Throw (DiscoveryFetchError "doesnotexistco").
Proof. split; vm_compute; reflexivity. Qed.

Lemma lookupProvider_rejects_blank_query_witness :
  Discovery.lookupProvider tracker (VStr "   ") false 1000 emptyStore
  = (Throw (ProviderNotFoundError (VStr "   ")), []) /\
  Discovery.lookupProvider tracker VUndefined false 1000 emptyStore
  = (Throw (ProviderNotFoundError (VStr EmptyString)), []) /\
  Discovery.lookupProvider tracker (VNum 42) true 1000 emptyStore
  = (Throw (ProviderNotFoundError (VNum 42)), []).
Proof.
  split; [|split].
  - apply (lookupProvider_rejects_blank_query tracker (VStr "   ")).
    right. right. right. exists "   ". split; reflexivity.
  - apply (lookupProvider_rejects_blank_query tracker VUndefined).
    left. reflexivity.
  - apply (lookupProvider_rejects_blank_query tracker (VNum 42)).
    right. right. left. reflexivity.
Defined.

(** The query of the spec's example, through the lookup. *)
Example doesnotexistco_not_found :
  fst (Discovery.lookupProvider tracker (VStr "doesnotexistco") false 1000
         emptyStore)
  = Throw (ProviderNotFoundError (VStr "doesnotexistco")).
Proof. vm_compute; reflexivity. Qed.

End DiscoveryExamples.

(** *** More on the direct fetch and on probing *)

Section FetchFacts.
Import Js Net OpenAPI Spec.
Context `{Host}.

Lemma validateSpec_object spec url info :
  validateSpec spec url = Return info -> exists fields, spec = VObj fields.
Proof.
  unfold validateSpec, openapi3, swagger2.
  destruct spec; cbn; rewrite ?orb_true_r; try discriminate; eauto.
Qed.

Lemma parseSpecContent_format content url p :
  parseSpecContent content url = Return p ->
  p_format p = "json" \/ p_format p = "yaml".
Proof.
  assert (Hy : forall t, parseYaml t url = Return p -> p_format p = "yaml").
  { intros t. unfold parseYaml. destruct (yaml_load t); [|discriminate].
    destruct (isNonNullObject v); [|discriminate]. now intros [= <-]. }
  unfold parseSpecContent.
  destruct (_ || _)%bool; [|intros E; right; eapply Hy, E].
  destruct (JSON_parse _).
  - intros [= <-]. now left.
  - destruct (endsWith _ _); [discriminate|]. intros E; right; eapply Hy, E.
Qed.

(** A fetch that comes back with a result was a successful probe. *)
Lemma tryFetchSpec_some net url history result history' :
  tryFetchSpec net url history = (Return (Some result), history') ->
  Fetched (net history url) url result /\
  history' = (history ++ [url])%list.
Proof.
  unfold tryFetchSpec, tryFetchSpecBody, Fetched, skippedAsHtml.
  intros [= E <-]. split; [|reflexivity].
  destruct (net history url) as [r| |]; cbn in E;
    [|discriminate|discriminate].
  destruct (r_ok r) eqn:Hok; cbn in E; [|discriminate].
  destruct (r_text r) as [content|e] eqn:Ht; cbn in E;
    [|destruct e; discriminate].
  destruct (_ && _)%bool eqn:Hh in E; [discriminate|].
  destruct (parseSpecContent content url) as [p|e] eqn:Hp; cbn in E;
    [|destruct e; discriminate].
  destruct (validateSpec (p_spec p) url) as [i|e] eqn:Hv; cbn in E;
    [|destruct e; discriminate].
  injection E as <-. exists r, content, p, i. rewrite Ht. auto 10.
Qed.

Lemma probePaths_some net base paths :
  forall history result history',
    probePaths net base paths history = (Return (Some result), history') ->
    exists history0 path fetched,
      path ∈ paths /\
      Fetched (net history0 (base ++ path)) (base ++ path) fetched /\
      result = toResult fetched /\
      history' = (history0 ++ [String.append base path])%list.
Proof.
  induction paths as [|p rest IH]; intros history result history'; cbn [probePaths].
  - discriminate.
  - destruct (tryFetchSpec net (base ++ p) history) as [[[f|]|e] h1] eqn:E.
    + intros [= <- <-]. apply tryFetchSpec_some in E as [Hs ->].
      exists history, p, f. split; [apply list_elem_of_here|auto].
    + intros E'. apply IH in E' as (h0 & q & f & Hin & Hs & -> & ->).
      exists h0, q, f. split; [now apply list_elem_of_further|auto].
    + discriminate.
Qed.

(** The requests of the probing loop: the first [k] common paths, in
    order, for some [k]. *)
Lemma probePaths_requests net base paths :
  forall history, exists k,
    (k <= length paths)%nat /\
    snd (probePaths net base paths history)
    = (history ++ map (String.append base) (firstn k paths))%list.
Proof.
  induction paths as [|p rest IH]; intros history; cbn [probePaths].
  - exists 0%nat. cbn. now rewrite app_nil_r.
  - destruct (tryFetchSpec_returns net (base ++ p) history) as [r ->].
    destruct r as [f|].
    + exists 1%nat. cbn. split; [lia|reflexivity].
    + destruct (IH (history ++ [String.append base p])%list) as (k & Hk & ->).
      exists (S k). cbn. split; [lia|]. now rewrite <- app_assoc.
Qed.

(* [fetchOpenAPISpec] returns, or fails in [getBaseUrl] right after the
   direct attempt. *)
Lemma fetchOpenAPISpec_outcome net url probeCommonPaths history :
  (exists r history',
     fetchOpenAPISpec net url probeCommonPaths history
     = (Return r, history')) \/
  (fetchOpenAPISpec net url probeCommonPaths history
   = (Throw TypeError, (history ++ [normalizeUrl url])%list) /\
   probeCommonPaths = true /\
   isDirectSpecUrl (normalizeUrl url) = true /\
   URL_parse (normalizeUrl url) = None).
Proof.
  unfold fetchOpenAPISpec, probeCommonPathsFrom, getBaseUrl.
  destruct (isDirectSpecUrl (normalizeUrl url)) eqn:Hd.
  - destruct (tryFetchSpec_returns net (normalizeUrl url) history) as [r ->].
    destruct r as [f|]; [left; eauto|].
    destruct probeCommonPaths; [|left; eauto].
    destruct (URL_parse (normalizeUrl url)) as [[protocol host]|].
    + destruct (probePaths_returns net (protocol ++ "//" ++ host)
                  COMMON_SPEC_PATHS (history ++ [normalizeUrl url])%list)
        as (r & h & ->).
      left. destruct r; eauto.
    + right. auto.
  - destruct probeCommonPaths; [|left; eauto].
    destruct (probePaths_returns net (normalizeUrl url) COMMON_SPEC_PATHS
                history) as (r & h & ->).
    left. destruct r; eauto.
Qed.

(** X1. [fetchOpenAPISpec] lets one error out, and none of those its
    documentation lists: the TypeError of [new URL] in [getBaseUrl], which
    is raised when the target is a direct spec reference that does not
    parse as a URL, after the direct attempt has been made and has come
    back empty, and only when probing is enabled. FetchError, ParseError
    and InvalidSpecError never reach the caller. *)
Theorem fetchOpenAPISpec_throws_only_TypeError net url probeCommonPaths
  history e history' :
  fetchOpenAPISpec net url probeCommonPaths history = (Throw e, history') ->
  e = TypeError /\
  probeCommonPaths = true /\
  isDirectSpecUrl (normalizeUrl url) = true /\
  URL_parse (normalizeUrl url) = None /\
  history' = (history ++ [normalizeUrl url])%list.
Proof.
  intros E.
  destruct (fetchOpenAPISpec_outcome net url probeCommonPaths history)
    as [(r & h & Er)|(Et & Hp & Hd & Hu)].
  - rewrite Er in E. discriminate.
  - rewrite Et in E. injection E as <- <-. auto.
Qed.

(** X2. Whatever [fetchOpenAPISpec] returns has passed [validateSpec]
    under its own source URL, is an object, was parsed as JSON or YAML,
    and its source URL is the last request made: a request the network
    answered with a success status. *)
Theorem fetchOpenAPISpec_result_validated net url probeCommonPaths history
  result history' :
  fetchOpenAPISpec net url probeCommonPaths history
  = (Return (Some result), history') ->
  validateSpec (s_spec result) (s_sourceUrl result)
  = Return (s_specInfo result) /\
  (exists fields, s_spec result = VObj fields) /\
  (s_format result = "json" \/ s_format result = "yaml") /\
  exists history0 response,
    history' = (history0 ++ [s_sourceUrl result])%list /\
    net history0 (s_sourceUrl result) = Responded response /\
    r_ok response = true.
Proof.
  assert (Hsound : forall o u f, Fetched o u f ->
            validateSpec (s_spec (toResult f)) (s_sourceUrl (toResult f))
            = Return (s_specInfo (toResult f)) /\
            (exists fields, s_spec (toResult f) = VObj fields) /\
            (s_format (toResult f) = "json" \/
             s_format (toResult f) = "yaml") /\
            s_sourceUrl (toResult f) = u /\
            exists response, o = Responded response /\ r_ok response = true).
  { intros o u f (r & content & p & i & -> & Hok & _ & _ & Hp & Hv & ->). cbn.
    split; [exact Hv|]. split; [eapply validateSpec_object, Hv|].
    split; [eapply parseSpecContent_format, Hp|]. eauto. }
  assert (Hprobe : forall base h,
            probePaths net base COMMON_SPEC_PATHS h
            = (Return (Some result), history') ->
            validateSpec (s_spec result) (s_sourceUrl result)
            = Return (s_specInfo result) /\
            (exists fields, s_spec result = VObj fields) /\
            (s_format result = "json" \/ s_format result = "yaml") /\
            exists history0 response,
              history' = (history0 ++ [s_sourceUrl result])%list /\
              net history0 (s_sourceUrl result) = Responded response /\
              r_ok response = true).
  { intros base h E.
    apply probePaths_some in E as (h0 & q & f & _ & Hs & -> & ->).
    apply Hsound in Hs as (Hv & Ho & Hf & Hu & resp & Hn & Hok).
    rewrite Hu. rewrite Hu in Hv. split; [exact Hv|]. split; [exact Ho|].
    split; [exact Hf|]. exists h0, resp. auto. }
  unfold fetchOpenAPISpec, probeCommonPathsFrom.
  destruct (isDirectSpecUrl (normalizeUrl url)) eqn:Hd.
  - destruct (tryFetchSpec net (normalizeUrl url) history) as [[[f|]|e] h1] eqn:E.
    + intros [= <- <-]. apply tryFetchSpec_some in E as [Hs ->].
      apply Hsound in Hs as (Hv & Ho & Hf & Hu & resp & Hn & Hok).
      rewrite Hu. rewrite Hu in Hv. split; [exact Hv|]. split; [exact Ho|].
      split; [exact Hf|]. exists history, resp. auto.
    + destruct probeCommonPaths; [|discriminate].
      destruct (getBaseUrl (normalizeUrl url)) as [base|e]; [|discriminate].
      apply Hprobe.
    + discriminate.
  - destruct probeCommonPaths; [|discriminate]. apply Hprobe.
Qed.

(** X3. One call of [fetchOpenAPISpec] makes at most 22 requests: the
    direct attempt, if the target is a direct spec reference, and then a
    prefix of the 21 common paths, each appended to one base URL. With
    probing disabled it makes at most the direct attempt, and none at all
    on a target that is no direct spec reference. *)
Theorem fetchOpenAPISpec_request_budget net url probeCommonPaths history :
  exists direct base k,
    snd (fetchOpenAPISpec net url probeCommonPaths history)
    = (history ++ direct ++
       map (String.append base) (firstn k COMMON_SPEC_PATHS))%list /\
    direct = (if isDirectSpecUrl (normalizeUrl url)
              then [normalizeUrl url] else []) /\
    (k <= if probeCommonPaths then 21 else 0)%nat /\
    (length (direct ++ map (String.append base)
                         (firstn k COMMON_SPEC_PATHS)) <= 22)%nat.
Proof.
  assert (Hlen : forall (d : list string) base k,
            (length d <= 1)%nat -> (k <= 21)%nat ->
            (length (d ++ map (String.append base)
                              (firstn k COMMON_SPEC_PATHS)) <= 22)%nat).
  { intros d base k Hd Hk.
    rewrite length_app, length_map, length_firstn. lia. }
  assert (Hnone : forall (d : list string),
            (history ++ d)%list
            = (history ++ d ++ map (String.append EmptyString)
                                   (firstn 0 COMMON_SPEC_PATHS))%list).
  { intros d. cbn. now rewrite app_nil_r. }
  assert (Hzero : forall b : bool, (0 <= if b then 21 else 0)%nat).
  { intros []; lia. }
  unfold fetchOpenAPISpec, probeCommonPathsFrom.
  destruct (isDirectSpecUrl (normalizeUrl url)) eqn:Hd.
  - destruct (tryFetchSpec_returns net (normalizeUrl url) history) as [r ->].
    destruct r as [f|].
    + exists [normalizeUrl url], EmptyString, 0%nat. cbn [snd].
      split; [apply Hnone|]. split; [reflexivity|].
      split; [apply Hzero|]. apply Hlen; cbn; lia.
    + destruct probeCommonPaths.
      * destruct (getBaseUrl (normalizeUrl url)) as [base|e].
        -- destruct (probePaths_requests net base COMMON_SPEC_PATHS
                       (history ++ [normalizeUrl url])%list) as (k & Hk & ->).
           exists [normalizeUrl url], base, k.
           change (length COMMON_SPEC_PATHS) with 21%nat in Hk.
           split; [now rewrite <- app_assoc|]. split; [reflexivity|].
           split; [exact Hk|]. apply Hlen; cbn; lia.
        -- exists [normalizeUrl url], EmptyString, 0%nat. cbn [snd].
           split; [apply Hnone|]. split; [reflexivity|].
           split; [lia|]. apply Hlen; cbn; lia.
      * exists [normalizeUrl url], EmptyString, 0%nat. cbn [snd].
        split; [apply Hnone|]. split; [reflexivity|].
        split; [lia|]. apply Hlen; cbn; lia.
  - destruct probeCommonPaths.
    + destruct (probePaths_requests net (normalizeUrl url) COMMON_SPEC_PATHS
                  history) as (k & Hk & ->).
      exists [], (normalizeUrl url), k.
      change (length COMMON_SPEC_PATHS) with 21%nat in Hk.
      split; [reflexivity|]. split; [reflexivity|].
      split; [exact Hk|]. apply Hlen; cbn; lia.
    + exists [], EmptyString, 0%nat. cbn [snd].
      split; [cbn; now rewrite app_nil_r|]. split; [reflexivity|].
      split; [lia|]. cbn. lia.
Qed.

(** X4. [hasOpenAPISpec] answers true exactly when [fetchOpenAPISpec]
    returns a spec, and false when it returns null; it catches nothing,
    so on a target that is no direct spec reference it always answers,
    and on one that is it can only fail with the TypeError of an
    unparsable URL. *)
Theorem hasOpenAPISpec_answers net url probeCommonPaths history :
  (forall answer history',
     hasOpenAPISpec net url probeCommonPaths history
     = (Return answer, history') ->
     (answer = true <->
      exists result,
        fetchOpenAPISpec net url probeCommonPaths history
        = (Return (Some result), history'))) /\
  (forall e history',
     hasOpenAPISpec net url probeCommonPaths history = (Throw e, history') ->
     e = TypeError /\ isDirectSpecUrl (normalizeUrl url) = true /\
     URL_parse (normalizeUrl url) = None) /\
  (isDirectSpecUrl (normalizeUrl url) = false ->
   exists answer history',
     hasOpenAPISpec net url probeCommonPaths history
     = (Return answer, history')).
Proof.
  unfold hasOpenAPISpec.
  destruct (fetchOpenAPISpec net url probeCommonPaths history)
    as [[r|e] h] eqn:E.
  - split; [|split].
    + intros answer history' [= <- <-]. destruct r; split.
      * eauto.
      * reflexivity.
      * discriminate.
      * intros [result [=]].
    + discriminate.
    + eauto.
  - destruct (fetchOpenAPISpec_outcome net url probeCommonPaths history)
      as [(r & h' & Er)|(Et & _ & Hd & Hu)]; [congruence|].
    rewrite Et in E. injection E as <- <-.
    split; [|split].
    + discriminate.
    + intros e' h' [= <- <-]. auto.
    + rewrite Hd. discriminate.
Qed.

Lemma stripTrailingSlashes_no_slash s :
  endsWith (stripTrailingSlashes s) "/" = false.
Proof.
  induction s as [|c r IH]; cbn; [reflexivity|].
  destruct (Ascii.eqb c "/" && isEmpty (stripTrailingSlashes r))%bool eqn:E;
    [reflexivity|].
  cbn. rewrite IH, orb_false_r.
  destruct (stripTrailingSlashes r) as [|c' r'] eqn:Er; cbn in *.
  - rewrite andb_true_r in E. rewrite E. reflexivity.
  - destruct (Ascii.eqb c "/"); reflexivity.
Qed.

Lemma startsWith_empty s : startsWith s EmptyString = true.
Proof. destruct s; reflexivity. Qed.

Lemma startsWith_http_strip s :
  (startsWith s "http://" || startsWith s "https://")%bool = true ->
  (startsWith (stripTrailingSlashes s) "http:" ||
   startsWith (stripTrailingSlashes s) "https:")%bool = true.
Proof.
  destruct s as [|c1 [|c2 [|c3 [|c4 [|c5 [|c6 r]]]]]];
    cbn -[stripTrailingSlashes Ascii.eqb];
    try (rewrite ?andb_false_r; cbn -[stripTrailingSlashes Ascii.eqb]; discriminate).
  destruct (Ascii.eqb_spec "h" c1) as [<-|]; [|discriminate].
  destruct (Ascii.eqb_spec "t" c2) as [<-|]; [|discriminate].
  destruct (Ascii.eqb_spec "t" c3) as [<-|]; [|discriminate].
  destruct (Ascii.eqb_spec "p" c4) as [<-|]; [|discriminate].
  destruct (Ascii.eqb_spec ":" c5) as [<-|];
    [intros _; cbn; now rewrite startsWith_empty|].
  destruct (Ascii.eqb_spec "s" c5) as [<-|]; [|discriminate].
  destruct (Ascii.eqb_spec ":" c6) as [<-|]; [|discriminate].
  intros _; cbn; now rewrite startsWith_empty.
Qed.

(** X5. The URL every request of [fetchOpenAPISpec] is built from: the
    normalized target never ends with a slash and always carries a
    scheme, whatever the input (even the empty string). *)
Theorem normalizeUrl_shape url :
  endsWith (normalizeUrl url) "/" = false /\
  (startsWith (normalizeUrl url) "http:" ||
   startsWith (normalizeUrl url) "https:")%bool = true.
Proof.
  unfold normalizeUrl. split; [apply stripTrailingSlashes_no_slash|].
  apply startsWith_http_strip.
  destruct (startsWith (trim url) "http://") eqn:E1; cbn.
  - now rewrite E1.
  - destruct (startsWith (trim url) "https://") eqn:E2; cbn.
    + rewrite E1, E2. reflexivity.
    + generalize (trim url). intros t. simpl.
      now rewrite startsWith_empty, ?orb_true_r.
Qed.

End FetchFacts.

Section FetchExamples.
Import Js OpenAPI Example.

Lemma fetchOpenAPISpec_throws_only_TypeError_witness :
  fetchOpenAPISpec (H:=strictHost) (serving exampleUrl petstore3_json)
    spacedUrl true []
  = (Throw TypeError, [spacedUrl]) /\
  URL_parse (Host:=strictHost) (normalizeUrl spacedUrl) = None.
Proof.
  assert (E : fetchOpenAPISpec (H:=strictHost)
                (serving exampleUrl petstore3_json) spacedUrl true []
              = (Throw TypeError, [spacedUrl])) by (vm_compute; reflexivity).
  split; [exact E|].
  exact (proj1 (proj2 (proj2 (proj2
    (fetchOpenAPISpec_throws_only_TypeError (H:=strictHost) _ _ _ _ _ _ E))))).
Defined.

Lemma fetchOpenAPISpec_result_validated_witness :
  validateSpec petstore3 exampleUrl = Return petstore3Info /\
  exists history0 response,
    [nestedUrl; exampleUrl] = (history0 ++ [exampleUrl])%list /\
    servingTwo nestedUrl empty_json exampleUrl petstore3_json
      history0 exampleUrl = Net.Responded response /\
    Net.r_ok response = true.
Proof.
  assert (E : fetchOpenAPISpec (H:=host)
                (servingTwo nestedUrl empty_json exampleUrl petstore3_json)
                nestedUrl true []
              = (Return (Some {| s_spec := petstore3; s_format := "json";
                                 s_specInfo := petstore3Info;
                                 s_sourceUrl := exampleUrl |}),
                 [nestedUrl; exampleUrl])) by (vm_compute; reflexivity).
  pose proof (fetchOpenAPISpec_result_validated (H:=host) _ _ _ _ _ _ E)
    as (Hv & _ & _ & Hlast).
  split; [exact Hv|exact Hlast].
Defined.

Lemma hasOpenAPISpec_answers_witness :
  exists requests,
    hasOpenAPISpec (H:=host) (serving swaggerUrl petstore3_json)
      baseUrl true [] = (Return true, requests) /\
    exists result,
      fetchOpenAPISpec (H:=host) (serving swaggerUrl petstore3_json)
        baseUrl true [] = (Return (Some result), requests).
Proof.
  eexists. split; [vm_compute; reflexivity|].
  refine (proj1 (proj1 (hasOpenAPISpec_answers (H:=host)
                          (serving swaggerUrl petstore3_json) baseUrl true [])
                   true _ _) eq_refl).
  vm_compute. reflexivity.
Defined.

End FetchExamples.
(** *** Network interception *)

Section InterceptionFacts.
Import Js Browser.
Variable readsBody : InterceptedResponse -> bool.
Variable capture : InterceptedResponse -> option (value * string).
Variable responses : list InterceptedResponse.

(** Whatever the order of events, a handler waiting for a body is the
    handler of a response that arrived and passed the first tests, and a
    capture is the capture of such a response. *)
Lemma onStep_sound st step :
  (forall i r, reading st !! i = Some r ->
               responses !! i = Some r /\ readsBody r = true) ->
  (forall c, capturedSpec st = Some c ->
             exists r, r ∈ responses /\ readsBody r = true /\
                       capture r = Some c) ->
  (forall i r, reading (onStep readsBody capture responses st step) !! i
               = Some r ->
               responses !! i = Some r /\ readsBody r = true) /\
  (forall c, capturedSpec (onStep readsBody capture responses st step)
             = Some c ->
             exists r, r ∈ responses /\ readsBody r = true /\
                       capture r = Some c).
Proof.
  intros Hr Hc. destruct step as [|i]; cbn.
  - destruct (responses !! arrived st) as [response|] eqn:E; cbn; [|auto].
    split; [|exact Hc].
    destruct (capturedSpec st); [exact Hr|].
    destruct (readsBody response) eqn:Eb; [|exact Hr].
    intros i r. destruct (decide (i = arrived st)) as [->|Hne].
    + rewrite lookup_insert_eq. intros [= <-]. auto.
    + rewrite lookup_insert_ne by congruence. apply Hr.
  - destruct (reading st !! i) as [response|] eqn:E; cbn; [|auto]. split.
    + intros k r Hk. apply Hr.
      destruct (decide (k = i)) as [->|Hne].
      * now rewrite lookup_delete_eq in Hk.
      * now rewrite lookup_delete_ne in Hk by congruence.
    + destruct (Hr _ _ E) as [Hl Hb].
      destruct (capture response) as [c'|] eqn:Ec; [|exact Hc].
      intros c [= <-]. exists response.
      split; [now apply list_elem_of_lookup_2 with i|auto].
Qed.

Lemma intercept_sound timeline c :
  intercept readsBody capture responses timeline = Some c ->
  exists r, r ∈ responses /\ readsBody r = true /\ capture r = Some c.
Proof.
  unfold intercept.
  assert (Hinv : forall st,
    (forall i r, reading st !! i = Some r ->
                 responses !! i = Some r /\ readsBody r = true) ->
    (forall c, capturedSpec st = Some c ->
               exists r, r ∈ responses /\ readsBody r = true /\
                         capture r = Some c) ->
    forall c, capturedSpec
                (fold_left (onStep readsBody capture responses) timeline st)
              = Some c ->
              exists r, r ∈ responses /\ readsBody r = true /\
                        capture r = Some c).
  { induction timeline as [|s rest IH]; intros st Hr Hc; cbn [fold_left];
      [exact Hc|].
    destruct (onStep_sound st s Hr Hc) as [Hr' Hc']. now apply IH. }
  apply Hinv; cbn.
  - intros i r. now rewrite lookup_empty.
  - discriminate.
Qed.

(** Responses that do not overlap are handled one after the other. *)
Lemma intercept_oneByOne_from n : forall k c,
  (k + n <= length responses)%nat ->
  fold_left (onStep readsBody capture responses)
    (flat_map (fun i => [Arrival; BodyRead i]) (seq k n))
    {| arrived := k; reading := ∅; capturedSpec := c |}
  = {| arrived := k + n; reading := ∅;
       capturedSpec :=
         fold_left (fun c r => match c with
                               | Some _ => c
                               | None => if readsBody r then capture r
                                         else None
                               end)
           (take n (drop k responses)) c |}.
Proof.
  induction n as [|n IH]; intros k c Hk.
  - cbn. now rewrite Nat.add_0_r.
  - destruct (lookup_lt_is_Some_2 responses k ltac:(lia)) as [r Hr].
    rewrite (drop_S _ _ _ Hr). cbn [seq flat_map app fold_left take].
    cbn [onStep arrived reading capturedSpec]. rewrite Hr.
    cbn [arrived reading capturedSpec].
    destruct c as [c|].
    + rewrite lookup_empty. rewrite IH by lia. f_equal; lia.
    + destruct (readsBody r).
      * rewrite lookup_insert_eq. cbn [arrived reading capturedSpec].
        rewrite delete_insert_eq, delete_empty.
        destruct (capture r) as [c'|]; rewrite IH by lia; f_equal; lia.
      * rewrite lookup_empty. rewrite IH by lia. f_equal; lia.
Qed.

Lemma intercept_oneByOne :
  intercept readsBody capture responses (oneByOne (length responses))
  = fold_left (fun c r => match c with
                          | Some _ => c
                          | None => if readsBody r then capture r else None
                          end) responses None.
Proof.
  unfold intercept, oneByOne.
  rewrite (intercept_oneByOne_from (length responses) 0 None) by lia.
  cbn. now rewrite drop_0, firstn_all.
Qed.

(** When every response has arrived before any body is read, every
    handler that passed the first tests is waiting. *)
Lemma arrivals_waiting n : forall k waiting,
  (k + n <= length responses)%nat ->
  (forall i, is_Some (waiting !! i) -> (i < k)%nat) ->
  exists waiting',
    fold_left (onStep readsBody capture responses) (repeat Arrival n)
      {| arrived := k; reading := waiting; capturedSpec := None |}
    = {| arrived := k + n; reading := waiting'; capturedSpec := None |} /\
    (forall i r, waiting !! i = Some r -> waiting' !! i = Some r) /\
    (forall i r, (k <= i < k + n)%nat -> responses !! i = Some r ->
                 readsBody r = true -> waiting' !! i = Some r) /\
    (forall i r, waiting' !! i = Some r ->
                 waiting !! i = Some r \/
                 (responses !! i = Some r /\ readsBody r = true)).
Proof.
  induction n as [|n IH]; intros k waiting Hk Hlt.
  - exists waiting. cbn. rewrite Nat.add_0_r. repeat split; auto. lia.
  - destruct (lookup_lt_is_Some_2 responses k ltac:(lia)) as [r0 Hr0].
    cbn [repeat fold_left onStep arrived reading capturedSpec]. rewrite Hr0.
    cbn [arrived reading capturedSpec].
    set (waiting1 := if readsBody r0 then <[k := r0]> waiting else waiting).
    assert (Hkeep : forall i r, waiting !! i = Some r ->
                                waiting1 !! i = Some r).
    { intros i r Hi. subst waiting1. destruct (readsBody r0); [|exact Hi].
      rewrite lookup_insert_ne; [exact Hi|].
      intros <-. specialize (Hlt k (ex_intro _ r Hi)). lia. }
    assert (Hfrom : forall i r, waiting1 !! i = Some r ->
              waiting !! i = Some r \/
              (i = k /\ r = r0 /\ readsBody r0 = true)).
    { intros i r. subst waiting1. destruct (readsBody r0); [|auto].
      destruct (decide (i = k)) as [->|Hne].
      - rewrite lookup_insert_eq. intros [= <-]. auto.
      - rewrite lookup_insert_ne by congruence. auto. }
    destruct (IH (S k) waiting1 ltac:(lia)) as (w & E & Hmono & Hin & Horig).
    { intros i [r Hi]. destruct (Hfrom i r Hi) as [Hw|(-> & _)]; [|lia].
      specialize (Hlt i (ex_intro _ r Hw)). lia. }
    exists w. split; [rewrite E; f_equal; lia|]. split; [|split].
    + intros i r Hi. apply Hmono, Hkeep, Hi.
    + intros i r Hi Hl Hb. destruct (decide (i = k)) as [->|Hne].
      * apply Hmono. subst waiting1. rewrite Hr0 in Hl. injection Hl as ->.
        rewrite Hb. apply lookup_insert_eq.
      * apply Hin; [lia|exact Hl|exact Hb].
    + intros i r Hi. destruct (Horig i r Hi) as [H1|H1]; [|auto].
      destruct (Hfrom i r H1) as [Hw|(-> & -> & Hb)]; auto.
Qed.

(** Body reads only take handlers out of the waiting ones, and change
    the capture only through a handler that captures. *)
Lemma bodyReads_effect order : forall st,
  (forall i r,
     reading (fold_left (onStep readsBody capture responses)
                (map BodyRead order) st) !! i = Some r ->
     reading st !! i = Some r) /\
  (forall i, i ∉ order ->
     reading (fold_left (onStep readsBody capture responses)
                (map BodyRead order) st) !! i = reading st !! i) /\
  ((forall i r, i ∈ order -> reading st !! i = Some r -> capture r = None) ->
   capturedSpec (fold_left (onStep readsBody capture responses)
                   (map BodyRead order) st) = capturedSpec st).
Proof.
  induction order as [|j rest IH]; intros st; cbn [map fold_left];
    [auto|].
  destruct (IH (onStep readsBody capture responses st (BodyRead j)))
    as (Hmono & Hsame & Hcap).
  assert (Hsub : forall i r,
            reading (onStep readsBody capture responses st (BodyRead j)) !! i
            = Some r -> reading st !! i = Some r).
  { intros i r. cbn. destruct (reading st !! j); cbn; [|auto].
    destruct (decide (i = j)) as [->|Hne].
    - now rewrite lookup_delete_eq.
    - now rewrite lookup_delete_ne by congruence. }
  split; [|split].
  - intros i r Hi. apply Hsub, Hmono, Hi.
  - intros i Hi. apply not_elem_of_cons in Hi as [Hne Hi].
    rewrite (Hsame i Hi). cbn. destruct (reading st !! j); cbn; [|auto].
    now rewrite lookup_delete_ne by congruence.
  - intros Hnone. rewrite Hcap.
    + cbn. destruct (reading st !! j) as [r|] eqn:E; cbn; [|reflexivity].
      now rewrite (Hnone j r ltac:(apply list_elem_of_here) E).
    + intros i r Hi Hr. apply (Hnone i r); [|apply Hsub, Hr].
      now apply list_elem_of_further.
Qed.

(** When every response has arrived before any body is read, the
    capture kept is that of the last body read whose handler captures:
    the handlers that were waiting do not look at [capturedSpec] again. *)
Lemma intercept_last_body_read before j after rj c :
  j ∉ before ->
  responses !! j = Some rj -> readsBody rj = true -> capture rj = Some c ->
  (forall i r, i ∈ after -> responses !! i = Some r -> readsBody r = true ->
               capture r = None) ->
  intercept readsBody capture responses
    (repeat Arrival (length responses) ++ map BodyRead (before ++ j :: after))
  = Some c.
Proof.
  intros Hj Hl Hb Hc Hafter. unfold intercept.
  rewrite fold_left_app.
  destruct (arrivals_waiting (length responses) 0 ∅ ltac:(lia))
    as (w & -> & _ & Hin & Horig).
  { intros i [r Hi]. now rewrite lookup_empty in Hi. }
  assert (Hwj : w !! j = Some rj).
  { apply Hin; [|exact Hl|exact Hb].
    pose proof (lookup_lt_Some _ _ _ Hl). lia. }
  rewrite map_app, fold_left_app. cbn [map fold_left].
  set (st0 := {| arrived := 0 + length responses; reading := w;
                 capturedSpec := None |}).
  destruct (bodyReads_effect before st0) as (Hmono1 & Hsame1 & _).
  set (st1 := fold_left (onStep readsBody capture responses)
                (map BodyRead before) st0) in *.
  assert (H1 : reading st1 !! j = Some rj)
    by (rewrite (Hsame1 j Hj); exact Hwj).
  destruct (bodyReads_effect after
              (onStep readsBody capture responses st1 (BodyRead j)))
    as (_ & _ & Hcap).
  rewrite Hcap.
  - cbn. rewrite H1. cbn. now rewrite Hc.
  - intros i r Hi. cbn. rewrite H1. cbn. intros Hr.
    assert (Hr1 : reading st1 !! i = Some r).
    { destruct (decide (i = j)) as [->|Hne].
      - now rewrite lookup_delete_eq in Hr.
      - now rewrite lookup_delete_ne in Hr by congruence. }
    apply Hmono1 in Hr1. cbn in Hr1.
    destruct (Horig i r Hr1) as [He|[Hli Hbi]];
      [now rewrite lookup_empty in He|].
    now apply (Hafter i r).
Qed.

End InterceptionFacts.

(** *** The page is closed, and what the extractors throw *)

Section PageFacts.
Import Js Browser Spec.

(** A [try] that acquires the page and works on it, with a [catch] that
    only rethrows and a [finally] that closes the page. *)
Lemma pageClosed_try {Page A} (browser : Session Page) (body : Trace.M A)
  (h : exn -> Trace.M A) (cleanup : Trace.M unit) :
  Logs onOpenPage body ->
  (forall e, snd (h e) = []) ->
  snd cleanup = closeLog browser ->
  PageClosed browser
    (Trace.finally
       (Trace.catch
          (Trace.bind (Trace.emit EvGetPage) (fun _ =>
           Trace.bind (Trace.lift (getPage browser)) (fun _ => body)))
          h)
       cleanup).
Proof.
  intros Hb Hh Hc. unfold PageClosed. rewrite finally_log, Hc.
  unfold closeLog.
  destruct (getPage browser) as [[]|e0]; cbn.
  - destruct body as [[a|e] l]; cbn in *.
    + exists l. split; [reflexivity|exact Hb].
    + specialize (Hh e). destruct (h e) as [r l']. cbn in Hh. subst l'.
      exists l. cbn. rewrite app_nil_r. split; [reflexivity|exact Hb].
  - specialize (Hh e0). destruct (h e0) as [r l']. cbn in Hh. now subst l'.
Qed.

(** The same without a [catch]. *)
Lemma pageClosed_finally {Page A} (browser : Session Page)
  (body : Trace.M A) :
  Logs onOpenPage body ->
  PageClosed browser
    (Trace.finally
       (Trace.bind (Trace.emit EvGetPage) (fun _ =>
        Trace.bind (Trace.lift (getPage browser)) (fun _ => body)))
       (closePage browser)).
Proof.
  intros Hb. unfold PageClosed. rewrite finally_log, closePage_log.
  unfold closeLog.
  destruct (getPage browser) as [[]|e0]; cbn; [|reflexivity].
  destruct body as [[a|e] l]; cbn in *; exists l; split;
    solve [reflexivity|exact Hb].
Qed.

(** A cleanup wrapped in [try { } catch { }] leaves the outcome alone. *)
Lemma finally_quietly {Page A} (browser : Session Page) (m : Trace.M A) :
  Trace.finally m (closePageQuietly browser)
  = (fst m, (snd m ++ closeLog browser)%list).
Proof. apply finally_returns, closePageQuietly_returns. Qed.

(** An unguarded cleanup that fails replaces the outcome. *)
Lemma finally_close_rejected {Page A} (browser : Session Page)
  (m : Trace.M A) e :
  getPage browser = Return tt -> isClosed browser = false ->
  close browser = Throw e ->
  fst (Trace.finally m (closePage browser)) = Throw e.
Proof.
  intros Hg Ho Hc.
  now rewrite (finally_fails _ _ _ _ (closePage_fails _ _ _ Hg Ho Hc)).
Qed.

End PageFacts.

(** Computations that do not throw. *)
Section NoThrow.
Import Js.

Lemma returns_not_throw {A} (m : Trace.M A) :
  isThrow (fst m) = false -> exists r, fst m = Return r.
Proof. destruct m as [[a|e] l]; cbn; [eauto|discriminate]. Qed.

Lemma nothrow_ret {A} (a : A) : isThrow (fst (Trace.ret a)) = false.
Proof. reflexivity. Qed.

Lemma nothrow_emit ev : isThrow (fst (Trace.emit ev)) = false.
Proof. reflexivity. Qed.

Lemma nothrow_bind {A B} (m : Trace.M A) (k : A -> Trace.M B) :
  isThrow (fst m) = false -> (forall a, isThrow (fst (k a)) = false) ->
  isThrow (fst (Trace.bind m k)) = false.
Proof.
  destruct m as [[a|e] l]; cbn; intros Hm Hk; [|discriminate].
  specialize (Hk a). now destruct (k a).
Qed.

End NoThrow.

Ltac no_throw :=
  repeat match goal with
         | |- Js.isThrow (fst (if ?b then _ else _)) = false => destruct b
         | |- Js.isThrow (fst (match ?x with _ => _ end)) = false => destruct x
         | |- _ =>
             first [ apply nothrow_ret | apply nothrow_emit
                   | apply nothrow_bind; [|intros ?] ]
         end.

(** Steps through a computation whose events all happen on the open
    page. *)
Ltac open_page_step :=
  first
    [ apply logs_ret | apply logs_throw | apply logs_lift
    | apply logs_emit; split; discriminate
    | apply logs_bind; [|intros ?]
    | apply logs_catch; [|intros ?] ].

Ltac open_page_log :=
  repeat match goal with
         | |- Spec.Logs _ (if ?b then _ else _) => destruct b
         | |- Spec.Logs _ (match ?x with _ => _ end) => destruct x
         | |- Spec.Logs _ (let '(_, _) := ?x in _) => destruct x
         | |- _ => open_page_step
         end.

Section ExtractorFacts.
Import Js Browser Spec.
Context `{Host}.

Local Arguments SwaggerUI.extractFromLoadedPage : simpl never.
Local Arguments Redoc.extractFromLoadedPage : simpl never.

Lemma swagger_loaded_page_log page n :
  Logs onOpenPage (SwaggerUI.extractFromLoadedPage page n).
Proof. unfold SwaggerUI.extractFromLoadedPage. open_page_log. Qed.

Lemma redoc_loaded_page_log net page n :
  Logs onOpenPage (Redoc.extractFromLoadedPage net page n).
Proof.
  unfold Redoc.extractFromLoadedPage, Redoc.scriptStrategy,
    Redoc.fetchSpecFromUrl.
  open_page_log.
Qed.

Lemma scraper_endpoints_log page framework url :
  Logs onOpenPage (DocsScraper.extractEndpoints page framework url).
Proof.
  unfold DocsScraper.extractEndpoints,
    DocsScraper.extractSwaggerUiEndpoints, DocsScraper.extractRedocEndpoints,
    DocsScraper.extractScalarEndpoints, DocsScraper.extractGenericEndpoints.
  apply logs_catch; [|intros; apply logs_throw].
  open_page_log.
Qed.

(** Once the page is loaded and shows no authentication wall, the
    strategies never throw. *)
Lemma swagger_loaded_page_returns page n :
  exists r, fst (SwaggerUI.extractFromLoadedPage page n) = Return r.
Proof.
  apply returns_not_throw.
  unfold SwaggerUI.extractFromLoadedPage. no_throw.
Qed.

Lemma redoc_loaded_page_returns net page n :
  exists r, fst (Redoc.extractFromLoadedPage net page n) = Return r.
Proof.
  apply returns_not_throw.
  unfold Redoc.extractFromLoadedPage, Redoc.scriptStrategy,
    Redoc.fetchSpecFromUrl.
  no_throw.
Qed.

(** X6. Every entry point that works on a rendered page closes it.
    When [getPage] fails nothing else happens; when it succeeds,
    [page.close] is called once, as the last event of the call, whether
    the call returns or throws (navigation failure, authentication wall,
    failed extraction), unless the page is found closed already. This
    holds of [extractFromSwaggerUI], [extractFromRedoc],
    [scrapeEndpoints], [detectFrameworkFromUrl] and [searchProvider].
    The two spec extractors call it inside [try { } catch { }]: how the
    cleanup goes does not change their outcome. The three others await
    it unguarded: when it is rejected, its error is what the call
    throws, whatever the call had returned or thrown. *)
Theorem every_entry_point_closes_its_page :
  (forall browser url,
     PageClosed browser (SwaggerUI.extractFromSwaggerUI browser url)) /\
  (forall net browser url,
     PageClosed browser (Redoc.extractFromRedoc net browser url)) /\
  (forall browser url forced now,
     PageClosed browser (DocsScraper.scrapeEndpoints browser url forced now)) /\
  (forall browser url,
     PageClosed browser (DocsScraper.detectFrameworkFromUrl browser url)) /\
  (forall browser query,
     PageClosed browser (ApiTracker.searchProvider browser query)) /\
  (forall browser closed closing url,
     fst (SwaggerUI.extractFromSwaggerUI
            {| getPage := getPage browser; goto := goto browser;
               isClosed := closed; close := closing |} url)
     = fst (SwaggerUI.extractFromSwaggerUI browser url)) /\
  (forall net browser closed closing url,
     fst (Redoc.extractFromRedoc net
            {| getPage := getPage browser; goto := goto browser;
               isClosed := closed; close := closing |} url)
     = fst (Redoc.extractFromRedoc net browser url)) /\
  (forall browser e,
     getPage browser = Return tt -> isClosed browser = false ->
     close browser = Throw e ->
     forall url forced now,
       fst (DocsScraper.scrapeEndpoints browser url forced now) = Throw e) /\
  (forall browser e,
     getPage browser = Return tt -> isClosed browser = false ->
     close browser = Throw e ->
     forall url,
       fst (DocsScraper.detectFrameworkFromUrl browser url) = Throw e) /\
  (forall browser e,
     getPage browser = Return tt -> isClosed browser = false ->
     close browser = Throw e ->
     forall query,
       fst (ApiTracker.searchProvider browser query) = Throw e).
Proof.
  repeat apply conj.
  - intros browser url. unfold SwaggerUI.extractFromSwaggerUI.
    apply pageClosed_try.
    + repeat match goal with
             | |- Logs _ (SwaggerUI.extractFromLoadedPage _ _) =>
                 apply swagger_loaded_page_log
             | |- Logs _ (if ?b then _ else _) => destruct b
             | |- _ => open_page_step
             end.
    + intros e. now destruct (_ || _)%bool.
    + now rewrite closePageQuietly_returns.
  - intros net browser url. unfold Redoc.extractFromRedoc.
    apply pageClosed_try.
    + repeat match goal with
             | |- Logs _ (Redoc.extractFromLoadedPage _ _ _) =>
                 apply redoc_loaded_page_log
             | |- Logs _ (if ?b then _ else _) => destruct b
             | |- _ => open_page_step
             end.
    + intros e. now destruct (_ || _)%bool.
    + now rewrite closePageQuietly_returns.
  - intros browser url forced now. unfold DocsScraper.scrapeEndpoints.
    apply pageClosed_try.
    + unfold DocsScraper.extractApiInfo.
      repeat match goal with
             | |- Logs _ (DocsScraper.extractEndpoints _ _ _) =>
                 apply scraper_endpoints_log
             | |- Logs _ (if ?b then _ else _) => destruct b
             | |- Logs _ (match ?x with _ => _ end) => destruct x
             | |- _ => open_page_step
             end.
    + intros e. now destruct (DocsScraper.isScraperError e).
    + apply closePage_log.
  - intros browser url. unfold DocsScraper.detectFrameworkFromUrl.
    apply pageClosed_finally. open_page_log.
  - intros browser query. unfold ApiTracker.searchProvider.
    apply pageClosed_try.
    + unfold ApiTracker.searchPath. open_page_log.
    + intros e. now destruct (ApiTracker.isNotFound e).
    + apply closePage_log.
  - intros browser closed closing url. unfold SwaggerUI.extractFromSwaggerUI.
    now rewrite !finally_quietly.
  - intros net browser closed closing url. unfold Redoc.extractFromRedoc.
    now rewrite !finally_quietly.
  - intros browser e Hg Ho Hc url forced now.
    now apply finally_close_rejected.
  - intros browser e Hg Ho Hc url. now apply finally_close_rejected.
  - intros browser e Hg Ho Hc query. now apply finally_close_rejected.
Qed.

(** X7. What the two spec extractors throw. Whatever goes wrong, the
    caller sees an error of the extractor's own family, or the
    BrowserError of a failed [getPage]; a failed navigation is reported
    as ExtractionTimeoutError when the failure is a TimeoutError and as
    PageLoadError otherwise. *)
Theorem extractors_throw_their_own_errors :
  (forall browser url e,
     fst (SwaggerUI.extractFromSwaggerUI browser url) = Throw e ->
     SwaggerUI.isSwaggerUIExtractorError e = true \/
     (e = BrowserError /\ getPage browser = Throw BrowserError)) /\
  (forall browser url e0,
     getPage browser = Return tt ->
     goto browser (normalizeUrl url) = Throw e0 ->
     fst (SwaggerUI.extractFromSwaggerUI browser url)
     = Throw (if SwaggerUI.isTimeoutError e0
              then SwaggerUIExtractionTimeoutError (normalizeUrl url)
              else SwaggerUIPageLoadError (normalizeUrl url))) /\
  (forall net browser url e,
     fst (Redoc.extractFromRedoc net browser url) = Throw e ->
     Redoc.isRedocExtractorError e = true \/
     (e = BrowserError /\ getPage browser = Throw BrowserError)) /\
  (forall net browser url e0,
     getPage browser = Return tt ->
     goto browser (normalizeUrl url) = Throw e0 ->
     fst (Redoc.extractFromRedoc net browser url)
     = Throw (if Redoc.isTimeoutError e0
              then RedocExtractionTimeoutError (normalizeUrl url)
              else RedocPageLoadError (normalizeUrl url))).
Proof.
  split; [|split; [|split]].
  - intros browser url e. unfold SwaggerUI.extractFromSwaggerUI.
    rewrite finally_quietly. cbn [fst].
    destruct (getPage browser) as [[]|e0] eqn:Hg.
    + cbn. destruct (goto browser (normalizeUrl url)) as [page|e1]; cbn.
      * destruct (SwaggerUI.detectAuthRequired page); cbn.
        -- intros [= <-]. now left.
        -- destruct (swagger_loaded_page_returns page (normalizeUrl url))
             as [r Hr].
           destruct (SwaggerUI.extractFromLoadedPage page (normalizeUrl url))
             as [o l]. cbn in Hr. subst o. discriminate.
      * destruct (SwaggerUI.isTimeoutError e1); cbn; intros [= <-]; now left.
    + cbn. destruct e0; cbn; intros [= <-]; auto.
  - intros browser url e0 Hg Hn. unfold SwaggerUI.extractFromSwaggerUI.
    rewrite finally_quietly. cbn [fst].
    rewrite Hg. cbn. rewrite Hn. cbn.
    now destruct (SwaggerUI.isTimeoutError e0).
  - intros net browser url e. unfold Redoc.extractFromRedoc.
    rewrite finally_quietly. cbn [fst].
    destruct (getPage browser) as [[]|e0] eqn:Hg.
    + cbn. destruct (goto browser (normalizeUrl url)) as [page|e1]; cbn.
      * destruct (Redoc.detectAuthRequired page); cbn.
        -- intros [= <-]. now left.
        -- destruct (redoc_loaded_page_returns net page (normalizeUrl url))
             as [r Hr].
           destruct (Redoc.extractFromLoadedPage net page (normalizeUrl url))
             as [o l]. cbn in Hr. subst o. discriminate.
      * destruct (Redoc.isTimeoutError e1); cbn; intros [= <-]; now left.
    + cbn. destruct e0; cbn; intros [= <-]; auto.
  - intros net browser url e0 Hg Hn. unfold Redoc.extractFromRedoc.
    rewrite finally_quietly. cbn [fst].
    rewrite Hg. cbn. rewrite Hn. cbn.
    now destruct (Redoc.isTimeoutError e0).
Qed.

(** A handler run on one response after the other keeps the first
    capture. *)
Lemma fold_first_capture {R C} (h : option C -> R -> option C)
  (responses : list R) (captured : C) :
  (forall c r, h (Some c) r = Some c) ->
  fold_left h responses None = Some captured <->
  exists before response after,
    responses = (before ++ response :: after)%list /\
    Forall (fun r => h None r = None) before /\
    h None response = Some captured.
Proof.
  intros Hkeep.
  assert (Hfold : forall l c, fold_left h l (Some c) = Some c).
  { induction l as [|r rest IH]; intros c; cbn; [reflexivity|].
    now rewrite Hkeep. }
  split.
  - induction responses as [|r rest IH]; cbn [fold_left]; [discriminate|].
    destruct (h None r) as [c|] eqn:E.
    + rewrite Hfold. intros [= <-]. exists [], r, rest. auto.
    + intros Hf. destruct (IH Hf) as (b & x & a & -> & Hb & Hx).
      exists (r :: b), x, a. auto.
  - intros (b & x & a & -> & Hb & Hx).
    induction Hb as [|r b Hr _ IH]; cbn [fold_left app].
    + rewrite Hx. apply Hfold.
    + rewrite Hr. exact IH.
Qed.

(** What [getSpec] yields was captured from one of the responses. *)
Lemma swagger_getSpec_sound page captured :
  SwaggerUI.getSpec page = Some captured ->
  exists response,
    response ∈ SwaggerUI.pg_responses page /\
    SwaggerUI.responseHandler None response = Some captured.
Proof.
  intros Hg. apply intercept_sound in Hg as (r & Hin & Hb & Hc).
  exists r. split; [exact Hin|].
  unfold SwaggerUI.responseHandler. now rewrite Hb.
Qed.

Lemma redoc_getSpec_sound page captured :
  Redoc.getSpec page = Some captured ->
  exists response,
    response ∈ Redoc.pg_responses page /\
    Redoc.responseHandler None response = Some captured.
Proof.
  intros Hg. apply intercept_sound in Hg as (r & Hin & Hb & Hc).
  exists r. split; [exact Hin|].
  unfold Redoc.responseHandler. now rewrite Hb.
Qed.

(** X9. Network interception keeps the first response that qualifies
    when the responses do not overlap, in both extractors: if each body
    was read before the next response arrived, [getSpec] gives a spec
    exactly when the handler captures some response, and then it is the
    capture of the first such response in the order of arrival; later
    responses, valid or not, change nothing. *)
Theorem interception_keeps_first_capture :
  (forall page captured,
     SwaggerUI.pg_timeline page
     = oneByOne (length (SwaggerUI.pg_responses page)) ->
     SwaggerUI.getSpec page = Some captured <->
     exists before response after,
       SwaggerUI.pg_responses page = (before ++ response :: after)%list /\
       Forall (fun r => SwaggerUI.responseHandler None r = None) before /\
       SwaggerUI.responseHandler None response = Some captured) /\
  (forall page captured,
     Redoc.pg_timeline page = oneByOne (length (Redoc.pg_responses page)) ->
     Redoc.getSpec page = Some captured <->
     exists before response after,
       Redoc.pg_responses page = (before ++ response :: after)%list /\
       Forall (fun r => Redoc.responseHandler None r = None) before /\
       Redoc.responseHandler None response = Some captured).
Proof.
  split.
  - intros page captured Ht. unfold SwaggerUI.getSpec.
    rewrite Ht, intercept_oneByOne.
    now apply (fold_first_capture SwaggerUI.responseHandler).
  - intros page captured Ht. unfold Redoc.getSpec.
    rewrite Ht, intercept_oneByOne.
    now apply (fold_first_capture Redoc.responseHandler).
Qed.

(** X29. When the responses overlap, network interception does not
    keep the first capture: the test [if (capturedSpec) return] comes
    before [await response.text()], so every handler that started before
    the first capture goes on to the end. If every response has arrived
    before any body is read, [getSpec] gives the capture of the last body
    read whose handler captures, whatever was captured before it. *)
Theorem interception_last_body_read_wins :
  (forall page before j after response captured,
     SwaggerUI.pg_timeline page
     = (repeat Arrival (length (SwaggerUI.pg_responses page))
        ++ map BodyRead (before ++ j :: after))%list ->
     j ∉ before ->
     SwaggerUI.pg_responses page !! j = Some response ->
     SwaggerUI.responseHandler None response = Some captured ->
     (forall i r, i ∈ after -> SwaggerUI.pg_responses page !! i = Some r ->
                  SwaggerUI.responseHandler None r = None) ->
     SwaggerUI.getSpec page = Some captured) /\
  (forall page before j after response captured,
     Redoc.pg_timeline page
     = (repeat Arrival (length (Redoc.pg_responses page))
        ++ map BodyRead (before ++ j :: after))%list ->
     j ∉ before ->
     Redoc.pg_responses page !! j = Some response ->
     Redoc.responseHandler None response = Some captured ->
     (forall i r, i ∈ after -> Redoc.pg_responses page !! i = Some r ->
                  Redoc.responseHandler None r = None) ->
     Redoc.getSpec page = Some captured).
Proof.
  split.
  - intros page before j after response captured Ht Hj Hl Hc Hafter.
    unfold SwaggerUI.getSpec. rewrite Ht.
    unfold SwaggerUI.responseHandler in Hc.
    destruct (SwaggerUI.readsBody response) eqn:Hb; [|discriminate].
    apply intercept_last_body_read with (rj := response); auto.
    intros i r Hi Hr Hbr. specialize (Hafter i r Hi Hr).
    unfold SwaggerUI.responseHandler in Hafter. now rewrite Hbr in Hafter.
  - intros page before j after response captured Ht Hj Hl Hc Hafter.
    unfold Redoc.getSpec. rewrite Ht.
    unfold Redoc.responseHandler in Hc.
    destruct (Redoc.readsBody response) eqn:Hb; [|discriminate].
    apply intercept_last_body_read with (rj := response); auto.
    intros i r Hi Hr Hbr. specialize (Hafter i r Hi Hr).
    unfold Redoc.responseHandler in Hafter. now rewrite Hbr in Hafter.
Qed.

Lemma swagger_capture_valid response spec url :
  SwaggerUI.responseHandler None response = Some (spec, url) ->
  url = ir_url response /\ SwaggerUI.isSpecUrl url = true /\
  truthy spec = true.
Proof.
  unfold SwaggerUI.responseHandler, SwaggerUI.readsBody, SwaggerUI.capture.
  destruct (SwaggerUI.isSpecUrl (ir_url response)) eqn:Hu; cbn; [|discriminate].
  destruct (includes _ "text/html"); [discriminate|]. cbn.
  destruct (ir_text response) as [text|e]; [|discriminate].
  destruct (_ || _)%bool; [discriminate|]. cbn.
  destruct (JSON_parse text) as [parsed|]; [|discriminate].
  destruct (SwaggerUI.validateSpec parsed) eqn:Hv; [|discriminate].
  intros [= <- <-]. split; [reflexivity|]. split; [exact Hu|].
  unfold SwaggerUI.validateSpec in Hv.
  destruct (truthy parsed); [reflexivity|discriminate].
Qed.

Lemma swagger_getSpec_truthy page spec url :
  SwaggerUI.getSpec page = Some (spec, url) -> truthy spec = true.
Proof.
  intros Hg. apply swagger_getSpec_sound in Hg as (x & _ & Hx).
  now apply swagger_capture_valid in Hx.
Qed.

Lemma swagger_loaded_result page n result l :
  SwaggerUI.extractFromLoadedPage page n = (Return (Some result), l) ->
  SwaggerUI.validateSpec (SwaggerUI.s_spec result)
  = Some (SwaggerUI.s_specInfo result) /\
  SwaggerUI.s_format result = "json" /\
  (SwaggerUI.s_sourceUrl result = n \/
   SwaggerUI.getSpec page
   = Some (SwaggerUI.s_spec result, SwaggerUI.s_sourceUrl result)).
Proof.
  revert result l.
  assert (Hk : forall (P : SwaggerUI.SpecResult -> Prop),
            (forall spec src info,
               SwaggerUI.validateSpec spec = Some info ->
               src = n \/ SwaggerUI.getSpec page = Some (spec, src) ->
               P {| SwaggerUI.s_spec := spec; SwaggerUI.s_format := "json";
                    SwaggerUI.s_specInfo := info;
                    SwaggerUI.s_sourceUrl := src |}) ->
            forall result l,
              SwaggerUI.extractFromLoadedPage page n
              = (Return (Some result), l) -> P result).
  { intros P HP result l. unfold SwaggerUI.extractFromLoadedPage.
    destruct (SwaggerUI.pg_swaggerUIReady page); cbn;
      repeat (match goal with
              | |- context [SwaggerUI.getSpec page] =>
                  destruct (SwaggerUI.getSpec page) as [[s u]|] eqn:Hg;
                  [pose proof (swagger_getSpec_truthy _ _ _ Hg) as Ht|]
              | |- context [truthy ?v] => destruct (truthy v) eqn:?
              | |- context [SwaggerUI.validateSpec ?v] =>
                  destruct (SwaggerUI.validateSpec v) eqn:?
              end; cbn);
      try discriminate; try congruence;
      intros E; inversion E; subst; apply HP; try assumption;
      solve [left; reflexivity | right; reflexivity | right; assumption]. }
  apply Hk. intros spec src info Hv Hsrc. cbn. auto.
Qed.

(** X10. What [extractFromSwaggerUI] returns: a document that passes
    the extractor's [validateSpec] (whose result is the spec info
    returned), always labelled [json], taken from a page that showed no
    authentication wall; its source URL is the normalized target, or the
    URL of the intercepted response the document was captured from, a
    response whose URL matches a spec URL pattern. *)
Theorem extractFromSwaggerUI_result_validated browser url result :
  fst (SwaggerUI.extractFromSwaggerUI browser url) = Return (Some result) ->
  SwaggerUI.validateSpec (SwaggerUI.s_spec result)
  = Some (SwaggerUI.s_specInfo result) /\
  SwaggerUI.s_format result = "json" /\
  exists page,
    goto browser (normalizeUrl url) = Return page /\
    SwaggerUI.detectAuthRequired page = false /\
    (SwaggerUI.s_sourceUrl result = normalizeUrl url \/
     exists response,
       response ∈ SwaggerUI.pg_responses page /\
       ir_url response = SwaggerUI.s_sourceUrl result /\
       SwaggerUI.isSpecUrl (ir_url response) = true /\
       SwaggerUI.responseHandler None response
       = Some (SwaggerUI.s_spec result, SwaggerUI.s_sourceUrl result)).
Proof.
  unfold SwaggerUI.extractFromSwaggerUI.
  rewrite finally_quietly. cbn [fst].
  destruct (getPage browser) as [[]|e0]; cbn;
    [|destruct (_ || _)%bool; discriminate].
  destruct (goto browser (normalizeUrl url)) as [page|e1]; cbn;
    [|destruct (SwaggerUI.isTimeoutError e1); discriminate].
  destruct (SwaggerUI.detectAuthRequired page) eqn:Ha; cbn; [discriminate|].
  destruct (SwaggerUI.extractFromLoadedPage page (normalizeUrl url))
    as [[r|e2] l] eqn:E; cbn; [|destruct (_ || _)%bool; discriminate].
  intros [= ->].
  apply swagger_loaded_result in E as (Hv & Hf & Hsrc).
  split; [exact Hv|]. split; [exact Hf|].
  exists page. split; [reflexivity|]. split; [exact Ha|].
  destruct Hsrc as [Hn|Hg]; [now left|right].
  apply swagger_getSpec_sound in Hg as (x & Hl & Hx).
  pose proof Hx as Hx'. apply swagger_capture_valid in Hx' as (Hu & Hs & _).
  exists x. split; [exact Hl|].
  split; [now symmetry|]. split; [now rewrite <- Hu|exact Hx].
Qed.

Lemma bind_returns {A B} (m : Trace.M A) (k : A -> Trace.M B) x l :
  Trace.bind m k = (Return x, l) ->
  exists a l1 l2, m = (Return a, l1) /\ k a = (Return x, l2).
Proof.
  destruct m as [[a|e] l1]; cbn; [|discriminate].
  destruct (k a) as [r l2] eqn:E. intros [= -> _]. eauto.
Qed.

Lemma redoc_loaded_result net page n result l :
  Redoc.extractFromLoadedPage net page n = (Return (Some result), l) ->
  Redoc.validateSpec (Redoc.s_spec result) = Some (Redoc.s_specInfo result) /\
  Redoc.s_format result = "json" /\
  truthy (Redoc.s_spec result) = true.
Proof.
  unfold Redoc.extractFromLoadedPage, mbind, trace_bind. intros E.
  apply bind_returns in E as (_ & _ & l1 & _ & E).
  apply bind_returns in E as (spec1 & _ & l2 & _ & E).
  apply bind_returns in E as (p2 & _ & l3 & _ & E).
  apply bind_returns in E as (p3 & _ & l4 & _ & E).
  destruct (truthy p3.1) eqn:Ht; [|discriminate].
  destruct (Redoc.validateSpec p3.1) as [info|] eqn:Hv; [|discriminate].
  injection E as <- _. cbn. auto.
Qed.

(** X11. What [extractFromRedoc] returns: a document that passes the
    extractor's [validateSpec] (whose result is the spec info returned),
    taken from a page that showed no authentication wall, and labelled
    [json] whichever way it was obtained, also when it was parsed as YAML
    from an intercepted response or from the spec URL of the page. *)
Theorem extractFromRedoc_result_validated net browser url result :
  fst (Redoc.extractFromRedoc net browser url) = Return (Some result) ->
  Redoc.validateSpec (Redoc.s_spec result) = Some (Redoc.s_specInfo result) /\
  Redoc.s_format result = "json" /\
  exists page,
    goto browser (normalizeUrl url) = Return page /\
    Redoc.detectAuthRequired page = false.
Proof.
  unfold Redoc.extractFromRedoc.
  rewrite finally_quietly. cbn [fst].
  destruct (getPage browser) as [[]|e0]; cbn;
    [|destruct (_ || _)%bool; discriminate].
  destruct (goto browser (normalizeUrl url)) as [page|e1]; cbn;
    [|destruct (Redoc.isTimeoutError e1); discriminate].
  destruct (Redoc.detectAuthRequired page) eqn:Ha; cbn; [discriminate|].
  destruct (Redoc.extractFromLoadedPage net page (normalizeUrl url))
    as [[r|e2] l] eqn:E; cbn; [|destruct (_ || _)%bool; discriminate].
  intros [= ->].
  apply redoc_loaded_result in E as (Hv & Hf & _).
  split; [exact Hv|]. split; [exact Hf|]. exists page. auto.
Qed.

End ExtractorFacts.

Section ExtractorExamples.
Import Js Browser Example.

Lemma extractors_throw_their_own_errors_witness :
  fst (SwaggerUI.extractFromSwaggerUI (H:=host) timingOut docsUrl)
  = Throw (SwaggerUIExtractionTimeoutError docsUrl) /\
  fst (Redoc.extractFromRedoc (H:=host) (serving exampleUrl empty_json)
         timingOut docsUrl)
  = Throw (RedocExtractionTimeoutError docsUrl).
Proof.
  split.
  - exact (proj1 (proj2 (extractors_throw_their_own_errors (H:=host)))
             timingOut docsUrl TimeoutError eq_refl eq_refl).
  - exact (proj2 (proj2 (proj2 (extractors_throw_their_own_errors (H:=host))))
             (serving exampleUrl empty_json) timingOut docsUrl TimeoutError
             eq_refl eq_refl).
Defined.

Lemma every_entry_point_closes_its_page_witness :
  DocsScraper.scrapeEndpoints (always loginPage) docsUrl None 1000
  = (Return {| DocsScraper.sr_url := docsUrl;
               DocsScraper.sr_framework := "generic";
               DocsScraper.sr_apiInfo := noApiInfo;
               DocsScraper.sr_endpoints :=
                 [DocsScraper.domEndpoint "GET" "/api/users" EmptyString];
               DocsScraper.sr_extractedAt := 1000 |},
     [EvGetPage; EvGoto docsUrl; EvLayer "detectFramework";
      EvLayer "generic DOM"; EvClosePage]) /\
  fst (DocsScraper.scrapeEndpoints (failingClose (always loginPage)) docsUrl
         None 1000)
  = Throw targetClosed.
Proof.
  split; [vm_compute; reflexivity|].
  exact (proj1 (proj2 (proj2 (proj2 (proj2 (proj2 (proj2 (proj2
           (every_entry_point_closes_its_page (H:=host)))))))))
           (failingClose (always loginPage)) targetClosed
           eq_refl eq_refl eq_refl docsUrl None 1000).
Defined.

Lemma interception_keeps_first_capture_witness :
  exists before response after,
    SwaggerUI.pg_responses networkPage
    = (before ++ response :: after)%list /\
    Forall (fun r => SwaggerUI.responseHandler (H:=host) None r = None)
           before /\
    SwaggerUI.responseHandler (H:=host) None response
    = Some (petstore3, swaggerUrl).
Proof.
  refine (proj1 (proj1 (interception_keeps_first_capture (H:=host))
                   networkPage (petstore3, swaggerUrl) eq_refl) _).
  vm_compute. reflexivity.
Defined.

Lemma interception_last_body_read_wins_witness :
  SwaggerUI.getSpec (H:=host) networkPage = Some (petstore3, swaggerUrl) /\
  SwaggerUI.getSpec (H:=host) overlappingPage = Some (petstore3, exampleUrl).
Proof.
  split; [vm_compute; reflexivity|].
  refine (proj1 (interception_last_body_read_wins (H:=host))
            overlappingPage [1%nat] 2%nat [] (specResponse exampleUrl)
            (petstore3, exampleUrl) eq_refl _ eq_refl _ _).
  - intros Hin. apply list_elem_of_singleton in Hin. discriminate.
  - vm_compute. reflexivity.
  - intros i r Hi. now apply elem_of_nil in Hi.
Defined.

Lemma extractFromSwaggerUI_result_validated_witness :
  exists result,
    fst (SwaggerUI.extractFromSwaggerUI (H:=host) (always networkPage)
           docsUrl) = Return (Some result) /\
    SwaggerUI.s_sourceUrl result = swaggerUrl /\
    SwaggerUI.validateSpec (SwaggerUI.s_spec result)
    = Some (SwaggerUI.s_specInfo result).
Proof.
  eexists. split; [vm_compute; reflexivity|]. split; [reflexivity|].
  refine (proj1 (extractFromSwaggerUI_result_validated (H:=host)
                   (always networkPage) docsUrl _ _)).
  vm_compute. reflexivity.
Defined.

Lemma extractFromRedoc_result_validated_witness :
  exists result,
    fst (Redoc.extractFromRedoc (H:=host) (serving exampleUrl empty_json)
           (always redocNetworkPage) docsUrl) = Return (Some result) /\
    Redoc.s_format result = "json" /\
    Redoc.validateSpec (Redoc.s_spec result) = Some (Redoc.s_specInfo result).
Proof.
  eexists. split; [vm_compute; reflexivity|]. split; [reflexivity|].
  refine (proj1 (extractFromRedoc_result_validated (H:=host)
                   (serving exampleUrl empty_json) (always redocNetworkPage)
                   docsUrl _ _)).
  vm_compute. reflexivity.
Defined.

End ExtractorExamples.

(** *** More on the DOM scraper *)

Section ScraperFacts.
Import Js Browser DocsScraper Spec.

Lemma upperChar_lowerChar c : upperChar (lowerChar c) = upperChar c.
Proof. destruct c as [[] [] [] [] [] [] [] []]; reflexivity. Qed.

Lemma toUpperCase_toLowerCase s : toUpperCase (toLowerCase s) = toUpperCase s.
Proof.
  induction s as [|c r IH]; cbn; [reflexivity|].
  now rewrite upperChar_lowerChar, IH.
Qed.

Lemma inList_elem s l : inList s l = true -> s ∈ l.
Proof.
  unfold inList. induction l as [|x r IH]; cbn; [discriminate|].
  destruct (String.eqb_spec s x) as [->|_]; cbn.
  - intros _. apply list_elem_of_here.
  - intros Hr. apply list_elem_of_further, IH, Hr.
Qed.

(** A method name that passes the lower-case test is written, in upper
    case, as one of the seven method names. *)
Lemma upper_method m :
  inList (toLowerCase m) HTTP_METHODS_LOWER = true ->
  inList (toUpperCase m) GENERIC_METHODS = true.
Proof.
  intros Hm. rewrite <- toUpperCase_toLowerCase.
  apply inList_elem in Hm. unfold HTTP_METHODS_LOWER in Hm.
  repeat (apply elem_of_cons in Hm as [->|Hm]; [reflexivity|]).
  inversion Hm.
Qed.

Local Arguments inList : simpl never.

Lemma endpointsOfMethods_sound p methods :
  forall es, endpointsOfMethods p methods = Return es ->
  Forall (fun e => inList (method e) GENERIC_METHODS = true /\ path e = p) es.
Proof.
  induction methods as [|[m details] rest IH]; intros es; cbn.
  - intros [= <-]. constructor.
  - destruct (inList (toLowerCase m) HTTP_METHODS_LOWER) eqn:Hm; [|apply IH].
    destruct (endpointOfOperation p m details) as [e|x] eqn:He; cbn;
      [|discriminate].
    destruct (endpointsOfMethods p rest) as [es'|x]; cbn; [|discriminate].
    intros [= <-]. constructor; [|now apply IH].
    unfold endpointOfOperation in He.
    destruct details; try discriminate; injection He as <-; cbn;
      (split; [now apply upper_method|reflexivity]).
Qed.

Lemma endpointsOfPathItems_sound items :
  forall es, endpointsOfPathItems items = Return es ->
  Forall (fun e => inList (method e) GENERIC_METHODS = true /\
                   exists methods, (path e, methods) ∈ items) es.
Proof.
  induction items as [|[p methods] rest IH]; intros es; cbn.
  - intros [= <-]. constructor.
  - destruct (entries methods) as [ms|x]; cbn; [|discriminate].
    destruct (endpointsOfMethods p ms) as [es1|x] eqn:E1; cbn; [|discriminate].
    destruct (endpointsOfPathItems rest) as [es2|x]; cbn; [|discriminate].
    intros [= <-]. apply Forall_app. split.
    + apply endpointsOfMethods_sound in E1.
      eapply Forall_impl; [exact E1|]. cbn. intros e [Hm ->].
      split; [exact Hm|]. exists methods. apply list_elem_of_here.
    + specialize (IH es2 eq_refl).
      eapply Forall_impl; [exact IH|]. cbn. intros e [Hm [ms' Hin]].
      split; [exact Hm|]. exists ms'. now apply list_elem_of_further.
Qed.

(** X12. The endpoints read off a spec held by the page (the first
    strategy of the Swagger UI, Redoc and Scalar scrapers): every one
    carries one of the seven method names GET, POST, PUT, DELETE, PATCH,
    OPTIONS, HEAD in upper case, whatever the case of the key in the
    document, and sits under a path that is a key of [paths]; any other
    key of a path item ([trace], [parameters], [summary], ...) yields no
    endpoint. *)
Theorem spec_endpoints_have_known_methods paths es :
  endpointsOfPaths paths = Return es ->
  exists items,
    entries paths = Return items /\
    Forall (fun e => inList (method e) GENERIC_METHODS = true /\
                     exists methods, (path e, methods) ∈ items) es.
Proof.
  unfold endpointsOfPaths.
  destruct (entries paths) as [items|x]; cbn; [|discriminate].
  intros E. exists items. split; [reflexivity|].
  now apply endpointsOfPathItems_sound.
Qed.

(** The loops of the generic scraper keep the Set and the array in
    step. *)
Lemma rowLoop_deduped budget :
  forall cells seen endpoints,
    Deduped seen endpoints ->
    Deduped (fst (rowLoop budget cells seen endpoints))
            (snd (rowLoop budget cells seen endpoints)).
Proof.
  induction budget as [|b IH]; intros cells seen endpoints Hd; [exact Hd|].
  destruct cells as [|c rest]; [exact Hd|]. cbn [rowLoop].
  destruct (Regex.matchMethodOnly BODY_METHODS c) as [m|]; [|now apply IH].
  destruct (firstPathCell rest) as [[p d]|]; [|now apply IH].
  destruct (decide (key (toUpperCase m) p ∈ seen)); [now apply IH|].
  apply IH. now apply deduped_push.
Qed.

Lemma rowsLoop_deduped rows :
  forall seen endpoints,
    Deduped seen endpoints ->
    Deduped (fst (rowsLoop rows seen endpoints))
            (snd (rowsLoop rows seen endpoints)).
Proof.
  induction rows as [|row rest IH]; intros seen endpoints Hd; [exact Hd|].
  cbn [rowsLoop].
  pose proof (rowLoop_deduped 3 row seen endpoints Hd) as Hr.
  destruct (rowLoop 3 row seen endpoints) as [seen' endpoints'].
  now apply IH.
Qed.

Lemma codeBlockLoop_deduped blocks :
  forall seen endpoints,
    Deduped seen endpoints ->
    Deduped (fst (codeBlockLoop blocks seen endpoints))
            (snd (codeBlockLoop blocks seen endpoints)).
Proof.
  induction blocks as [|text rest IH]; intros seen endpoints Hd; [exact Hd|].
  cbn [codeBlockLoop].
  pose proof (addUnseen_deduped _
                (bodyCandidates_wellKeyed GENERIC_METHODS codePathChar text)
                seen endpoints Hd) as Ha.
  destruct (addUnseen _ seen endpoints) as [seen' endpoints'].
  now apply IH.
Qed.

(** X13. The generic scraper returns no two endpoints with the same
    method and path, across its three sources (code blocks, table rows,
    body text): they share one [seen] Set. *)
Theorem extractGenericEndpoints_no_duplicates page es :
  fst (extractGenericEndpoints page) = Return es -> NoDup (map keyOf es).
Proof.
  unfold extractGenericEndpoints.
  pose proof (codeBlockLoop_deduped (pg_codeBlocks page) ∅ [] deduped_start)
    as H1.
  destruct (codeBlockLoop (pg_codeBlocks page) ∅ []) as [seen1 eps1].
  pose proof (rowsLoop_deduped (concat (pg_tables page)) seen1 eps1 H1) as H2.
  destruct (rowsLoop (concat (pg_tables page)) seen1 eps1) as [seen2 eps2].
  cbn [fst snd] in H2.
  assert (Hrev : forall l, NoDup (map keyOf l) -> NoDup (map keyOf (rev l))).
  { intros l Hl. rewrite map_rev. apply NoDup_ListNoDup, List.NoDup_rev.
    now apply NoDup_ListNoDup. }
  destruct eps2 as [|e2 r2].
  - destruct (pg_bodyInnerText page) as [bodyText|]; cbn; [|discriminate].
    intros [= <-]. apply Hrev.
    apply (addUnseen_deduped _
             (bodyCandidates_wellKeyed BODY_METHODS bodyPathChar bodyText)
             seen2 [] H2).
  - cbn. intros [= <-]. apply (Hrev (e2 :: r2)). apply H2.
Qed.

Lemma extractEndpoints_unknown page f url :
  inList f SUPPORTED_FRAMEWORKS = false ->
  extractEndpoints page f url = (Throw (ExtractionError url f), []).
Proof.
  unfold inList, SUPPORTED_FRAMEWORKS, extractEndpoints. cbn.
  destruct (String.eqb f "swagger-ui"); [discriminate|].
  destruct (String.eqb f "redoc"); [discriminate|].
  destruct (String.eqb f "scalar"); [discriminate|].
  destruct (String.eqb f "generic"); [discriminate|].
  intros _. now destruct (negb _).
Qed.

(** X15. A forced framework is taken as given. With a non-empty
    [framework] option, [scrapeEndpoints] never runs the detection and a
    result carries the forced name. A name outside the four supported
    frameworks is not refused up front: the page is opened and loaded,
    then [extractEndpoints] throws ExtractionError, which is what the
    call throws unless the cleanup fails, its error then taking the
    place of the ExtractionError. *)
Theorem forced_framework_is_not_checked browser url f now page :
  isEmpty f = false ->
  getPage browser = Return tt ->
  goto browser url = Return page ->
  Logs (fun ev => ev <> EvLayer "detectFramework")
       (scrapeEndpoints browser url (Some f) now) /\
  (forall r, fst (scrapeEndpoints browser url (Some f) now) = Return r ->
             sr_framework r = f) /\
  (inList f SUPPORTED_FRAMEWORKS = false ->
   snd (scrapeEndpoints browser url (Some f) now)
   = ([EvGetPage; EvGoto url] ++ closeLog browser)%list /\
   ((isClosed browser = true \/ close browser = Return tt) ->
    fst (scrapeEndpoints browser url (Some f) now)
    = Throw (ExtractionError url f)) /\
   (forall e, isClosed browser = false -> close browser = Throw e ->
              fst (scrapeEndpoints browser url (Some f) now) = Throw e)).
Proof.
  intros Hf Hg Hn. split; [|split].
  - unfold scrapeEndpoints. rewrite Hf.
    apply logs_finally; [|apply logs_closePage; discriminate].
    apply logs_catch;
      [|intros e; destruct (isScraperError e); apply logs_throw].
    unfold extractApiInfo, extractEndpoints, extractSwaggerUiEndpoints,
      extractRedocEndpoints, extractScalarEndpoints, extractGenericEndpoints.
    repeat match goal with
           | |- Logs _ (if ?b then _ else _) => destruct b
           | |- Logs _ (match ?x with _ => _ end) => destruct x
           | |- Logs _ (let '(_, _) := ?x in _) => destruct x
           | |- _ => logs_step
           end.
  - intros r Hr. unfold scrapeEndpoints in Hr. apply finally_return in Hr.
    revert Hr. rewrite Hf, Hg, Hn. cbn.
    destruct (extractEndpoints page f url) as [[es|e3] l3]; cbn.
    + destruct (extractApiInfo page f) as [[info|e4] l4]; cbn.
      * now intros [= <-].
      * destruct (isScraperError e4); discriminate.
    + destruct (isScraperError e3); discriminate.
  - intros Hu. unfold scrapeEndpoints. rewrite Hf.
    match goal with
    | |- context [Trace.finally ?m _] =>
        assert (Hbody : m = (Throw (ExtractionError url f),
                             [EvGetPage; EvGoto url]))
    end.
    { rewrite Hg, Hn. cbn.
      rewrite (extractEndpoints_unknown page f url Hu). reflexivity. }
    rewrite Hbody. split; [|split].
    + now rewrite finally_log, closePage_log.
    + intros Hc. now rewrite (finally_returns _ _ _ (closePage_returns _ Hc)).
    + intros e Ho Hc. now apply finally_close_rejected.
Qed.

End ScraperFacts.

Section ScraperExamples.
Import Js Browser DocsScraper Spec Example.

Lemma spec_endpoints_have_known_methods_witness :
  exists es,
    endpointsOfPaths petPaths = Return es /\
    length es = 1%nat /\
    exists items,
      entries petPaths = Return items /\
      Forall (fun e => inList (method e) GENERIC_METHODS = true /\
                       exists methods, (path e, methods) ∈ items) es.
Proof.
  eexists. split; [vm_compute; reflexivity|]. split; [reflexivity|].
  apply spec_endpoints_have_known_methods. vm_compute. reflexivity.
Defined.

Lemma extractGenericEndpoints_no_duplicates_witness :
  exists es,
    fst (extractGenericEndpoints loginPage) = Return es /\
    NoDup (map keyOf es).
Proof.
  eexists. split; [vm_compute; reflexivity|].
  apply (extractGenericEndpoints_no_duplicates loginPage).
  vm_compute. reflexivity.
Defined.

Lemma forced_framework_is_not_checked_witness :
  scrapeEndpoints (always loginPage) docsUrl (Some "graphql") 1000
  = (Throw (ExtractionError docsUrl "graphql"),
     [EvGetPage; EvGoto docsUrl; EvClosePage]) /\
  fst (scrapeEndpoints (failingClose (always loginPage)) docsUrl
         (Some "graphql") 1000)
  = Throw targetClosed.
Proof.
  split.
  - destruct (proj2 (proj2 (forced_framework_is_not_checked
                (always loginPage) docsUrl "graphql" 1000 loginPage
                eq_refl eq_refl eq_refl)) eq_refl) as (Hl & Hr & _).
    specialize (Hr (or_intror eq_refl)).
    destruct (scrapeEndpoints (always loginPage) docsUrl (Some "graphql")
                1000) as [o l].
    cbn in Hl, Hr. now subst.
  - exact (proj2 (proj2 (proj2 (proj2 (forced_framework_is_not_checked
             (failingClose (always loginPage)) docsUrl "graphql" 1000
             loginPage eq_refl eq_refl eq_refl)) eq_refl))
             targetClosed eq_refl eq_refl).
Defined.

End ScraperExamples.

(** *** More on the provider search *)

Section TrackerFacts.
Import Js Browser ApiTracker Spec.

Lemma head_insertByScore x sorted :
  head (insertByScore x sorted)
  = Some (match head sorted with
          | Some y => if sr_score y <? sr_score x then x else y
          | None => x
          end).
Proof.
  destruct sorted as [|y rest]; cbn; [reflexivity|].
  now destruct (sr_score y <? sr_score x).
Qed.

(** The head of the sorted array, read off the insertions: it is either
    the head the array started with, unbeaten, or the first result that
    beat everything before it and was not beaten after. *)
Lemma head_sorted_first_maximum results :
  forall sorted best,
    head (fold_left (fun s x => insertByScore x s) results sorted)
    = Some best ->
    (head sorted = Some best /\
     Forall (fun r => sr_score r <= sr_score best) results) \/
    exists before after,
      results = (before ++ best :: after)%list /\
      Forall (fun r => sr_score r < sr_score best) before /\
      (forall y, head sorted = Some y -> sr_score y < sr_score best) /\
      Forall (fun r => sr_score r <= sr_score best) after.
Proof.
  induction results as [|x rest IH]; intros sorted best; cbn [fold_left].
  - intros Hh. left. split; [exact Hh|constructor].
  - intros Hh. apply IH in Hh. rewrite head_insertByScore in Hh.
    destruct Hh as [[Hh Hle]|(before & after & -> & Hlt & Hy & Hle)].
    + injection Hh as Hh. destruct (head sorted) as [y|] eqn:Hs.
      * destruct (sr_score y <? sr_score x) eqn:Hc.
        -- subst x. right. exists [], rest. cbn.
           split; [reflexivity|]. split; [constructor|].
           split; [|exact Hle]. intros y' [= <-]. lia.
        -- subst y. left. split; [reflexivity|].
           constructor; [lia|exact Hle].
      * subst x. right. exists [], rest. cbn.
        split; [reflexivity|]. split; [constructor|].
        split; [discriminate|exact Hle].
    + right. exists (x :: before), after.
      split; [reflexivity|].
      destruct (head sorted) as [y|] eqn:Hs.
      * destruct (sr_score y <? sr_score x) eqn:Hc.
        -- specialize (Hy x eq_refl).
           split; [constructor; [exact Hy|exact Hlt]|].
           split; [|exact Hle]. intros y' [= <-]. lia.
        -- specialize (Hy y eq_refl).
           split; [constructor; [lia|exact Hlt]|].
           split; [|exact Hle]. intros y' [= <-]. exact Hy.
      * specialize (Hy x eq_refl).
        split; [constructor; [exact Hy|exact Hlt]|].
        split; [discriminate|exact Hle].
Qed.

Lemma collectResults_positive links q :
  Forall (fun r => 0 < sr_score r) (collectResults links q).
Proof.
  induction links as [|link rest IH]; cbn [collectResults]; [constructor|].
  destruct (slugOf (l_href link)) as [m|]; [|exact IH].
  destruct (0 <? score _ _ _ q) eqn:Hs; [|exact IH].
  constructor; [cbn; lia|exact IH].
Qed.

(** X16. The search result [findBestSearchResult] picks is the first
    maximum: in the array of results collected in document order, every
    result before it has a strictly lower score and every result after it
    a lower or equal one (the sort is stable), and its score is
    positive. *)
Theorem findBestSearchResult_first_maximum page query best :
  findBestSearchResult page query = Return (Some best) ->
  exists before after,
    collectResults
      (filter (fun l => includes (l_href l) "/a/" = true) (pg_links page))
      query
    = (before ++ best :: after)%list /\
    Forall (fun r => sr_score r < sr_score best) before /\
    Forall (fun r => sr_score r <= sr_score best) after /\
    0 < sr_score best.
Proof.
  unfold findBestSearchResult, sortByScore.
  destruct (negb (pg_evaluateOk page)); [discriminate|].
  intros [= Hh].
  apply head_sorted_first_maximum in Hh
    as [[Hn _]|(before & after & E & Hlt & _ & Hle)]; [discriminate|].
  exists before, after. split; [exact E|]. split; [exact Hlt|].
  split; [exact Hle|].
  pose proof (collectResults_positive
                (filter (fun l => includes (l_href l) "/a/" = true)
                        (pg_links page)) query) as Hp.
  rewrite E in Hp. apply Forall_app in Hp as [_ Hp].
  now inversion Hp.
Qed.

Lemma absolute_http href : startsWith (absolute href) "http" = true.
Proof.
  unfold absolute. destruct (startsWith href "http") eqn:E; [exact E|].
  simpl. now destruct href.
Qed.

Lemma skipped_false href :
  skipped href = false ->
  isEmpty href = false /\ includes href "apitracker.io" = false.
Proof.
  unfold skipped. destruct (isEmpty href); [discriminate|].
  destruct (includes href "apitracker.io"); [discriminate|]. auto.
Qed.

Lemma portalLink_sound links u :
  portalLink links = Some u ->
  exists link, link ∈ links /\ u = absolute (l_href link) /\
               includes (l_href link) "apitracker.io" = false.
Proof.
  induction links as [|link rest IH]; cbn [portalLink]; [discriminate|].
  destruct (skipped (l_href link)) eqn:Hs.
  - intros E. destruct (IH E) as (l & Hin & Hu).
    exists l. split; [now apply list_elem_of_further|exact Hu].
  - destruct (_ || _)%bool.
    + intros [= <-]. exists link. apply skipped_false in Hs as [_ Hs].
      split; [apply list_elem_of_here|auto].
    + intros E. destruct (IH E) as (l & Hin & Hu).
      exists l. split; [now apply list_elem_of_further|exact Hu].
Qed.

Lemma keywordLink_sound links u :
  keywordLink links = Some u ->
  exists link, link ∈ links /\ u = absolute (l_href link) /\
               includes (l_href link) "apitracker.io" = false.
Proof.
  induction links as [|link rest IH]; cbn [keywordLink]; [discriminate|].
  destruct (skipped (l_href link)) eqn:Hs.
  - intros E. destruct (IH E) as (l & Hin & Hu).
    exists l. split; [now apply list_elem_of_further|exact Hu].
  - destruct (existsb _ KEYWORDS).
    + intros [= <-]. exists link. apply skipped_false in Hs as [_ Hs].
      split; [apply list_elem_of_here|auto].
    + intros E. destruct (IH E) as (l & Hin & Hu).
      exists l. split; [now apply list_elem_of_further|exact Hu].
Qed.

Lemma patternLink_sound links patterns u :
  patternLink links patterns = Some u ->
  exists link, link ∈ links /\ u = absolute (l_href link) /\
               includes (l_href link) "apitracker.io" = false.
Proof.
  induction patterns as [|part rest IH]; cbn [patternLink]; [discriminate|].
  unfold firstWithHref.
  destruct (find _ links) as [link|] eqn:Hf; [|exact IH].
  destruct (negb (isEmpty (l_href link))); cbn; [|exact IH].
  destruct (includes (l_href link) "apitracker.io") eqn:Hi; cbn; [exact IH|].
  intros [= <-]. exists link. apply find_some in Hf as [Hin _].
  split; [now apply list_elem_of_In|auto].
Qed.

Lemma external_absolute href :
  external href = true ->
  absolute href = href /\ includes href "apitracker.io" = false.
Proof.
  unfold external, absolute.
  destruct (isEmpty href); [discriminate|].
  destruct (startsWith href "http"); [|discriminate].
  destruct (includes href "apitracker.io"); [discriminate|]. auto.
Qed.

Lemma externalLink_sound links :
  forall fallback u,
    externalLink links fallback = Some u ->
    fallback = Some u \/
    exists link, link ∈ links /\ u = absolute (l_href link) /\
                 includes (l_href link) "apitracker.io" = false.
Proof.
  induction links as [|link rest IH]; intros fallback u;
    cbn [externalLink]; [auto|].
  assert (Hrest : forall fb,
            externalLink rest fb = Some u ->
            fb = fallback \/
            (external (l_href link) = true /\ fb = Some (l_href link)) ->
            fallback = Some u \/
            exists l, l ∈ (link :: rest) /\ u = absolute (l_href l) /\
                      includes (l_href l) "apitracker.io" = false).
  { intros fb E Hfb. apply IH in E as [E|(l & Hin & Hu)].
    - destruct Hfb as [->|[He ->]]; [now left|].
      injection E as <-. apply external_absolute in He as [Ha Hi].
      right. exists link. split; [apply list_elem_of_here|].
      now rewrite Ha.
    - right. exists l. split; [now apply list_elem_of_further|exact Hu]. }
  destruct (external (l_href link)) eqn:He; [|intros E; eapply Hrest; eauto].
  destruct (includes (l_href link) "api").
  - intros [= <-]. apply external_absolute in He as [Ha Hi].
    right. exists link. split; [apply list_elem_of_here|]. now rewrite Ha.
  - destruct fallback as [f|]; [intros E; eapply Hrest; eauto|].
    destruct (_ || _)%bool; intros E; eapply Hrest; eauto.
Qed.

(** X17. What [extractDocsFromApiPage] returns: the documentation URL
    is built from the [href] of a link of the page that does not point
    back at apitracker.io, it starts with [http] (a scheme-less [href]
    gets [https://] put in front), the provider name is the slug of the
    page URL or else the query, and the source is [apitracker]. *)
Theorem extractDocsFromApiPage_result page query result :
  extractDocsFromApiPage page query = Return result ->
  startsWith (pr_docsUrl result) "http" = true /\
  (exists link,
     link ∈ pg_links page /\
     pr_docsUrl result = absolute (l_href link) /\
     includes (l_href link) "apitracker.io" = false) /\
  pr_provider result = default query (slugOf (pg_url page)) /\
  pr_apiTrackerUrl result = pg_url page /\
  pr_source result = "apitracker".
Proof.
  unfold extractDocsFromApiPage.
  destruct (negb (pg_evaluateOk page)); [discriminate|].
  destruct (docsLink (pg_links page)) as [u|] eqn:Hd; [|discriminate].
  destruct (isEmpty u); [discriminate|]. intros [= <-]. cbn.
  assert (Hl : exists link, link ∈ pg_links page /\
                            u = absolute (l_href link) /\
                            includes (l_href link) "apitracker.io" = false).
  { unfold docsLink in Hd.
    destruct (portalLink (pg_links page)) as [u1|] eqn:H1.
    { injection Hd as <-. now apply portalLink_sound. }
    destruct (keywordLink (pg_links page)) as [u2|] eqn:H2.
    { injection Hd as <-. now apply keywordLink_sound. }
    destruct (patternLink (pg_links page) PATTERNS) as [u3|] eqn:H3.
    { injection Hd as <-. now apply patternLink_sound in H3. }
    apply externalLink_sound in Hd as [Hd|Hd]; [discriminate|exact Hd]. }
  split; [|auto]. destruct Hl as (link & _ & -> & _). apply absolute_http.
Qed.

(** X18. What [searchProvider] throws: its own ProviderNotFoundError or
    DocsUrlNotFoundError, an APITrackerSearchError carrying the query as
    given, into which every other failure of the [try] block is wrapped
    (a browser that does not start, a navigation error, a timeout), or,
    as it is, what [page.close] threw in the [finally] block: a fourth
    kind of error, which the documentation of the function does not
    list. *)
Theorem searchProvider_throws_its_own_errors browser query :
  (forall e, fst (searchProvider browser query) = Throw e ->
             isNotFound e = true \/ e = APITrackerSearchError query \/
             close browser = Throw e) /\
  (forall e0, getPage browser = Throw e0 -> isNotFound e0 = false ->
              searchProvider browser query
              = (Throw (APITrackerSearchError query), [EvGetPage])) /\
  (forall e0, getPage browser = Return tt ->
              goto browser (directUrlOf (toLowerCase (trim query)))
              = Throw e0 ->
              isNotFound e0 = false ->
              (isClosed browser = true \/ close browser = Return tt) ->
              searchProvider browser query
              = (Throw (APITrackerSearchError query),
                 ([EvGetPage; EvGoto (directUrlOf (toLowerCase (trim query)))]
                  ++ closeLog browser)%list)) /\
  (forall e, getPage browser = Return tt -> isClosed browser = false ->
             close browser = Throw e ->
             fst (searchProvider browser query) = Throw e).
Proof.
  split; [|split; [|split]].
  - intros e Hf. unfold searchProvider in Hf.
    apply finally_throws in Hf as [Hf|Hf];
      [|apply closePage_throws in Hf as (_ & _ & Hc); auto].
    revert Hf. unfold Trace.catch.
    match goal with
    | |- context [match ?m with _ => _ end] => destruct m as [[r|e0] l]
    end; cbn; [discriminate|].
    destruct (isNotFound e0) eqn:E; cbn; intros [= <-]; auto.
  - intros e0 Hg Hn. unfold searchProvider, closePage. rewrite Hg. cbn.
    now rewrite Hn.
  - intros e0 Hg Hgo Hn Hc. unfold searchProvider.
    rewrite (finally_returns _ _ _ (closePage_returns _ Hc)).
    rewrite Hg. cbn. rewrite Hgo. cbn. now rewrite Hn.
  - intros e Hg Ho Hc. unfold searchProvider.
    now apply finally_close_rejected.
Qed.

End TrackerFacts.

Section TrackerExamples.
Import Js Browser ApiTracker Example.

Lemma findBestSearchResult_first_maximum_witness :
  exists best,
    findBestSearchResult rankedPage "stripe" = Return (Some best) /\
    sr_url best = "https://apitracker.io/a/stripe" /\
    exists before after,
      collectResults
        (filter (fun l => includes (l_href l) "/a/" = true)
                (pg_links rankedPage))
        "stripe"
      = (before ++ best :: after)%list /\
      Forall (fun r => sr_score r < sr_score best) before /\
      Forall (fun r => sr_score r <= sr_score best) after.
Proof.
  eexists. split; [vm_compute; reflexivity|]. split; [reflexivity|].
  match goal with
  | |- exists before after, _ = (before ++ ?b :: after)%list /\ _ =>
      destruct (findBestSearchResult_first_maximum rankedPage "stripe" b
                  ltac:(vm_compute; reflexivity))
        as (before & after & E & Hlt & Hle & _)
  end.
  exists before, after. auto.
Defined.

Lemma extractDocsFromApiPage_result_witness :
  extractDocsFromApiPage stripePage "stripe" = Return stripeResult /\
  startsWith (pr_docsUrl stripeResult) "http" = true.
Proof.
  assert (E : extractDocsFromApiPage stripePage "stripe"
              = Return stripeResult) by (vm_compute; reflexivity).
  split; [exact E|].
  exact (proj1 (extractDocsFromApiPage_result stripePage "stripe"
                  stripeResult E)).
Defined.

Lemma searchProvider_throws_its_own_errors_witness :
  (isNotFound (APITrackerProviderNotFoundError "doesnotexist") = true \/
   APITrackerProviderNotFoundError "doesnotexist"
   = APITrackerSearchError "doesnotexist" \/
   close tracker = Throw (APITrackerProviderNotFoundError "doesnotexist")) /\
  fst (searchProvider (failingClose tracker) "stripe") = Throw targetClosed.
Proof.
  split.
  - refine (proj1 (searchProvider_throws_its_own_errors tracker
                     "doesnotexist") _ _).
    vm_compute. reflexivity.
  - exact (proj2 (proj2 (proj2 (searchProvider_throws_its_own_errors
             (failingClose tracker) "stripe")))
             targetClosed eq_refl eq_refl eq_refl).
Defined.

End TrackerExamples.

(** *** More on the provider lookup and its cache *)

Section LookupFacts.
Import Js Browser Discovery Spec.

Local Arguments ApiTracker.searchProvider : simpl never.
Local Arguments cacheUrl : simpl never.
Local Arguments getCachedUrl : simpl never.
Local Arguments lookupProvider : simpl never.

(** The entry [cacheUrl] writes for a search result. *)
Lemma cacheUrl_returns provider data now st st' l :
  cacheUrl provider data now st = (Return st', l) ->
  exists entries,
    (file st = Entries entries \/ (file st = Missing /\ entries = ∅)) /\
    writable st = true /\
    st' = {| file :=
               Entries (assign (trim (toLowerCase provider))
                   {| u_provider := ApiTracker.pr_provider data;
                      u_docsUrl := ApiTracker.pr_docsUrl data;
                      u_apiTrackerUrl := ApiTracker.pr_apiTrackerUrl data;
                      u_source := ApiTracker.pr_source data;
                      u_cachedAt := now;
                      u_expiresAt := Some (now + URL_CACHE_TTL_MS) |}
                 entries);
             writable := true |}.
Proof.
  unfold cacheUrl, readUrlCache, writeUrlCache.
  destruct (file st) as [|entries|] eqn:Hf; cbn; try discriminate;
    destruct (writable st) eqn:Hw; cbn; try discriminate;
    intros [= <- _]; eexists; (split; [|split; [reflexivity|reflexivity]]);
    auto.
Qed.

(** Under any name but [__proto__] an assignment adds the member. *)
Lemma assign_lookup key entry entries :
  key <> "__proto__" -> assign key entry entries !! key = Some entry.
Proof.
  intros Hk. unfold assign.
  destruct (entries !! key); [apply lookup_insert_eq|].
  destruct (String.eqb_spec key "__proto__"); [contradiction|].
  apply lookup_insert_eq.
Qed.

Lemma member_empty key :
  member ∅ key = if inheritedKey key then Some Inherited else None.
Proof. unfold member. now rewrite lookup_empty. Qed.

Lemma getCachedUrl_hit provider now st entries entry t :
  file st = Entries entries ->
  entries !! trim (toLowerCase provider) = Some entry ->
  u_expiresAt entry = Some t ->
  now <= t ->
  getCachedUrl provider now st = (Return (Some (Own entry)), [EvReadUrlCache]).
Proof.
  intros Hf He Ht Hn. unfold getCachedUrl, readUrlCache, member.
  rewrite Hf. cbn. rewrite He, Ht.
  destruct (t <? now) eqn:E; [lia|reflexivity].
Qed.

(** What the cache answers when the file has no member of the name. *)
Lemma getCachedUrl_miss provider now st entries :
  (file st = Entries entries \/ (file st = Missing /\ entries = ∅)) ->
  entries !! trim (toLowerCase provider) = None ->
  fst (getCachedUrl provider now st)
  = Return (if inheritedKey (trim (toLowerCase provider))
            then Some Inherited else None).
Proof.
  intros Hf Hl. unfold getCachedUrl, readUrlCache, member.
  destruct Hf as [->|[-> ->]]; cbn; rewrite ?Hl, ?lookup_empty;
    now destruct (inheritedKey _).
Qed.

Lemma getCachedUrl_log provider now st :
  snd (getCachedUrl provider now st) = [EvReadUrlCache].
Proof.
  unfold getCachedUrl, readUrlCache, member.
  destruct (file st) as [|entries|]; cbn; try reflexivity.
  - rewrite lookup_empty. now destruct (inheritedKey _).
  - destruct (entries !! trim (toLowerCase provider)) as [entry|]; cbn;
      [|now destruct (inheritedKey _)].
    destruct (u_expiresAt entry) as [t|]; [|reflexivity].
    now destruct (t <? now).
Qed.

Lemma invalidQuery_string query :
  invalidQuery query = false ->
  exists q, query = VStr q /\ isEmpty (trim q) = false.
Proof.
  unfold invalidQuery.
  destruct query; cbn; rewrite ?orb_true_r; try discriminate.
  destruct (isEmpty s); cbn; [discriminate|]. eauto.
Qed.

Lemma trim_nonempty q : isEmpty (trim q) = false -> isEmpty q = false.
Proof. destruct q; [discriminate|reflexivity]. Qed.

Lemma valid_query q : isEmpty (trim q) = false -> invalidQuery (VStr q) = false.
Proof.
  intros Ht. unfold invalidQuery. cbn.
  now rewrite (trim_nonempty q Ht), Ht.
Qed.

(** The ways [lookupProvider] returns: from the cache, or from a search
    whose result was written to the cache. *)
Lemma lookupProvider_returns browser q force now st found st' l :
  lookupProvider browser (VStr q) force now st = (Return (found, st'), l) ->
  isEmpty (trim q) = false /\
  ((force = false /\ st' = st /\
    exists c, getCachedUrl (toLowerCase (trim q)) now st
              = (Return (Some c), [EvReadUrlCache]) /\
              found = match c with
                      | Own c =>
                          Provider
                            {| ApiTracker.pr_provider := u_provider c;
                               ApiTracker.pr_docsUrl := u_docsUrl c;
                               ApiTracker.pr_apiTrackerUrl := u_apiTrackerUrl c;
                               ApiTracker.pr_source := "cache" |}
                      | Inherited => NoFields
                      end) \/
   (exists r l1 l2,
      found = Provider r /\
      ApiTracker.searchProvider browser (toLowerCase (trim q))
      = (Return r, l1) /\
      cacheUrl (toLowerCase (trim q)) r now st = (Return st', l2))).
Proof.
  unfold lookupProvider.
  destruct (invalidQuery (VStr q)) eqn:Hq; [discriminate|].
  apply invalidQuery_string in Hq as (q0 & [= <-] & Ht).
  intros E. split; [exact Ht|]. revert E.
  assert (Hsearch : forall l0 pre,
    (let '(o, l') :=
       Trace.catch
         (Trace.bind (Trace.emit (EvSearchProvider (toLowerCase (trim q))))
            (fun _ =>
             Trace.bind
               (ApiTracker.searchProvider browser (toLowerCase (trim q)))
               (fun result =>
                Trace.bind (cacheUrl (toLowerCase (trim q)) result now st)
                  (fun st0 => Trace.ret (Provider result, st0)))))
         (fun error =>
            if isAPITrackerNotFound error
            then Trace.throw (ProviderNotFoundError (VStr q))
            else Trace.throw (DiscoveryFetchError q))
     in (o, (pre ++ l')%list)) = (Return (found, st'), l0) ->
    exists r l1 l2,
      found = Provider r /\
      ApiTracker.searchProvider browser (toLowerCase (trim q))
      = (Return r, l1) /\
      cacheUrl (toLowerCase (trim q)) r now st = (Return st', l2)).
  { intros l0 pre. cbn.
    destruct (ApiTracker.searchProvider browser (toLowerCase (trim q)))
      as [[r0|e] l1]; cbn.
    - destruct (cacheUrl (toLowerCase (trim q)) r0 now st)
        as [[s|e] l2] eqn:Hw; cbn.
      + intros [= <- <- _]. exists r0, l1, l2.
        split; [reflexivity|]. split; [reflexivity|exact Hw].
      + destruct (isAPITrackerNotFound e); discriminate.
    - destruct (isAPITrackerNotFound e); discriminate. }
  destruct force; cbn.
  - intros E. right. apply (Hsearch l []). exact E.
  - pose proof (getCachedUrl_log (toLowerCase (trim q)) now st) as Hl.
    destruct (getCachedUrl (toLowerCase (trim q)) now st)
      as [[[[c|]|]|e] l0] eqn:Hc; cbn in Hl |- *; subst l0.
    + intros [= <- <- _]. left. split; [reflexivity|].
      split; [reflexivity|]. eexists. split; reflexivity.
    + intros [= <- <- _]. left. split; [reflexivity|].
      split; [reflexivity|]. eexists. split; reflexivity.
    + intros E. right. apply (Hsearch l [EvReadUrlCache]). exact E.
    + discriminate.
Qed.

(** X19. A provider found by a search is served from the cache
    afterwards, unless its name is [__proto__]. If [lookupProvider]
    returns a result that did not come from the cache, for a query whose
    normal form is not [__proto__], then for seven days any later lookup
    of a query with the same normal form (same text up to case and
    surrounding whitespace), without [forceRefresh], returns the same
    provider, docs URL and APITracker URL with source [cache]; it reads
    the cache file and does nothing else: no search is made, whatever
    the browser. *)
Theorem lookupProvider_found_then_cached browser q force now st r st' l
  browser' q' now' :
  lookupProvider browser (VStr q) force now st
  = (Return (Provider r, st'), l) ->
  ApiTracker.pr_source r <> "cache" ->
  toLowerCase (trim q) <> "__proto__" ->
  toLowerCase (trim q') = toLowerCase (trim q) ->
  now' <= now + URL_CACHE_TTL_MS ->
  lookupProvider browser' (VStr q') false now' st'
  = (Return (Provider
               {| ApiTracker.pr_provider := ApiTracker.pr_provider r;
                  ApiTracker.pr_docsUrl := ApiTracker.pr_docsUrl r;
                  ApiTracker.pr_apiTrackerUrl := ApiTracker.pr_apiTrackerUrl r;
                  ApiTracker.pr_source := "cache" |}, st'),
     [EvReadUrlCache]).
Proof.
  intros E Hsrc Hproto Hq Hn.
  apply lookupProvider_returns in E
    as [Ht [(_ & _ & c & _ & Hc)|(r0 & l1 & l2 & [= <-] & _ & Hw)]].
  { destruct c; [injection Hc as ->; now cbn in Hsrc|discriminate]. }
  apply cacheUrl_returns in Hw as (entries & _ & _ & ->).
  assert (Ht' : isEmpty (trim q') = false).
  { rewrite <- isEmpty_toLowerCase, Hq, isEmpty_toLowerCase. exact Ht. }
  assert (Hkey : trim (toLowerCase (toLowerCase (trim q)))
                 = toLowerCase (trim q)).
  { now rewrite toLowerCase_idem, trim_toLowerCase, trim_idem. }
  unfold lookupProvider. rewrite (valid_query q' Ht'). cbn. rewrite Hq.
  match goal with
  | |- context [getCachedUrl ?p now' ?s] =>
      rewrite (getCachedUrl_hit p now' s _ _ (now + URL_CACHE_TTL_MS)
                 eq_refl
                 ltac:(rewrite Hkey; apply assign_lookup; exact Hproto)
                 eq_refl Hn)
  end.
  reflexivity.
Qed.

Lemma getCachedUrl_throws provider now st e :
  fst (getCachedUrl provider now st) = Throw e ->
  e = TypeError /\ file st = NoEntries.
Proof.
  unfold getCachedUrl, readUrlCache, member.
  destruct (file st) as [|entries|]; cbn.
  - rewrite lookup_empty. destruct (inheritedKey _); discriminate.
  - destruct (entries !! trim (toLowerCase provider)) as [entry|]; cbn;
      [|destruct (inheritedKey _); discriminate].
    destruct (u_expiresAt entry) as [t|]; [|discriminate].
    destruct (t <? now); discriminate.
  - now intros [= <-].
Qed.

(** X20. What [lookupProvider] throws: ProviderNotFoundError or
    DiscoveryFetchError, with one exception: when the cache file holds
    JSON without an [entries] object and the cache is consulted, the
    TypeError of the property access escapes as it is, before any search
    is made. With [forceRefresh] the two documented errors are the only
    ones. *)
Theorem lookupProvider_throws browser query force now st e :
  fst (lookupProvider browser query force now st) = Throw e ->
  isProviderNotFoundError e = true \/
  (exists q, e = DiscoveryFetchError q) \/
  (e = TypeError /\ force = false /\ file st = NoEntries /\
   snd (lookupProvider browser query force now st) = [EvReadUrlCache]).
Proof.
  unfold lookupProvider.
  destruct (invalidQuery query) eqn:Hq; cbn.
  { intros [= <-]. now left. }
  apply invalidQuery_string in Hq as (q & -> & Ht).
  assert (Hsearch : forall pre e',
    fst (let '(o, l') :=
       Trace.catch
         (Trace.bind (Trace.emit (EvSearchProvider (toLowerCase (trim q))))
            (fun _ =>
             Trace.bind
               (ApiTracker.searchProvider browser (toLowerCase (trim q)))
               (fun result =>
                Trace.bind (cacheUrl (toLowerCase (trim q)) result now st)
                  (fun st0 => Trace.ret (Provider result, st0)))))
         (fun error =>
            if isAPITrackerNotFound error
            then Trace.throw (ProviderNotFoundError (VStr q))
            else Trace.throw (DiscoveryFetchError q))
     in (o, (pre ++ l')%list)) = Throw e' ->
    isProviderNotFoundError e' = true \/
    exists q0, e' = DiscoveryFetchError q0).
  { intros pre e'. cbn.
    destruct (ApiTracker.searchProvider browser (toLowerCase (trim q)))
      as [[r0|e0] l1]; cbn.
    - destruct (cacheUrl (toLowerCase (trim q)) r0 now st)
        as [[s|e0] l2]; cbn; [discriminate|].
      destruct (isAPITrackerNotFound e0); cbn; intros [= <-]; eauto.
    - destruct (isAPITrackerNotFound e0); cbn; intros [= <-]; eauto. }
  destruct force; cbn.
  - intros E. destruct (Hsearch [] e E) as [Hp|Hd]; auto.
  - destruct (getCachedUrl (toLowerCase (trim q)) now st)
      as [[[[c|]|]|e0] l0] eqn:Hc; cbn.
    + discriminate.
    + discriminate.
    + intros E. destruct (Hsearch l0 e E) as [Hp|Hd]; auto.
    + intros [= <-]. right. right.
      pose proof (getCachedUrl_throws (toLowerCase (trim q)) now st e0) as Hx.
      rewrite Hc in Hx. destruct (Hx eq_refl) as [-> Hf].
      split; [reflexivity|]. split; [reflexivity|]. split; [exact Hf|].
      pose proof (getCachedUrl_log (toLowerCase (trim q)) now st) as Hl.
      rewrite Hc in Hl. exact Hl.
Qed.

(** X21. A provider that was found is lost when the cache cannot be
    written: if the search returns a result but the write of the cache
    file fails, [lookupProvider] throws DiscoveryFetchError instead of
    returning the result. *)
Theorem lookupProvider_fails_when_cache_is_read_only browser q now st r l1 :
  isEmpty (trim q) = false ->
  ApiTracker.searchProvider browser (toLowerCase (trim q)) = (Return r, l1) ->
  file st <> NoEntries ->
  writable st = false ->
  lookupProvider browser (VStr q) true now st
  = (Throw (DiscoveryFetchError q),
     (EvSearchProvider (toLowerCase (trim q)) :: l1
      ++ [EvReadUrlCache; EvWriteUrlCache])%list).
Proof.
  intros Ht Hs Hf Hw. unfold lookupProvider.
  rewrite (valid_query q Ht). cbn. rewrite Hs. cbn.
  unfold cacheUrl, readUrlCache, writeUrlCache. rewrite Hw.
  destruct (file st); cbn; rewrite ?app_nil_r;
    [reflexivity|reflexivity|contradiction].
Qed.

(** X23. [clearUrlCache] forgets the members of the cache file, and
    nothing else. After [clearUrlCache(provider)] has returned, the file
    has no member for that provider, the count it reports is 0 or 1, and
    every other provider is found exactly as before; after
    [clearUrlCache()] (or [clearUrlCache('')], the empty string being
    falsy) the file has no member at all, and the count is the number of
    members there were. Two names are found all the same, before as
    after: [constructor] and [__proto__], which the [entries] object
    inherits; clearing one of them reports 1 every time. *)
Theorem clearUrlCache_forgets st n st' l now :
  (forall provider,
     isEmpty provider = false ->
     clearUrlCache (Some provider) st = (Return (n, st'), l) ->
     fst (getCachedUrl provider now st')
     = Return (if inheritedKey (trim (toLowerCase provider))
               then Some Inherited else None) /\
     (n <= 1)%nat /\
     (inheritedKey (trim (toLowerCase provider)) = true -> n = 1%nat) /\
     forall other,
       trim (toLowerCase other) <> trim (toLowerCase provider) ->
       fst (getCachedUrl other now st') = fst (getCachedUrl other now st)) /\
  (forall provider,
     provider = None \/ provider = Some EmptyString ->
     clearUrlCache provider st = (Return (n, st'), l) ->
     file st' = Entries ∅ /\
     (forall entries, file st = Entries entries -> n = size entries) /\
     forall other,
       fst (getCachedUrl other now st')
       = Return (if inheritedKey (trim (toLowerCase other))
                 then Some Inherited else None)).
Proof.
  split.
  - intros provider Hp. unfold clearUrlCache, readUrlCache, writeUrlCache.
    rewrite Hp.
    assert (Hwritten : forall entries w,
      let st1 := {| file := Entries (delete (trim (toLowerCase provider))
                                       entries);
                    writable := w |} in
      (file st = Entries entries \/ (file st = Missing /\ entries = ∅)) ->
      fst (getCachedUrl provider now st1)
      = Return (if inheritedKey (trim (toLowerCase provider))
                then Some Inherited else None) /\
      forall other,
        trim (toLowerCase other) <> trim (toLowerCase provider) ->
        fst (getCachedUrl other now st1) = fst (getCachedUrl other now st)).
    { intros entries w st1 Hf. split.
      - apply (getCachedUrl_miss provider now st1 _ (or_introl eq_refl)).
        apply lookup_delete_eq.
      - intros other Ho. unfold getCachedUrl, readUrlCache, member. cbn.
        rewrite lookup_delete_ne by congruence.
        now destruct Hf as [->|[-> ->]]. }
    destruct (file st) as [|entries|] eqn:Hf; cbn; try discriminate.
    + unfold member. rewrite lookup_empty.
      destruct (inheritedKey (trim (toLowerCase provider))) eqn:Hi; cbn.
      * destruct (writable st); cbn; [|discriminate].
        intros [= <- <- _].
        destruct (Hwritten ∅ true (or_intror (conj eq_refl eq_refl)))
          as [H1 H2].
        rewrite ?Hi in H1. split; [exact H1|]. split; [lia|].
        split; [reflexivity|exact H2].
      * intros [= <- <- _]. split; [|split; [lia|split; [discriminate|]]].
        -- rewrite (getCachedUrl_miss provider now st ∅
                      (or_intror (conj Hf eq_refl)) (lookup_empty _)).
           now rewrite Hi.
        -- reflexivity.
    + unfold member.
      destruct (entries !! trim (toLowerCase provider)) as [entry|] eqn:Hl;
        cbn.
      * destruct (writable st); cbn; [|discriminate].
        intros [= <- <- _].
        destruct (Hwritten entries true (or_introl eq_refl)) as [H1 H2].
        split; [exact H1|]. split; [lia|]. split; [reflexivity|exact H2].
      * destruct (inheritedKey (trim (toLowerCase provider))) eqn:Hi; cbn.
        -- destruct (writable st); cbn; [|discriminate].
           intros [= <- <- _].
           destruct (Hwritten entries true (or_introl eq_refl)) as [H1 H2].
           rewrite ?Hi in H1. split; [exact H1|]. split; [lia|].
           split; [reflexivity|exact H2].
        -- intros [= <- <- _].
           split; [|split; [lia|split; [discriminate|reflexivity]]].
           rewrite (getCachedUrl_miss provider now st entries
                      (or_introl Hf) Hl).
           now rewrite Hi.
  - intros provider Hp E.
    assert (E' : clearUrlCache None st = (Return (n, st'), l)).
    { destruct Hp as [->| ->]; exact E. }
    clear E Hp. revert E'.
    unfold clearUrlCache, readUrlCache, writeUrlCache.
    destruct (file st) as [|entries|] eqn:Hf; cbn; try discriminate;
      destruct (writable st); cbn; try discriminate;
      intros [= <- <- _]; cbn; (split; [reflexivity|]); split;
      try discriminate.
    all: try (intros other;
              apply getCachedUrl_miss with (entries := ∅);
              [left; reflexivity|apply lookup_empty]).
    now intros entries' [= <-].
Qed.


End LookupFacts.

Section LookupExamples.
Import Js Browser Discovery Example.

Lemma lookupProvider_found_then_cached_witness :
  exists r st' l,
    lookupProvider tracker (VStr "Stripe") false 1000 emptyStore
    = (Return (Provider r, st'), l) /\
    lookupProvider timingOut (VStr "  STRIPE ") false 5000 st'
    = (Return (Provider
                 {| ApiTracker.pr_provider := ApiTracker.pr_provider r;
                    ApiTracker.pr_docsUrl := ApiTracker.pr_docsUrl r;
                    ApiTracker.pr_apiTrackerUrl := ApiTracker.pr_apiTrackerUrl r;
                    ApiTracker.pr_source := "cache" |}, st'),
       [EvReadUrlCache]).
Proof.
  eexists _, _, _. split; [vm_compute; reflexivity|].
  eapply (lookupProvider_found_then_cached tracker "Stripe" false 1000
            emptyStore _ _ _ timingOut "  STRIPE " 5000).
  - vm_compute. reflexivity.
  - vm_compute. discriminate.
  - vm_compute. discriminate.
  - vm_compute. reflexivity.
  - vm_compute. discriminate.
Defined.

Lemma lookupProvider_throws_witness :
  isProviderNotFoundError TypeError = true \/
  (exists q, TypeError = DiscoveryFetchError q) \/
  (TypeError = TypeError /\ false = false /\
   file brokenStore = NoEntries /\
   snd (lookupProvider tracker (VStr "stripe") false 1000 brokenStore)
   = [EvReadUrlCache]).
Proof.
  refine (lookupProvider_throws tracker (VStr "stripe") false 1000 brokenStore
            TypeError _).
  vm_compute. reflexivity.
Defined.

Lemma lookupProvider_fails_when_cache_is_read_only_witness :
  exists l1,
    ApiTracker.searchProvider tracker "stripe" = (Return stripeResult, l1) /\
    lookupProvider tracker (VStr "Stripe") true 1000 readOnlyStore
    = (Throw (DiscoveryFetchError "Stripe"),
       (EvSearchProvider "stripe" :: l1
        ++ [EvReadUrlCache; EvWriteUrlCache])%list).
Proof.
  eexists. split; [vm_compute; reflexivity|].
  refine (lookupProvider_fails_when_cache_is_read_only tracker "Stripe" 1000
            readOnlyStore stripeResult _ eq_refl _ _ eq_refl).
  - vm_compute. reflexivity.
  - vm_compute. discriminate.
Defined.

Lemma clearUrlCache_forgets_witness :
  (exists st' l,
     clearUrlCache (Some "Stripe") stripeStore = (Return (1%nat, st'), l) /\
     fst (getCachedUrl "Stripe" 2000 st') = Return None) /\
  (exists st' l,
     clearUrlCache (Some "Constructor") stripeStore
     = (Return (1%nat, st'), l) /\
     fst (getCachedUrl "Constructor" 2000 st') = Return (Some Inherited)).
Proof.
  split.
  - eexists _, _. split; [vm_compute; reflexivity|].
    refine (proj1 (proj1 (clearUrlCache_forgets stripeStore 1 _ _ 2000)
                     "Stripe" eq_refl _)).
    vm_compute. reflexivity.
  - eexists _, _. split; [vm_compute; reflexivity|].
    refine (proj1 (proj1 (clearUrlCache_forgets stripeStore 1 _ _ 2000)
                     "Constructor" eq_refl _)).
    vm_compute. reflexivity.
Defined.


(** The two inherited names through the lookup: on any cache file with
    entries, [lookupProvider('constructor')] makes no search and returns
    an object without provider or URL; a provider found under the name
    [__proto__] is not kept by the cache. *)
Example lookupProvider_inherited_names :
  lookupProvider tracker (VStr "Constructor") false 1000 emptyStore
  = (Return (NoFields, emptyStore), [EvReadUrlCache]) /\
  fst (cacheUrl "__proto__" stripeResult 1000 emptyStore)
  = Return {| file := Entries ∅; writable := true |}.
Proof. split; vm_compute; reflexivity. Qed.

End LookupExamples.

(** *** Clearing and listing the cache *)

Section ClearFacts.
Import Js Cache.
Context `{Host}.

Lemma readManifest_written m d ee :
  files d !! manifestPath = Some (Json (DManifest m)) ->
  readManifest {| disk := d; emptyEntries := ee |} = Return (m, false).
Proof. intros Hm. unfold readManifest. cbn. now rewrite Hm. Qed.

Lemma writeManifest_returns m st st' :
  writeManifest m st = (Return tt, st') ->
  files (disk st')
  = <[manifestPath := Json (DManifest (jsonEntry <$> m))]> (files (disk st)) /\
  emptyEntries st' = emptyEntries st /\
  dirOk (disk st') = dirOk (disk st) /\ denied (disk st') = denied (disk st).
Proof.
  unfold writeManifest, writeFile.
  destruct (ensureCacheDirectory st); [|discriminate].
  destruct (decide _); [discriminate|]. now intros [= <-].
Qed.

(** [getCached] on a manifest that has no entry for the key. *)
Lemma getCached_no_entry url ign now st m :
  files (disk st) !! manifestPath = Some (Json (DManifest m)) ->
  m !! generateCacheKey url = None ->
  getCached url ign now st = Throw (CacheNotFoundError url).
Proof.
  intros Hm Hk. unfold getCached, readManifest. rewrite Hm. cbn.
  now rewrite Hk.
Qed.

(** X25. [clearCache(url)] forgets the URL. When it returns, it reports
    one cleared URL, the manifest on disk is the manifest it read minus
    the key of the URL, as JSON renders it, and [getCached] fails with
    CacheNotFoundError for that URL and for every URL with the same key
    (the same text up to case and surrounding whitespace), expired or
    not. When the manifest has no entry for the key, [clearCache(url)]
    throws CacheNotFoundError and changes nothing. *)
Theorem clearCache_url_forgets undeletable url st :
  isEmpty url = false ->
  (forall r st',
     clearCache undeletable (Some url) st = (Return r, st') ->
     cleared r = 1%nat /\ urls r = [url] /\
     (exists entries aliased,
        readManifest st = Return (entries, aliased) /\
        files (disk st') !! manifestPath
        = Some (Json (DManifest
                        (jsonEntry <$> delete (generateCacheKey url) entries)))) /\
     forall url' ign now,
       generateCacheKey url' = generateCacheKey url ->
       getCached url' ign now st' = Throw (CacheNotFoundError url')) /\
  (forall entries aliased,
     readManifest st = Return (entries, aliased) ->
     entries !! generateCacheKey url = None ->
     clearCache undeletable (Some url) st
     = (Throw (CacheNotFoundError url), st)).
Proof.
  intros Hu. unfold clearCache. rewrite Hu. split.
  - intros r st'.
    destruct (readManifest st) as [[entries aliased]|e]; [|discriminate].
    destruct (entries !! generateCacheKey url) as [entry|]; [|discriminate].
    destruct (unlink undeletable
                (join getCacheDirectory (e_filename entry)) (disk st))
      as [d| |]; [| |discriminate].
    all: destruct (writeManifest _ _) as [[[]|e] st2] eqn:Ew; [|discriminate].
    all: intros [= <- <-]; apply writeManifest_returns in Ew as (Hf & _).
    all: assert (Hm : files (disk st2) !! manifestPath
                      = Some (Json (DManifest
                                      (jsonEntry <$>
                                       delete (generateCacheKey url) entries))))
           by (rewrite Hf; apply lookup_insert_eq).
    all: split; [reflexivity|]; split; [reflexivity|].
    all: split; [exists entries, aliased; auto|].
    all: intros url' ign now Hk.
    all: apply (getCached_no_entry url' ign now st2 _ Hm).
    all: rewrite Hk, lookup_fmap, lookup_delete_eq; reflexivity.
  - intros entries aliased -> ->. reflexivity.
Qed.

(** What the loop of ignored deletions leaves: nothing but the files it
    found, none of the listed ones that could be deleted, and the
    permissions as they were. *)
Lemma unlinkQuietly_files undeletable d entry path :
  files (unlinkQuietly undeletable d entry) !! path
  = if decide (path = join getCacheDirectory (e_filename entry) /\
               path ∉ undeletable)
    then None else files d !! path.
Proof.
  unfold unlinkQuietly, unlink.
  destruct (decide (join getCacheDirectory (e_filename entry) ∈ undeletable))
    as [Hin|Hout].
  - destruct (decide _) as [[-> Hn]|_]; [contradiction|reflexivity].
  - destruct (files d !! join getCacheDirectory (e_filename entry)) eqn:Hf;
      cbn.
    + destruct (decide _) as [[-> _]|Hn].
      * apply lookup_delete_eq.
      * apply lookup_delete_ne. intros <-. apply Hn. auto.
    + destruct (decide _) as [[-> _]|_]; [exact Hf|reflexivity].
Qed.

Lemma unlinkQuietly_perms undeletable d entry :
  dirOk (unlinkQuietly undeletable d entry) = dirOk d /\
  denied (unlinkQuietly undeletable d entry) = denied d.
Proof.
  unfold unlinkQuietly, unlink.
  destruct (decide _); [auto|]. destruct (files d !! _); auto.
Qed.

Lemma unlinkAll_perms undeletable all :
  forall d,
    dirOk (foldl (unlinkQuietly undeletable) d all) = dirOk d /\
    denied (foldl (unlinkQuietly undeletable) d all) = denied d.
Proof.
  induction all as [|entry rest IH]; intros d; cbn; [auto|].
  destruct (IH (unlinkQuietly undeletable d entry)) as [-> ->].
  apply unlinkQuietly_perms.
Qed.

Lemma unlinkAll_absent undeletable all path :
  forall d,
    files d !! path = None ->
    files (foldl (unlinkQuietly undeletable) d all) !! path = None.
Proof.
  induction all as [|entry rest IH]; intros d Hd; cbn; [exact Hd|].
  apply IH. rewrite unlinkQuietly_files. now destruct (decide _).
Qed.

Lemma unlinkAll_deleted undeletable all entry :
  entry ∈ all ->
  join getCacheDirectory (e_filename entry) ∉ undeletable ->
  forall d,
    files (foldl (unlinkQuietly undeletable) d all)
      !! join getCacheDirectory (e_filename entry) = None.
Proof.
  intros Hin Hu. induction all as [|x rest IH]; intros d; [inversion Hin|].
  cbn. apply elem_of_cons in Hin as [<-|Hin].
  - apply unlinkAll_absent. rewrite unlinkQuietly_files.
    destruct (decide _) as [_|Hn]; [reflexivity|]. exfalso. apply Hn. auto.
  - now apply IH.
Qed.

(** How [clearCache()] returns: the manifest it writes is the [entries]
    object of [EMPTY_MANIFEST], after the blobs of the entries it read
    have been deleted where they could be. *)
Lemma clearCache_all_returns undeletable st r st' :
  clearCache undeletable None st = (Return r, st') ->
  exists entries aliased,
    readManifest st = Return (entries, aliased) /\
    cleared r = length ((map_to_list entries).*2) /\
    urls r = e_url <$> (map_to_list entries).*2 /\
    files (disk st')
    = <[manifestPath := Json (DManifest (jsonEntry <$> emptyEntries st))]>
        (files (foldl (unlinkQuietly undeletable) (disk st)
                  ((map_to_list entries).*2))) /\
    emptyEntries st' = emptyEntries st.
Proof.
  unfold clearCache.
  destruct (readManifest st) as [[entries aliased]|e]; [|discriminate].
  destruct (writeManifest _ _) as [[[]|e] st2] eqn:Ew; [|discriminate].
  intros [= <- <-]. apply writeManifest_returns in Ew as (Hf & He & _).
  exists entries, aliased. cbn in *. auto.
Qed.

(** X26. [clearCache()] in a process that has written no first entry.
    When the [entries] object of [EMPTY_MANIFEST] is still empty, a
    [clearCache()] (or [clearCache('')]) that returns leaves an empty
    manifest on disk: every [getCached] then fails with
    CacheNotFoundError; the count it reports is the number of entries of
    the manifest it read, and every URL of that manifest is in the list
    it returns. *)
Theorem clearCache_all_empties undeletable url st r st' :
  url = None \/ url = Some EmptyString ->
  emptyEntries st = ∅ ->
  clearCache undeletable url st = (Return r, st') ->
  files (disk st') !! manifestPath = Some (Json (DManifest ∅)) /\
  (forall u ign now,
     getCached u ign now st' = Throw (CacheNotFoundError u)) /\
  exists entries aliased,
    readManifest st = Return (entries, aliased) /\
    cleared r = size entries /\
    length (urls r) = size entries /\
    forall k entry, entries !! k = Some entry -> e_url entry ∈ urls r.
Proof.
  intros Hurl He E.
  assert (E' : clearCache undeletable None st = (Return r, st')).
  { destruct Hurl as [->| ->]; exact E. }
  clear E Hurl.
  apply clearCache_all_returns in E'
    as (entries & aliased & Hr & Hc & Hu & Hf & _).
  rewrite He, fmap_empty in Hf.
  assert (Hm : files (disk st') !! manifestPath = Some (Json (DManifest ∅))).
  { rewrite Hf. apply lookup_insert_eq. }
  split; [exact Hm|]. split.
  - intros u ign now. apply (getCached_no_entry u ign now st' ∅ Hm).
    apply lookup_empty.
  - exists entries, aliased. split; [exact Hr|].
    assert (Hlen : length ((map_to_list entries).*2) = size entries).
    { rewrite length_fmap. apply length_map_to_list. }
    split; [now rewrite Hc|]. split; [now rewrite Hu, length_fmap|].
    intros k entry Hk. rewrite Hu.
    apply list_elem_of_fmap. exists entry. split; [reflexivity|].
    apply list_elem_of_fmap. exists (k, entry). split; [reflexivity|].
    now apply elem_of_map_to_list.
Qed.

(** The first [setCache] of a process on a cache without manifest: the
    entry goes into the [entries] object of [EMPTY_MANIFEST] as well. *)
Lemma setCache_first_write url spec ttl fmt now st entry st1 :
  files (disk st) !! manifestPath = None ->
  setCache url spec ttl fmt now st = (Return entry, st1) ->
  emptyEntries st1 = <[generateCacheKey url := entry]> (emptyEntries st) /\
  files (disk st1) !! manifestPath
  = Some (Json (DManifest
                  (jsonEntry <$>
                   <[generateCacheKey url := entry]> (emptyEntries st)))) /\
  e_url entry = url /\
  e_filename entry = generateCacheKey url ++ ".json".
Proof.
  intros Hm. unfold setCache.
  destruct (parseIfString spec) as [specObj|e]; [|discriminate].
  destruct (ensureCacheDirectory st) as [[]|e] eqn:Hdir; [|discriminate].
  set (exp := match ttl with Some t => _ | None => Return None end).
  destruct exp as [expiresAt|e]; [|discriminate].
  destruct (normalizeSpec specObj fmt) as [info|e]; [|discriminate].
  unfold writeFile at 1.
  destruct (decide (_ ∈ denied (disk st))) as [|Hw1]; [discriminate|].
  unfold readManifest; cbn [disk files].
  rewrite lookup_insert_ne by apply blob_path_not_manifest.
  rewrite Hm.
  unfold writeManifest, ensureCacheDirectory, writeFile;
    cbn [disk dirOk denied files emptyEntries].
  unfold ensureCacheDirectory in Hdir.
  destruct (dirOk (disk st)); [|discriminate].
  destruct (decide (manifestPath ∈ denied (disk st))); [discriminate|].
  intros [= <- <-]. cbn. split; [reflexivity|].
  split; [apply lookup_insert_eq|auto].
Qed.

(** X27. [clearCache()] does not clear what the process itself cached
    first. [readManifest] hands out [{ ...EMPTY_MANIFEST }], a shallow
    copy, so on a cache without manifest the first [setCache] adds its
    entry to the [entries] object of [EMPTY_MANIFEST] itself; the
    [clearCache()] that follows in the same process deletes the blob and
    then writes that object back: the manifest on disk is what it was
    before the call and still names the URL, though the call reports it
    as cleared, and [getCached] finds the entry but not its blob. *)
Theorem clearCache_all_keeps_first_entry undeletable url spec ttl fmt now st
  entry st1 r st2 :
  files (disk st) !! manifestPath = None ->
  setCache url spec ttl fmt now st = (Return entry, st1) ->
  clearCache undeletable None st1 = (Return r, st2) ->
  join getCacheDirectory (e_filename entry) ∉ undeletable ->
  files (disk st2) !! manifestPath = files (disk st1) !! manifestPath /\
  (exists m, files (disk st2) !! manifestPath = Some (Json (DManifest m)) /\
             m !! generateCacheKey url = Some (jsonEntry entry)) /\
  files (disk st2) !! join getCacheDirectory (e_filename entry) = None /\
  url ∈ urls r /\ (1 <= cleared r)%nat /\
  forall t, getCached url true t st2 = Throw (CacheNotFoundError url).
Proof.
  intros Hm Hset Hclear Hu.
  apply setCache_first_write in Hset as (He & Hm1 & Hurl & Hfn); [|exact Hm].
  apply clearCache_all_returns in Hclear
    as (entries & aliased & Hr & Hc & Hus & Hf & _).
  unfold readManifest in Hr. rewrite Hm1 in Hr. injection Hr as <- <-.
  rewrite He in Hf.
  set (written := jsonEntry <$> <[generateCacheKey url := entry]>
                                  (emptyEntries st)) in *.
  assert (Hk : written !! generateCacheKey url = Some (jsonEntry entry)).
  { subst written. now rewrite lookup_fmap, lookup_insert_eq. }
  assert (Hm2 : files (disk st2) !! manifestPath
                = Some (Json (DManifest written))).
  { rewrite Hf. apply lookup_insert_eq. }
  assert (Hin : jsonEntry entry ∈ (map_to_list written).*2).
  { apply list_elem_of_fmap. exists (generateCacheKey url, jsonEntry entry).
    split; [reflexivity|]. now apply elem_of_map_to_list. }
  assert (Hb : files (disk st2) !! join getCacheDirectory (e_filename entry)
               = None).
  { rewrite Hf, lookup_insert_ne.
    - now apply (unlinkAll_deleted undeletable _ (jsonEntry entry)).
    - rewrite Hfn. intros E. symmetry in E.
      now apply blob_path_not_manifest in E. }
  split; [now rewrite Hm2, Hm1|].
  split; [eexists; split; [exact Hm2|exact Hk]|].
  split; [exact Hb|].
  split; [rewrite Hus; apply list_elem_of_fmap; exists (jsonEntry entry);
          split; [now rewrite <- Hurl|exact Hin]|].
  split.
  - rewrite Hc. destruct (_.*2) as [|x xs]; [inversion Hin|cbn; lia].
  - intros t. unfold getCached, readManifest. rewrite Hm2. cbn.
    rewrite Hk. cbn. now rewrite Hb.
Qed.

(** What [listCache] lists: an entry is listed under a key exactly when
    the manifest has it under that key, it passes the expiry filter
    (when expired entries are excluded) and its blob exists (when files
    are checked); it is flagged with [isExpired] at the time of
    flagging. *)
Lemma listCache_listed includeExpired checkFiles filterClock flagClock st
  (listing : gmap string (Entry * bool)) :
  listCache includeExpired checkFiles filterClock flagClock st
  = Return listing ->
  exists entries aliased,
    readManifest st = Return (entries, aliased) /\
    (forall k entry expired,
       listing !! k = Some (entry, expired) <->
       entries !! k = Some entry /\
       expired = isExpired entry (flagClock k) /\
       (includeExpired = false -> isExpired entry (filterClock k) = false) /\
       (checkFiles = true ->
        is_Some (files (disk st)
                   !! join getCacheDirectory (e_filename entry)))).
Proof.
  unfold listCache.
  destruct (readManifest st) as [[entries aliased]|e] eqn:Hr; cbn;
    [|discriminate].
  intros [= <-]. exists entries, aliased. split; [reflexivity|].
  intros k entry expired. rewrite map_lookup_imap.
  set (verified := if checkFiles then _ else _).
  assert (Hv : forall x,
    verified !! k = Some x <->
    entries !! k = Some x /\
    (includeExpired = false -> isExpired x (filterClock k) = false) /\
    (checkFiles = true ->
     is_Some (files (disk st) !! join getCacheDirectory (e_filename x)))).
  { intros x. subst verified.
    destruct checkFiles, includeExpired;
      rewrite ?map_lookup_filter_Some; cbn; intuition discriminate. }
  split.
  - destruct (verified !! k) as [x|] eqn:Hx; cbn; [|discriminate].
    intros [= <- <-]. destruct (proj1 (Hv x) eq_refl) as (? & ? & ?).
    auto.
  - intros (Hk & -> & Hfil & Hacc).
    rewrite (proj2 (Hv entry) (conj Hk (conj Hfil Hacc))). reflexivity.
Qed.

(** X28. What a listing of [listCache] promises. With [checkFiles], an
    entry listed under the key of its own URL can be read back at any
    time at which it has not expired, and at any time with
    [ignoreExpired]: [getCached] on its URL returns the document of its
    blob, or fails with CacheIOError when the blob cannot be read; it is
    never "not found". Without [includeExpired], a listed entry can
    still be flagged as expired: [isExpired] reads the clock once when
    the entry is filtered and once more when it is flagged, and the flag
    is true exactly for an entry that expired in between. *)
Theorem listCache_lists includeExpired checkFiles filterClock flagClock st
  (listing : gmap string (Entry * bool)) k entry expired :
  listCache includeExpired checkFiles filterClock flagClock st
  = Return listing ->
  listing !! k = Some (entry, expired) ->
  (checkFiles = true -> k = generateCacheKey (e_url entry) ->
   forall ign t,
     ign = true \/ isExpired entry t = false ->
     (exists doc, getCached (e_url entry) ign t st = Return doc) \/
     getCached (e_url entry) ign t st
     = Throw (CacheIOError "read spec"
                (join getCacheDirectory (e_filename entry)))) /\
  (includeExpired = false ->
   (expired = true <->
    exists t, e_expiresAt entry = Some t /\
              filterClock k <= t /\ t < flagClock k)).
Proof.
  intros Hl Hk.
  apply listCache_listed in Hl as (entries & aliased & Hr & Hchar).
  apply Hchar in Hk as (Hk & Hflag & Hfil & Hacc). split.
  - intros Hc Hkey ign t Ht.
    specialize (Hacc Hc). destruct Hacc as [f Hf].
    unfold getCached. rewrite Hr. cbn. rewrite <- Hkey, Hk. cbn.
    assert (Hx : (negb ign && isExpired entry t)%bool = false).
    { destruct Ht as [->| ->]; [reflexivity|apply andb_false_r]. }
    rewrite Hx, Hf.
    destruct f as [doc|]; [left; eauto|right; reflexivity].
  - intros Hi. specialize (Hfil Hi). subst expired.
    unfold isExpired in *. destruct (e_expiresAt entry) as [t|].
    + split.
      * intros Hx. exists t. split; [reflexivity|]. lia.
      * intros (t' & [= <-] & _ & Hlt). lia.
    + split; [discriminate|]. now intros (t' & [=] & _).
Qed.

End ClearFacts.

Section ClearExamples.
Import Js Cache Example.

Lemma clearCache_url_forgets_witness :
  exists r st',
    clearCache (H:=host) ∅ (Some exampleUrl) (danglingState None)
    = (Return r, st') /\
    getCached (H:=host) "  HTTPS://API.Example.com/OpenAPI.json " false 5000
      st'
    = Throw (CacheNotFoundError "  HTTPS://API.Example.com/OpenAPI.json ").
Proof.
  eexists _, _.
  match goal with
  | |- ?L = (Return ?r, ?s) /\ _ =>
      assert (E : L = (Return r, s)) by (vm_compute; reflexivity);
      pose proof
        (proj2 (proj2 (proj2
           (proj1 (clearCache_url_forgets (H:=host) _ exampleUrl
                     (danglingState None) eq_refl) r s E)))
           "  HTTPS://API.Example.com/OpenAPI.json " false 5000) as Hg
  end.
  split; [exact E|]. apply Hg. vm_compute. reflexivity.
Defined.

Lemma clearCache_all_empties_witness :
  exists r st',
    clearCache (H:=host) ∅ None (danglingState None) = (Return r, st') /\
    files (disk st') !! manifestPath (H:=host) = Some (Json (DManifest ∅)) /\
    forall u ign now,
      getCached (H:=host) u ign now st' = Throw (CacheNotFoundError u).
Proof.
  eexists _, _.
  match goal with
  | |- ?L = (Return ?r, ?s) /\ _ =>
      assert (E : L = (Return r, s)) by (vm_compute; reflexivity);
      destruct (clearCache_all_empties (H:=host) _ None (danglingState None)
                  r s (or_introl eq_refl) eq_refl E)
        as (Hm & Hg & _)
  end.
  split; [exact E|]. split; [exact Hm|exact Hg].
Defined.

Lemma clearCache_all_keeps_first_entry_witness :
  exists entry st1 r st2,
    setCache (H:=host) exampleUrl petstore3 None "json" 1000 freshState
    = (Return entry, st1) /\
    clearCache (H:=host) ∅ None st1 = (Return r, st2) /\
    files (disk st2) !! manifestPath (H:=host)
    = files (disk st1) !! manifestPath (H:=host) /\
    getCached (H:=host) exampleUrl true 5000 st2
    = Throw (CacheNotFoundError exampleUrl).
Proof.
  eexists _, _, _, _.
  match goal with
  | |- ?L1 = (Return ?e, ?s1) /\ _ =>
      assert (E1 : L1 = (Return e, s1)) by (vm_compute; reflexivity)
  end.
  split; [exact E1|].
  match goal with
  | |- ?L2 = (Return ?r, ?s2) /\ _ =>
      assert (E2 : L2 = (Return r, s2)) by (vm_compute; reflexivity)
  end.
  split; [exact E2|].
  destruct (clearCache_all_keeps_first_entry (H:=host) _ exampleUrl
              petstore3 None "json" 1000 freshState _ _ _ _
              eq_refl E1 E2 ltac:(apply not_elem_of_empty))
    as (Hm & _ & _ & _ & _ & Hg).
  split; [exact Hm|exact (Hg 5000)].
Defined.

Lemma listCache_lists_witness :
  exists listing entry,
    listCache (H:=host) false true (fun _ => 2000) (fun _ => 2000)
      cachedState = Return listing /\
    listing !! generateCacheKey (H:=host) exampleUrl = Some (entry, false) /\
    e_url entry = exampleUrl /\
    exists doc,
      getCached (H:=host) exampleUrl false 30000 cachedState = Return doc.
Proof.
  pose (listing :=
          match listCache (H:=host) false true (fun _ => 2000)
                  (fun _ => 2000) cachedState with
          | Return l => l
          | Throw _ => ∅
          end).
  pose (entry :=
          {| e_url := exampleUrl;
             e_filename := "https://api.exam.json";
             e_cachedAt := 1000;
             e_expiresAt := Some 61000;
             e_specInfo := {| si_title := VStr "Pets";
                              si_version := VStr "unknown";
                              si_type := "openapi" |} |}).
  assert (E : listCache (H:=host) false true (fun _ => 2000)
                (fun _ => 2000) cachedState = Return listing)
    by (vm_compute; reflexivity).
  assert (Hk : listing !! generateCacheKey (H:=host) exampleUrl
               = Some (entry, false))
    by (vm_compute; reflexivity).
  exists listing, entry.
  split; [exact E|]. split; [exact Hk|]. split; [reflexivity|].
  destruct (proj1 (listCache_lists (H:=host) false true (fun _ => 2000)
                     (fun _ => 2000) cachedState listing _ entry false E Hk)
              eq_refl eq_refl false 30000 (or_intror eq_refl))
    as [Hdoc|Hio].
  - exact Hdoc.
  - vm_compute in Hio. discriminate.
Defined.

End ClearExamples.
